(** * OpenMuse backend: MusicXML validation, streaming reconstruction and
      structural editing

    A shallow embedding of [backend/musicxml_utils.py] and of the streaming
    part of [backend/claude_service.py].

    - Python [str] values are [string]s (read as UTF-8 bytes), Python [int]s
      are [Z].
    - A Python call that may raise returns a [py_result]; the exception
      carries its class and the text [str(e)] would give.
    - An lxml element is an [element]: tag, attributes in document order,
      text, children (each with its tail).  In-place mutation of a tree
      becomes a function from the old tree to the new one.
    - The two XML parsers ([lxml.etree.fromstring] in the utilities,
      [xml.etree.ElementTree.fromstring] in the reconstructor) are library
      code.  The functions of the repository take them as parameters; the
      module [Xml] gives a reference parser and serializer for a fragment of
      XML 1.0 on which concrete documents are evaluated. *)

From Stdlib Require Import String Ascii List ZArith Lia Bool Arith.
From Stdlib Require Import DecimalString DecimalPos Sorted.
Import ListNotations.

Set Warnings "-register-all".

Open Scope list_scope.
Open Scope string_scope.

(** ** Python strings *)

Module PyStr.

(** [needle in s] and friends.  [find] is [str.find] (first occurrence),
    [rfind] is [str.rfind] (last occurrence). *)
Fixpoint find (needle s : string) : option nat :=
  if String.prefix needle s then Some 0
  else match s with
       | EmptyString => None
       | String _ s' => option_map S (find needle s')
       end.

Fixpoint rfind (needle s : string) : option nat :=
  match s with
  | EmptyString => if String.prefix needle s then Some 0 else None
  | String _ s' =>
      match rfind needle s' with
      | Some i => Some (S i)
      | None => if String.prefix needle s then Some 0 else None
      end
  end.

Definition contains (needle s : string) : bool :=
  match find needle s with Some _ => true | None => false end.

(** [s.count(needle)] for a non-empty needle: occurrences are counted from
    the left and do not overlap; [skip] is the number of characters still
    covered by the last occurrence counted. *)
Fixpoint count_from (needle s : string) (skip : nat) : nat :=
  match s with
  | EmptyString => 0
  | String _ s' =>
      match skip with
      | S k => count_from needle s' k
      | O => if String.prefix needle s
             then S (count_from needle s' (String.length needle - 1))
             else count_from needle s' 0
      end
  end.

Definition count (needle s : string) : nat := count_from needle s 0.

Definition startswith (p s : string) : bool := String.prefix p s.

(** [s[:n]] and [s[n:]] for [0 <= n]. *)
Fixpoint take (n : nat) (s : string) : string :=
  match n, s with
  | S k, String c s' => String c (take k s')
  | _, _ => EmptyString
  end.

Fixpoint drop (n : nat) (s : string) : string :=
  match n, s with
  | S k, String _ s' => drop k s'
  | _, _ => s
  end.

(** [str(n)] for an [int]. *)
Definition of_int (n : Z) : string := NilZero.string_of_int (Z.to_int n).

Definition dquote : string := String (ascii_of_nat 34) EmptyString.
Definition squote : string := String (ascii_of_nat 39) EmptyString.
Definition nl : string := String (ascii_of_nat 10) EmptyString.

Definition is_space (c : ascii) : bool :=
  let n := nat_of_ascii c in
  ((n =? 32) || (n =? 9) || (n =? 10) || (n =? 13) || (n =? 11) || (n =? 12))%nat.

Definition is_digit (c : ascii) : bool :=
  let n := nat_of_ascii c in ((48 <=? n) && (n <=? 57))%nat.

Fixpoint lstrip (s : string) : string :=
  match s with
  | String c s' => if is_space c then lstrip s' else s
  | EmptyString => EmptyString
  end.

(** Digits of an [int] literal after the sign: decimal digits, single
    underscores allowed between digits.  [acc] is the value read so far,
    [prev] tells whether the previous character was a digit. *)
Fixpoint digits (s : string) (acc : Z) (prev : bool) : option Z :=
  match s with
  | EmptyString => if prev then Some acc else None
  | String c s' =>
      if is_digit c
      then digits s' (10 * acc + Z.of_nat (nat_of_ascii c - 48)) true
      else if Ascii.eqb c "_"%char
           then if prev then digits s' acc false else None
           else if is_space c
                then if prev && (match lstrip s' with EmptyString => true | _ => false end)
                     then Some acc else None
                else None
  end.

(** [int(s)] in base 10 on an ASCII string: surrounding white space, an
    optional sign, digits.  [None] stands for the [ValueError] that [int]
    raises. *)
Definition to_int (s : string) : option Z :=
  match lstrip s with
  | String c s' =>
      if Ascii.eqb c "-"%char then option_map Z.opp (digits s' 0 false)
      else if Ascii.eqb c "+"%char then digits s' 0 false
      else digits (String c s') 0 false
  | EmptyString => None
  end.

End PyStr.

(** ** Python exceptions *)

Inductive exn_class : Type :=
| XMLSyntaxError
| ValueError
| TypeError
| IndexError
| SyntaxError
| OtherException.

Record py_exception : Type := Exn { exn_kind : exn_class; exn_str : string }.

Inductive py_result (A : Type) : Type :=
| Returns (a : A)
| Raises (e : py_exception).

Arguments Returns {A} a.
Arguments Raises {A} e.

Definition bind {A B : Type} (r : py_result A) (k : A -> py_result B) : py_result B :=
  match r with
  | Returns a => k a
  | Raises e => Raises e
  end.

Notation "x <- r ;; k" := (bind r (fun x => k))
  (at level 61, r at next level, right associativity).

(** [for x in l: acc = body(acc, x)] where the body may raise. *)
Fixpoint for_each {A St : Type} (body : St -> A -> py_result St) (l : list A) (s : St)
  : py_result St :=
  match l with
  | [] => Returns s
  | x :: l' => s' <- body s x ;; for_each body l' s'
  end.

(** ** Key and clef tables ([musicxml_utils.py], lines 110-134) *)

Definition major_keys : list string :=
  ["C"; "G"; "D"; "A"; "E"; "B"; "F#"; "C#";
   "F"; "Bb"; "Eb"; "Ab"; "Db"; "Gb"; "Cb"].

Definition minor_keys : list string :=
  ["a"; "e"; "b"; "f#"; "c#"; "g#"; "d#"; "a#";
   "d"; "g"; "c"; "f"; "bb"; "eb"; "ab"].

(** [keys[i]] for [0 <= i]; an index past the end raises [IndexError]. *)
Definition list_item (keys : list string) (i : Z) : py_result string :=
  match nth_error keys (Z.to_nat i) with
  | Some k => Returns k
  | None => Raises (Exn IndexError "list index out of range")
  end.

Definition fifths_to_key (fifths : Z) (mode : string) : py_result string :=
  let keys := if String.eqb mode "major" then major_keys else minor_keys in
  if (fifths >=? 0)%Z
  then if (fifths <? 8)%Z then list_item keys fifths else list_item keys 0
  else if (Z.abs fifths <? 8)%Z
       then list_item keys (8 + Z.abs fifths)
       else list_item keys 8.

Definition get_clef_info (clef_type : string) : string * string :=
  if String.eqb clef_type "G" then ("G", "2")
  else if String.eqb clef_type "F" then ("F", "4")
  else if String.eqb clef_type "C" then ("C", "3")
  else if String.eqb clef_type "C4" then ("C", "4")
  else if String.eqb clef_type "percussion" then ("percussion", "2")
  else ("G", "2").

(** ** Element trees

    The lxml data model: an element owns its tag, its attributes (in
    document order), the text before its first child, its children, and the
    text that follows its end tag (the tail).  A tail travels with its
    element when the element is moved or removed.

    A comment or a processing instruction is a child like any other for
    lxml: it has a place among the children, a tail, no attribute and no
    child, and a tag that is no name, so that no search by tag finds it.
    It is an [element] with such a tag. *)

Inductive element : Type :=
| Element (tag : string) (attrib : list (string * string)) (text : option string)
          (children : list element) (tail : option string).

Module Etree.

Definition tag (e : element) : string :=
  match e with Element t _ _ _ _ => t end.
Definition attrib (e : element) : list (string * string) :=
  match e with Element _ a _ _ _ => a end.
Definition text (e : element) : option string :=
  match e with Element _ _ x _ _ => x end.
Definition children (e : element) : list element :=
  match e with Element _ _ _ c _ => c end.
Definition tail (e : element) : option string :=
  match e with Element _ _ _ _ l => l end.

Definition set_children (e : element) (c : list element) : element :=
  match e with Element t a x _ l => Element t a x c l end.
Definition set_tail (e : element) (l : option string) : element :=
  match e with Element t a x c _ => Element t a x c l end.

(** [Element(tag, **attrs)] and [SubElement]: a fresh element has neither
    text nor tail. *)
Definition new (t : string) (a : list (string * string)) (c : list element) : element :=
  Element t a None c None.
Definition leaf (t : string) (a : list (string * string)) (x : string) : element :=
  Element t a (Some x) [] None.

Fixpoint lookup (key : string) (a : list (string * string)) : option string :=
  match a with
  | [] => None
  | (k, v) :: a' => if String.eqb k key then Some v else lookup key a'
  end.

(** [e.get(key)] and [e.get(key, default)]. *)
Definition get (e : element) (key : string) : option string :=
  lookup key (attrib e).
Definition get_default (e : element) (key default : string) : string :=
  match get e key with Some v => v | None => default end.

Fixpoint update (key value : string) (a : list (string * string))
  : list (string * string) :=
  match a with
  | [] => [(key, value)]
  | (k, v) :: a' =>
      if String.eqb k key then (k, value) :: a' else (k, v) :: update key value a'
  end.

(** [e.set(key, value)]: an existing attribute keeps its place, a new one
    goes last. *)
Definition set (e : element) (key value : string) : element :=
  match e with Element t a x c l => Element t (update key value a) x c l end.

Definition has_tag (t : string) (e : element) : bool := String.eqb (tag e) t.

(** [e.findall(t)] and [e.find(t)] for a plain tag name: the children with
    that tag, in order, and the first of them. *)
Definition findall (t : string) (e : element) : list element :=
  filter (has_tag t) (children e).
Definition find (t : string) (e : element) : option element :=
  match findall t e with c :: _ => Some c | [] => None end.

(** [parent.insert(i, x)] of lxml on the children [l]: the new child goes
    before the child of index [i], a negative index counting from the
    end; where there is no such child, at either end, it is appended. *)
Definition insert_at {A : Type} (l : list A) (i : Z) (x : A) : list A :=
  let n := Z.of_nat (List.length l) in
  let j := if (i <? 0)%Z
           then (if (n + i <? 0)%Z then n else n + i)%Z
           else Z.min i n in
  (firstn (Z.to_nat j) l ++ x :: skipn (Z.to_nat j) l)%list.

(** [l[i:]] with Python's treatment of a negative start. *)
Definition slice_from {A : Type} (l : list A) (i : Z) : list A :=
  let n := Z.of_nat (List.length l) in
  let j := if (i <? 0)%Z then Z.max 0 (n + i) else Z.min i n in
  skipn (Z.to_nat j) l.

(** [enumerate(l)] starting at [k]. *)
Fixpoint enumerate_from {A : Type} (k : Z) (l : list A) : list (Z * A) :=
  match l with
  | [] => []
  | x :: l' => (k, x) :: enumerate_from (k + 1) l'
  end.
Definition enumerate {A : Type} (l : list A) : list (Z * A) := enumerate_from 0 l.

End Etree.

(** ** A reference XML reader and writer

    [Xml.fromstring] reads a fragment of XML 1.0: an optional XML
    declaration at the very start, an optional DOCTYPE without internal
    subset, one document element; start, end and empty-element tags with
    quoted attributes; character data with the five predefined entities and
    decimal character references.  Comments, CDATA sections, processing
    instructions, name spaces and raw carriage returns are outside the
    fragment and are reported as syntax errors.  The reader is a pushdown
    automaton run over the characters; its stack holds the open elements.

    [Xml.tostring] is [etree.tostring(root, encoding='unicode',
    pretty_print=True)]: an element is indented only when none of its
    children is a text node. *)

Module Xml.

Import Etree.

Definition code (c : ascii) : nat := nat_of_ascii c.

Definition is_space (c : ascii) : bool :=
  ((code c =? 32) || (code c =? 9) || (code c =? 10) || (code c =? 13))%nat.

(** The [Char] production, on bytes. *)
Definition is_char (c : ascii) : bool :=
  ((32 <=? code c) || (code c =? 9) || (code c =? 10) || (code c =? 13))%nat.

Definition name_start (c : ascii) : bool :=
  (((65 <=? code c) && (code c <=? 90)) || ((97 <=? code c) && (code c <=? 122))
   || (code c =? 95) || (128 <=? code c))%nat.

Definition name_char (c : ascii) : bool :=
  (name_start c || ((48 <=? code c) && (code c <=? 57))
   || (code c =? 45) || (code c =? 46))%nat.

Definition snoc (s : string) (c : ascii) : string := s ++ String c EmptyString.

Fixpoint all_chars (p : ascii -> bool) (s : string) : bool :=
  match s with
  | EmptyString => true
  | String c s' => p c && all_chars p s'
  end.

(** What lxml accepts as text or attribute value when a tree is built. *)
Definition xml_compatible (s : string) : bool := all_chars is_char s.

Definition is_name (s : string) : bool :=
  match s with
  | EmptyString => false
  | String c s' => name_start c && all_chars name_char s'
  end.

(** *** Reader *)

Record frame : Type := Frame {
  f_tag : string;
  f_attrib : list (string * string);
  f_text : option string;
  f_rchildren : list element   (* children read so far, last one first *)
}.

Inductive keyword : Type := KwXml | KwDoctype.

Inductive mode : Type :=
| Content (buf : string)                 (* character data *)
| ContentRef (buf : string) (ref : string)
| TagOpen                                (* after [<] *)
| Keyword (expected : string) (k : keyword)
| XmlDecl (qmark : bool)                 (* inside [<?xml ...], after [?] *)
| Doctype
| StartName (name : string)
| InTag (sp : bool)                      (* in a start tag, after white space *)
| AttrName (an : string)
| AttrQuote (an : string)                (* after [=] *)
| AttrValue (an : string) (q : ascii) (val : string)
| AttrRef (an : string) (q : ascii) (val : string) (ref : string)
| EmptyClose                             (* after [/] in a start tag *)
| EndName (name : string)                (* after [</] *)
| EndSpace (name : string)
| Failed (msg : string).

Record pstate : Type := PState {
  st_stack : list frame;
  st_root : option element;
  st_fresh : bool;        (* nothing read yet, or only the first [<] *)
  st_doctype : bool;
  st_mode : mode
}.

Definition initial : pstate := PState [] None true false (Content "").

Definition with_mode (st : pstate) (m : mode) : pstate :=
  PState (st_stack st) (st_root st) false (st_doctype st) m.

Definition fail (st : pstate) (msg : string) : pstate := with_mode st (Failed msg).

(** Value of a decimal character reference body. *)
Fixpoint decimal (s : string) (acc : nat) : option nat :=
  match s with
  | EmptyString => Some acc
  | String c s' =>
      if ((48 <=? code c) && (code c <=? 57))%nat
      then decimal s' (10 * acc + (code c - 48))
      else None
  end.

Definition decode_ref (ref : string) : option ascii :=
  if String.eqb ref "amp" then Some "&"%char
  else if String.eqb ref "lt" then Some "<"%char
  else if String.eqb ref "gt" then Some ">"%char
  else if String.eqb ref "quot" then Some (ascii_of_nat 34)
  else if String.eqb ref "apos" then Some (ascii_of_nat 39)
  else match ref with
       | String "#"%char (String d ds) =>
           match decimal (String d ds) 0 with
           | Some n => if (n <? 128)%nat && is_char (ascii_of_nat n)
                       then Some (ascii_of_nat n) else None
           | None => None
           end
       | _ => None
       end.

(** Character data [buf] read before a tag: it becomes the text of the open
    element, or the tail of its last child. *)
Definition flush (buf : string) (fr : frame) : frame :=
  match buf with
  | EmptyString => fr
  | _ =>
      match f_rchildren fr with
      | [] => Frame (f_tag fr) (f_attrib fr) (Some buf) []
      | c :: cs => Frame (f_tag fr) (f_attrib fr) (f_text fr) (set_tail c (Some buf) :: cs)
      end
  end.

Definition add_attr (fr : frame) (an val : string) : frame :=
  Frame (f_tag fr) (f_attrib fr ++ [(an, val)])%list (f_text fr) (f_rchildren fr).

Definition add_child (fr : frame) (e : element) : frame :=
  Frame (f_tag fr) (f_attrib fr) (f_text fr) (e :: f_rchildren fr).

Definition close_frame (fr : frame) : element :=
  Element (f_tag fr) (f_attrib fr) (f_text fr) (rev (f_rchildren fr)) None.

(** The element [e] is complete: it joins its parent, or is the document
    element. *)
Definition attach (st : pstate) (rest : list frame) (e : element) : pstate :=
  match rest with
  | [] => PState [] (Some e) false (st_doctype st) (Content "")
  | fr :: rest' =>
      PState (add_child fr e :: rest') (st_root st) false (st_doctype st) (Content "")
  end.

Definition open_element (st : pstate) (name : string) (m : mode) : pstate :=
  PState (Frame name [] None [] :: st_stack st) (st_root st) false (st_doctype st) m.

Definition end_tag (st : pstate) (name : string) : pstate :=
  match st_stack st with
  | fr :: rest =>
      if String.eqb (f_tag fr) name then attach st rest (close_frame fr)
      else fail st "Opening and ending tag mismatch"
  | [] => fail st "Extra content at the end of the document"
  end.

Definition on_top (st : pstate) (f : frame -> frame) (m : mode) : pstate :=
  match st_stack st with
  | fr :: rest => PState (f fr :: rest) (st_root st) false (st_doctype st) m
  | [] => fail st "internal error"
  end.

Definition has_attr (st : pstate) (an : string) : bool :=
  match st_stack st with
  | fr :: _ => existsb (fun kv => String.eqb (fst kv) an) (f_attrib fr)
  | [] => false
  end.

Definition step_content (st : pstate) (buf : string) (c : ascii) : pstate :=
  match st_stack st with
  | [] =>
      if Ascii.eqb c "<"%char
      then PState [] (st_root st) (st_fresh st) (st_doctype st) TagOpen
      else if is_space c then with_mode st (Content "")
      else match st_root st with
           | None => fail st "Start tag expected, '<' not found"
           | Some _ => fail st "Extra content at the end of the document"
           end
  | fr :: rest =>
      if Ascii.eqb c "<"%char
      then PState (flush buf fr :: rest) (st_root st) false (st_doctype st) TagOpen
      else if Ascii.eqb c "&"%char then with_mode st (ContentRef buf "")
      else if (code c =? 13)%nat then fail st "carriage return in character data"
      else with_mode st (Content (snoc buf c))
  end.

Definition step_ref (st : pstate) (ref : string) (c : ascii)
  (more : string -> mode) (done : ascii -> mode) : pstate :=
  if Ascii.eqb c ";"%char
  then match decode_ref ref with
       | Some d => with_mode st (done d)
       | None => fail st "Entity not defined"
       end
  else if name_char c || Ascii.eqb c "#"%char then with_mode st (more (snoc ref c))
  else fail st "EntityRef: expecting ';'".

Definition step_tag_open (st : pstate) (c : ascii) : pstate :=
  if Ascii.eqb c "?"%char
  then if st_fresh st then with_mode st (Keyword "xml " KwXml)
       else fail st "XML declaration allowed only at the start of the document"
  else if Ascii.eqb c "!"%char
  then match st_stack st, st_root st, st_doctype st with
       | [], None, false => with_mode st (Keyword "DOCTYPE " KwDoctype)
       | _, _, _ => fail st "StartTag: invalid element name"
       end
  else if Ascii.eqb c "/"%char
  then match st_stack st with
       | [] => fail st "StartTag: invalid element name"
       | _ :: _ => with_mode st (EndName "")
       end
  else if name_start c
  then match st_stack st, st_root st with
       | [], Some _ => fail st "Extra content at the end of the document"
       | _, _ => with_mode st (StartName (String c EmptyString))
       end
  else fail st "StartTag: invalid element name".

Definition step_keyword (st : pstate) (expected : string) (k : keyword) (c : ascii)
  : pstate :=
  match expected with
  | String e rest =>
      if Ascii.eqb c e
      then match rest with
           | EmptyString =>
               match k with
               | KwXml => with_mode st (XmlDecl false)
               | KwDoctype => with_mode st Doctype
               end
           | _ => with_mode st (Keyword rest k)
           end
      else fail st "malformed declaration"
  | EmptyString => fail st "malformed declaration"
  end.

Definition step_in_tag (st : pstate) (sp : bool) (c : ascii) : pstate :=
  if is_space c then with_mode st (InTag true)
  else if Ascii.eqb c ">"%char then with_mode st (Content "")
  else if Ascii.eqb c "/"%char then with_mode st EmptyClose
  else if name_start c && sp then with_mode st (AttrName (String c EmptyString))
  else fail st "attributes construct error".

Definition step (st : pstate) (c : ascii) : pstate :=
  if negb (is_char c) then
    match st_mode st with
    | Failed _ => st
    | _ => fail st "invalid Char value"
    end
  else
  match st_mode st with
  | Failed _ => st
  | Content buf => step_content st buf c
  | ContentRef buf ref =>
      step_ref st ref c (ContentRef buf) (fun d => Content (snoc buf d))
  | TagOpen => step_tag_open st c
  | Keyword expected k => step_keyword st expected k c
  | XmlDecl qmark =>
      if Ascii.eqb c "?"%char then with_mode st (XmlDecl true)
      else if Ascii.eqb c ">"%char
      then with_mode st (if qmark then Content "" else XmlDecl false)
      else if Ascii.eqb c "<"%char then fail st "XML declaration not closed"
      else with_mode st (XmlDecl false)
  | Doctype =>
      if Ascii.eqb c ">"%char
      then PState (st_stack st) (st_root st) false true (Content "")
      else if Ascii.eqb c "<"%char || Ascii.eqb c "["%char
      then fail st "DOCTYPE with internal subset"
      else with_mode st Doctype
  | StartName name =>
      if name_char c then with_mode st (StartName (snoc name c))
      else if is_space c then open_element st name (InTag true)
      else if Ascii.eqb c ">"%char then open_element st name (Content "")
      else if Ascii.eqb c "/"%char then open_element st name EmptyClose
      else fail st "StartTag: invalid element name"
  | InTag sp => step_in_tag st sp c
  | AttrName an =>
      if name_char c then with_mode st (AttrName (snoc an c))
      else if Ascii.eqb c "="%char
      then if String.eqb an "xmlns" then fail st "name space declaration"
           else if has_attr st an then fail st "Attribute redefined"
           else with_mode st (AttrQuote an)
      else fail st "Specification mandates value for attribute"
  | AttrQuote an =>
      if (code c =? 34)%nat || (code c =? 39)%nat then with_mode st (AttrValue an c "")
      else fail st "AttValue: quote expected"
  | AttrValue an q val =>
      if Ascii.eqb c q then on_top st (fun fr => add_attr fr an val) (InTag false)
      else if Ascii.eqb c "<"%char then fail st "Unescaped '<' not allowed in attributes values"
      else if Ascii.eqb c "&"%char then with_mode st (AttrRef an q val "")
      else if (code c =? 13)%nat then fail st "carriage return in attribute value"
      else if is_space c then with_mode st (AttrValue an q (snoc val " "%char))
      else with_mode st (AttrValue an q (snoc val c))
  | AttrRef an q val ref =>
      step_ref st ref c (AttrRef an q val) (fun d => AttrValue an q (snoc val d))
  | EmptyClose =>
      if Ascii.eqb c ">"%char
      then match st_stack st with
           | fr :: rest => attach st rest (close_frame fr)
           | [] => fail st "internal error"
           end
      else fail st "Couldn't find end of Start Tag"
  | EndName name =>
      if (match name with EmptyString => name_start c | _ => name_char c end)
      then with_mode st (EndName (snoc name c))
      else match name with
           | EmptyString => fail st "StartTag: invalid element name"
           | _ => if is_space c then with_mode st (EndSpace name)
                  else if Ascii.eqb c ">"%char then end_tag st name
                  else fail st "expected '>'"
           end
  | EndSpace name =>
      if is_space c then with_mode st (EndSpace name)
      else if Ascii.eqb c ">"%char then end_tag st name
      else fail st "expected '>'"
  end.

Fixpoint run (st : pstate) (s : string) : pstate :=
  match s with
  | EmptyString => st
  | String c s' => run (step st c) s'
  end.

Definition syntax_error (msg : string) : py_result element :=
  Raises (Exn XMLSyntaxError msg).

(** The end of the input: the document element must be closed. *)
Definition finish (st : pstate) : py_result element :=
  match st_mode st with
  | Failed msg => syntax_error msg
  | Content _ =>
      match st_stack st, st_root st with
      | [], Some r => Returns r
      | [], None =>
          if st_fresh st then syntax_error "Document is empty"
          else syntax_error "Start tag expected, '<' not found"
      | _ :: _, _ => syntax_error "Premature end of data in tag"
      end
  | _ => syntax_error "Premature end of data"
  end.

(** [lxml.etree.fromstring(s.encode('utf-8'))]. *)
Definition fromstring (s : string) : py_result element := finish (run initial s).

(** [xml.etree.ElementTree.fromstring(s.encode('utf-8'))], where a
    [ParseError] gives [None]. *)
Definition ET_fromstring (s : string) : option element :=
  match fromstring s with
  | Returns r => Some r
  | Raises _ => None
  end.

(** *** Writer *)

Definition escape_text_char (c : ascii) : string :=
  if Ascii.eqb c "<"%char then "&lt;"
  else if Ascii.eqb c ">"%char then "&gt;"
  else if Ascii.eqb c "&"%char then "&amp;"
  else if (code c =? 13)%nat then "&#13;"
  else String c EmptyString.

Definition escape_attr_char (c : ascii) : string :=
  if Ascii.eqb c "<"%char then "&lt;"
  else if Ascii.eqb c ">"%char then "&gt;"
  else if Ascii.eqb c "&"%char then "&amp;"
  else if (code c =? 34)%nat then "&quot;"
  else if (code c =? 10)%nat then "&#10;"
  else if (code c =? 13)%nat then "&#13;"
  else if (code c =? 9)%nat then "&#9;"
  else String c EmptyString.

Fixpoint escape (f : ascii -> string) (s : string) : string :=
  match s with
  | EmptyString => EmptyString
  | String c s' => f c ++ escape f s'
  end.

Definition opt_text (f : ascii -> string) (x : option string) : string :=
  match x with Some s => escape f s | None => EmptyString end.

Definition write_attr (kv : string * string) : string :=
  " " ++ fst kv ++ "=" ++ PyStr.dquote ++ escape escape_attr_char (snd kv) ++ PyStr.dquote.

Definition write_attrs (a : list (string * string)) : string :=
  String.concat "" (map write_attr a).

Fixpoint indent (level : nat) : string :=
  match level with
  | O => EmptyString
  | S k => "  " ++ indent k
  end.

(** No child is a text node: there is no text, and no child has a tail. *)
Definition element_only (e : element) : bool :=
  match text e with
  | Some _ => false
  | None => forallb (fun c => match tail c with Some _ => false | None => true end)
                    (children e)
  end.

(** The element itself, without its tail.  [format] is the pretty-printing
    flag handed down by the parent, [level] the depth. *)
Fixpoint write (format : bool) (level : nat) (e : element) : string :=
  match e with
  | Element t a x cs _ =>
      match x, cs with
      | None, [] => "<" ++ t ++ write_attrs a ++ "/>"
      | _, _ =>
          let fmt := format && element_only e in
          "<" ++ t ++ write_attrs a ++ ">"
          ++ (if fmt then PyStr.nl else EmptyString)
          ++ opt_text escape_text_char x
          ++ String.concat ""
               (map (fun c =>
                       (if fmt then indent (S level) else EmptyString)
                       ++ write fmt (S level) c
                       ++ opt_text escape_text_char (tail c)
                       ++ (if fmt then PyStr.nl else EmptyString)) cs)
          ++ (if fmt then indent level else EmptyString)
          ++ "</" ++ t ++ ">"
      end
  end.

Definition tostring (root : element) : string := write true 0 root ++ PyStr.nl.

End Xml.

(** ** [musicxml_utils.py] *)

Import Etree.

Definition q : string := PyStr.dquote.

Definition MUSICXML_DOCTYPE : string :=
  "<!DOCTYPE score-partwise PUBLIC " ++ q ++ "-//Recordare//DTD MusicXML 4.0 Partwise//EN" ++ q
  ++ " " ++ q ++ "http://www.musicxml.org/dtds/partwise.dtd" ++ q ++ ">".

Definition xml_declaration : string :=
  "<?xml version=" ++ q ++ "1.0" ++ q ++ " encoding=" ++ q ++ "UTF-8" ++ q ++ "?>" ++ PyStr.nl.

Section Utils.

(** [etree.fromstring(s.encode('utf-8'))] and
    [etree.tostring(root, encoding='unicode', pretty_print=True)]. *)
Variable fromstring : string -> py_result element.
Variable tostring : element -> string.

(** *** [validate_musicxml] (lines 12-47) *)

(** The loop over the parts (lines 36-40), and its fall-through to
    [return True, None]. *)
Fixpoint check_parts (parts : list element) : bool * option string :=
  match parts with
  | [] => (true, None)
  | part :: rest =>
      let measures := findall "measure" part in
      if (List.length measures =? 0)%nat
      then let part_id := get_default part "id" "unknown" in
           (false, Some ("Part '" ++ part_id ++ "' has no measures"))
      else check_parts rest
  end.

(** The body of the [try] after the parse (lines 25-42). *)
Definition check_root (root : element) : bool * option string :=
  if negb (String.eqb (tag root) "score-partwise" || String.eqb (tag root) "score-timewise")
  then (false, Some ("Invalid root element: " ++ tag root
                     ++ ". Expected 'score-partwise' or 'score-timewise'"))
  else match find "part-list" root with
       | None => (false, Some "Missing required <part-list> element")
       | Some part_list =>
           let parts := findall "part" root in
           if (List.length parts =? 0)%nat
           then (false, Some "No <part> elements found")
           else check_parts parts
       end.

Definition validate_musicxml (xml_string : string) : bool * option string :=
  match fromstring xml_string with
  | Returns root => check_root root
  | Raises e =>
      match exn_kind e with
      | XMLSyntaxError => (false, Some ("XML syntax error: " ++ exn_str e))
      | _ => (false, Some ("Validation error: " ++ exn_str e))
      end
  end.

(** *** [create_empty_score] (lines 137-252) *)

(** A part definition, the dict of the docstring: [id] and [name] are read
    with [part_def[...]], the other keys with [part_def.get(...)]. *)
Record part_def : Type := PartDef {
  pd_id : string;
  pd_name : string;
  pd_abbreviation : option string;
  pd_clef : option string;
  pd_midi_program : option Z
}.

Definition default_parts : list part_def :=
  [PartDef "P1" "Piano" (Some "Pno.") (Some "G") (Some 0%Z)].

(** lxml refuses to store a string that XML cannot carry. *)
Definition xml_str (s : string) : py_result string :=
  if Xml.xml_compatible s then Returns s
  else Raises (Exn ValueError
    "All strings must be XML compatible: Unicode or ASCII, no NULL bytes or control characters").

Definition truthy (s : option string) : bool :=
  match s with
  | Some (String _ _) => true
  | _ => false
  end.

(** One [score-part] of the part list (lines 177-195). *)
Definition score_part_of (pd : part_def) : py_result element :=
  id <- xml_str (pd_id pd) ;;
  name <- xml_str (pd_name pd) ;;
  abbrev <- (if truthy (pd_abbreviation pd)
             then a <- xml_str (match pd_abbreviation pd with Some a => a | None => "" end) ;;
                  Returns [leaf "part-abbreviation" [] a]
             else Returns []) ;;
  let program := (match pd_midi_program pd with Some p => p | None => 0 end + 1)%Z in
  let instrument_id := id ++ "-I1" in
  Returns
    (new "score-part" [("id", id)]
       ([leaf "part-name" [] name] ++ abbrev ++
        [new "score-instrument" [("id", instrument_id)] [leaf "instrument-name" [] name];
         new "midi-instrument" [("id", instrument_id)]
           [leaf "midi-channel" [] "1";
            leaf "midi-program" [] (PyStr.of_int program)]])%list).

(** The [attributes] block of a first measure (lines 207-226). *)
Definition attributes_of (clef_sign clef_line : string) (time_sig : Z * Z) (key_fifths : Z)
  : element :=
  new "attributes" []
    [leaf "divisions" [] "1";
     new "key" [] [leaf "fifths" [] (PyStr.of_int key_fifths)];
     new "time" [] [leaf "beats" [] (PyStr.of_int (fst time_sig));
                    leaf "beat-type" [] (PyStr.of_int (snd time_sig))];
     new "clef" [] [leaf "sign" [] clef_sign; leaf "line" [] clef_line]].

(** The tempo [direction] of the first part (lines 230-237). *)
Definition direction_of (tempo : Z) : element :=
  new "direction" [("placement", "above")]
    [new "direction-type" []
       [new "metronome" [] [leaf "beat-unit" [] "quarter";
                            leaf "per-minute" [] (PyStr.of_int tempo)]];
     new "sound" [("tempo", PyStr.of_int tempo)] []].

Definition rest_note : element :=
  new "note" [] [new "rest" [] []; leaf "duration" [] "1"; leaf "type" [] "quarter"].

(** Measure [m] of the part of index [part_idx] (lines 203-246). *)
Definition measure_of (part_idx : nat) (clef_sign clef_line : string)
  (time_sig : Z * Z) (key_fifths tempo m : Z) : element :=
  new "measure" [("number", PyStr.of_int m)]
    ((if (m =? 1)%Z
      then attributes_of clef_sign clef_line time_sig key_fifths
           :: (if (part_idx =? 0)%nat then [direction_of tempo] else [])
      else [])
     ++ repeat rest_note (Z.to_nat (fst time_sig)))%list.

(** [range(1, measures + 1)]. *)
Definition range1 (measures : Z) : list Z :=
  map Z.of_nat (seq 1 (Z.to_nat measures)).

(** One [part] (lines 199-246). *)
Definition part_of (time_sig : Z * Z) (key_fifths tempo measures : Z)
  (part_idx : nat) (pd : part_def) : py_result element :=
  id <- xml_str (pd_id pd) ;;
  let '(clef_sign, clef_line) :=
    get_clef_info (match pd_clef pd with Some c => c | None => "G" end) in
  Returns
    (new "part" [("id", id)]
       (map (measure_of part_idx clef_sign clef_line time_sig key_fifths tempo)
            (range1 measures))).

(** [for x in l] collecting the results of a body that may raise. *)
Fixpoint map_m {A B : Type} (f : A -> py_result B) (l : list A) : py_result (list B) :=
  match l with
  | [] => Returns []
  | x :: l' => y <- f x ;; ys <- map_m f l' ;; Returns (y :: ys)
  end.

(** [for i, x in enumerate(l)], the index counted from [i]. *)
Fixpoint map_mi {A B : Type} (f : nat -> A -> py_result B) (i : nat) (l : list A)
  : py_result (list B) :=
  match l with
  | [] => Returns []
  | x :: l' => y <- f i x ;; ys <- map_mi f (S i) l' ;; Returns (y :: ys)
  end.

(** The tree built by lines 162-246. *)
Definition empty_score_tree (title composer : string) (parts : option (list part_def))
  (time_sig : Z * Z) (key_fifths tempo measures : Z) : py_result element :=
  let parts := match parts with None => default_parts | Some ps => ps end in
  title' <- xml_str title ;;
  identification <-
    (match composer with
     | EmptyString => Returns []
     | _ => c <- xml_str composer ;;
            Returns [new "identification" [] [leaf "creator" [("type", "composer")] c]]
     end) ;;
  score_parts <- map_m score_part_of parts ;;
  part_elems <- map_mi (part_of time_sig key_fifths tempo measures) 0 parts ;;
  Returns
    (new "score-partwise" [("version", "4.0")]
       ([new "work" [] [leaf "work-title" [] title']] ++ identification
        ++ [new "part-list" [] score_parts] ++ part_elems)%list).

Definition create_empty_score (title composer : string) (parts : option (list part_def))
  (time_sig : Z * Z) (key_fifths tempo measures : Z) : py_result string :=
  root <- empty_score_tree title composer parts time_sig key_fifths tempo measures ;;
  let doctype := MUSICXML_DOCTYPE ++ PyStr.nl in
  let tree_string := tostring root in
  Returns (xml_declaration ++ doctype ++ tree_string).

(** *** [merge_musicxml] (lines 255-301) *)

(** [base_root.find(".//part[@id='...']")] followed by mutation of the
    element found: [f] is applied to the first proper descendant, in
    document order, that has tag [part] and attribute [id] equal to
    [part_id]; [None] when there is none. *)
Definition is_part_with_id (part_id : string) (e : element) : bool :=
  has_tag "part" e &&
  match get e "id" with Some i => String.eqb i part_id | None => false end.

Section UpdateFirst.

Variable g : element -> option element.

(** The first element of [cs] on which [g] gives a result is replaced by
    that result. *)
Fixpoint update_first (cs : list element) : option (list element) :=
  match cs with
  | [] => None
  | c :: cs' =>
      match g c with
      | Some c' => Some (c' :: cs')
      | None =>
          match update_first cs' with
          | Some cs'' => Some (c :: cs'')
          | None => None
          end
      end
  end.

End UpdateFirst.

Fixpoint update_first_part (part_id : string) (f : element -> element) (e : element)
  : option element :=
  match e with
  | Element t a x cs l =>
      match update_first (fun c => if is_part_with_id part_id c then Some (f c)
                                   else update_first_part part_id f c) cs with
      | Some cs' => Some (Element t a x cs' l)
      | None => None
      end
  end.

(** The measures of [base_measures[from:]] are renumbered where they stand:
    [k] counts the measures met so far among the children [cs], and the
    measure of rank [from + j] receives the number [first + j]. *)
Fixpoint renumber_from (from : nat) (first : Z) (k : nat) (cs : list element)
  : list element :=
  match cs with
  | [] => []
  | c :: cs' =>
      if has_tag "measure" c
      then (if (from <=? k)%nat
            then set c "number" (PyStr.of_int (first + Z.of_nat (k - from)))
            else c) :: renumber_from from first (S k) cs'
      else c :: renumber_from from first k cs'
  end.

(** Start of the slice [l[i:]] as a rank. *)
Definition slice_start (len : nat) (i : Z) : nat :=
  let n := Z.of_nat len in
  Z.to_nat (if (i <? 0)%Z then Z.max 0 (n + i) else Z.min i n).

(** The body of the loop for one part of the addition whose counterpart
    [base_part] exists (lines 276-293).  The new measures are moved into the
    base part, tails included.  The source renumbers the measures of
    [base_measures[insert_at_measure - 1:]] after the insertions; they are
    other objects than the ones inserted, so the model renumbers them first,
    where their rank among the measures is still their rank in
    [base_measures]. *)
Definition merge_part (insert_at_measure : option Z) (new_part base_part : element)
  : element :=
  let new_measures := findall "measure" new_part in
  let base_measures := findall "measure" base_part in
  match insert_at_measure with
  | None =>
      let start_num := (Z.of_nat (List.length base_measures) + 1)%Z in
      set_children base_part
        (children base_part
         ++ map (fun im => set (snd im) "number" (PyStr.of_int (start_num + fst im)))
                (enumerate new_measures))%list
  | Some at_measure =>
      let numbered :=
        map (fun im => set (snd im) "number" (PyStr.of_int (at_measure + fst im)))
            (enumerate new_measures) in
      let insert_idx := (at_measure - 1)%Z in
      let shifted :=
        renumber_from (slice_start (List.length base_measures) (at_measure - 1))
                      (at_measure + Z.of_nat (List.length new_measures)) 0
                      (children base_part) in
      set_children base_part
        (fold_left (fun cs im => insert_at cs (insert_idx + fst im) (snd im))
                   (enumerate numbered) shifted)
  end.

(** The path [.//part[@id='...']] is the one written in the source only
    when the id holds no single quote.  With one, the text pasted into the
    path ends the quoted value early: ElementPath rejects most such paths
    and reads some as further predicates.  The model raises on all of
    them; what is stated of a merge is stated for ids without a single
    quote. *)
Definition merge_into (insert_at_measure : option Z) (base_root new_part : element)
  : py_result element :=
  let part_id := match get new_part "id" with Some i => i | None => "None" end in
  if PyStr.contains PyStr.squote part_id
  then Raises (Exn SyntaxError "invalid predicate")
  else match update_first_part part_id (merge_part insert_at_measure new_part) base_root with
       | Some base_root' => Returns base_root'
       | None => Returns base_root
       end.

Definition merge_trees (insert_at_measure : option Z) (base_root new_root : element)
  : py_result element :=
  for_each (merge_into insert_at_measure) (findall "part" new_root) base_root.

Definition merge_musicxml (base_xml new_xml : string) (insert_at_measure : option Z)
  : py_result string :=
  match (base_root <- fromstring base_xml ;;
         new_root <- fromstring new_xml ;;
         merged <- merge_trees insert_at_measure base_root new_root ;;
         let xml_declaration := xml_declaration in
         let tree_string := tostring merged in
         Returns (xml_declaration ++ tree_string))
  with
  | Returns s => Returns s
  | Raises e => Raises (Exn ValueError ("Failed to merge MusicXML: " ++ exn_str e))
  end.

(** *** [extract_measures] (lines 304-338) *)

(** [int(measure.get('number'))]. *)
Definition measure_number (measure : element) : py_result Z :=
  match get measure "number" with
  | None => Raises (Exn TypeError
      "int() argument must be a string, a bytes-like object or a real number, not 'NoneType'")
  | Some s =>
      match PyStr.to_int s with
      | Some n => Returns n
      | None => Raises (Exn ValueError
                          ("invalid literal for int() with base 10: '" ++ s ++ "'"))
      end
  end.

(** Lines 320-327: the measures whose number lies outside [start..end] are
    collected, then removed (with their tails); the other children stay. *)
Fixpoint remove_outside (start end_ : Z) (cs : list element) : py_result (list element) :=
  match cs with
  | [] => Returns []
  | c :: cs' =>
      if has_tag "measure" c
      then num <- measure_number c ;;
           rest <- remove_outside start end_ cs' ;;
           Returns (if (num <? start)%Z || (num >? end_)%Z then rest else c :: rest)
      else rest <- remove_outside start end_ cs' ;;
           Returns (c :: rest)
  end.

(** Lines 329-330: the measures left are numbered from 1; [i] is the
    index of the next measure. *)
Fixpoint renumber (i : Z) (cs : list element) : list element :=
  match cs with
  | [] => []
  | c :: cs' =>
      if has_tag "measure" c
      then set c "number" (PyStr.of_int (i + 1)) :: renumber (i + 1) cs'
      else c :: renumber i cs'
  end.

Definition extract_part (start end_ : Z) (part : element) : py_result element :=
  kept <- remove_outside start end_ (children part) ;;
  Returns (set_children part (renumber 0 kept)).

Definition extract_tree (start end_ : Z) (root : element) : py_result element :=
  cs <- map_m (fun c => if has_tag "part" c then extract_part start end_ c else Returns c)
              (children root) ;;
  Returns (set_children root cs).

Definition extract_measures (xml_string : string) (start end_ : Z) : py_result string :=
  match (root <- fromstring xml_string ;;
         root' <- extract_tree start end_ root ;;
         let tree_string := tostring root' in
         Returns (xml_declaration ++ tree_string))
  with
  | Returns s => Returns s
  | Raises e => Raises (Exn ValueError ("Failed to extract measures: " ++ exn_str e))
  end.

End Utils.

(** ** [claude_service.py]: the streaming reconstructor *)

Section Stream.

(** [ET.fromstring(s.encode('utf-8'))]; [None] is a [ParseError]. *)
Variable ET_fromstring : string -> option element.

(** The [re.search] of line 160 (the literal [<score-partwise], any
    characters other than [>], a [>], then everything to the end, with
    DOTALL), group 1: the text from the first [<score-partwise] on, provided
    a [>] follows it somewhere (if none follows the first occurrence, none
    follows a later one). *)
Definition search_score_partwise (text : string) : option string :=
  match PyStr.find "<score-partwise" text with
  | None => None
  | Some i =>
      let rest := PyStr.drop i text in
      if PyStr.contains ">" (PyStr.drop (String.length "<score-partwise") rest)
      then Some rest
      else None
  end.

Fixpoint repeat_str (s : string) (n : nat) : string :=
  match n with
  | O => EmptyString
  | S k => s ++ repeat_str s k
  end.

(** Lines 142-195. *)
Definition _try_extract_partial_musicxml (text : string) : option string :=
  if negb (PyStr.contains "<score-partwise" text) then None
  else if negb (PyStr.contains "</part-list>" text) then None
  else if negb (PyStr.contains "</measure>" text) then None
  else
    match search_score_partwise text with
    | None => None
    | Some partial =>
        match PyStr.rfind "</measure>" partial with
        | None => None
        | Some last_measure_end =>
            let partial :=
              PyStr.take (last_measure_end + String.length "</measure>") partial in
            let open_parts :=
              (Z.of_nat (PyStr.count "<part " partial)
               + Z.of_nat (PyStr.count "<part>" partial)
               - Z.of_nat (PyStr.count "</part>" partial))%Z in
            let partial :=
              partial ++ repeat_str (PyStr.nl ++ "  </part>") (Z.to_nat open_parts) in
            let partial := partial ++ PyStr.nl ++ "</score-partwise>" in
            let partial :=
              if PyStr.startswith "<?xml" partial then partial
              else xml_declaration ++ partial in
            match ET_fromstring partial with
            | Some _ => Some partial
            | None => None
            end
        end
    end.

(** What [chat_stream] yields inside its loop. *)
Inductive chunk : Type :=
| Partial (musicxml : string) (measures : nat)
| Text (content : string).

Record stream_state : Type := StreamState {
  accumulated_text : string;
  last_rendered_measures : nat
}.

Definition stream_start : stream_state := StreamState "" 0.

(** One turn of the loop [for text in stream.text_stream] (lines 244-264):
    the new state and what is yielded. *)
Definition on_text (st : stream_state) (text : string) : stream_state * list chunk :=
  let accumulated_text := accumulated_text st ++ text in
  let partial_xml := _try_extract_partial_musicxml accumulated_text in
  if truthy partial_xml
  then
    let partial_xml := match partial_xml with Some p => p | None => "" end in
    let measure_count := PyStr.count "</measure>" partial_xml in
    if (last_rendered_measures st <? measure_count)%nat
    then (StreamState accumulated_text measure_count,
          [Partial partial_xml measure_count])
    else (StreamState accumulated_text (last_rendered_measures st), [])
  else (StreamState accumulated_text (last_rendered_measures st), [Text text]).

(** The loop over the text increments of one session. *)
Fixpoint stream_loop (st : stream_state) (texts : list string)
  : stream_state * list chunk :=
  match texts with
  | [] => (st, [])
  | text :: texts' =>
      let (st', out) := on_text st text in
      let (st'', out') := stream_loop st' texts' in
      (st'', (out ++ out')%list)
  end.

(** What [chat_stream] yields from its loop, for the text increments
    [texts] of the answer.  The [complete] chunk that the generator yields
    behind the loop (lines 272-285) follows in [chat_stream_generator]. *)
Definition chat_stream (texts : list string) : list chunk :=
  snd (stream_loop stream_start texts).

End Stream.

(** ** Concrete documents, read with the reference parser *)

Module Scenario.

Definition validate : string -> bool * option string :=
  validate_musicxml Xml.fromstring.
Definition reconstruct : string -> option string :=
  _try_extract_partial_musicxml Xml.ET_fromstring.
Definition merge : string -> string -> option Z -> py_result string :=
  merge_musicxml Xml.fromstring Xml.tostring.
Definition excerpt : string -> Z -> Z -> py_result string :=
  extract_measures Xml.fromstring Xml.tostring.
Definition create : string -> string -> option (list part_def) -> Z * Z -> Z -> Z -> Z
                    -> py_result string :=
  create_empty_score Xml.tostring.

Definition attr (k v : string) : string := " " ++ k ++ "=" ++ q ++ v ++ q.

(** The buffer of the streaming scenario: one complete measure, then the
    open tag of a second one. *)
Definition growing_buffer : string :=
  "<score-partwise><part-list>...</part-list><part" ++ attr "id" "P1" ++ ">"
  ++ "<measure" ++ attr "number" "1" ++ ">...</measure>"
  ++ "<measure" ++ attr "number" "2" ++ ">".

Definition growing_snapshot : string :=
  xml_declaration
  ++ "<score-partwise><part-list>...</part-list><part" ++ attr "id" "P1" ++ ">"
  ++ "<measure" ++ attr "number" "1" ++ ">...</measure>"
  ++ PyStr.nl ++ "  </part>" ++ PyStr.nl ++ "</score-partwise>".

(** The same scenario with a real part list and a real note, preceded by
    the prose and the code fence of a chat answer. *)
Definition chat_buffer : string :=
  "Here is a short melody." ++ PyStr.nl ++ "```musicxml" ++ PyStr.nl
  ++ "<score-partwise" ++ attr "version" "4.0" ++ ">"
  ++ "<part-list><score-part" ++ attr "id" "P1" ++ "><part-name>Piano</part-name>"
  ++ "</score-part></part-list>"
  ++ "<part" ++ attr "id" "P1" ++ ">"
  ++ "<measure" ++ attr "number" "1" ++ "><note><pitch><step>C</step><octave>4</octave>"
  ++ "</pitch><duration>4</duration><type>whole</type></note></measure>"
  ++ "<measure" ++ attr "number" "2" ++ "><note><pi".

(** A buffer whose snapshot parses but has no part. *)
Definition partless_buffer : string :=
  "<score-partwise><part-list></part-list><measure></measure>".

Definition partless_snapshot : string :=
  xml_declaration ++ "<score-partwise><part-list></part-list><measure></measure>"
  ++ PyStr.nl ++ "</score-partwise>".

Definition measure (number content : string) : string :=
  "<measure" ++ attr "number" number ++ ">" ++ content ++ "</measure>".

Definition score (body : string) : string :=
  "<score-partwise><part-list><score-part" ++ attr "id" "P1" ++ "/></part-list>"
  ++ body ++ "</score-partwise>".

Definition part (id body : string) : string :=
  "<part" ++ attr "id" id ++ ">" ++ body ++ "</part>".

(** A base of two measures and an addition of three. *)
Definition base_2 : string :=
  score (part "P1" (measure "1" "<x/>" ++ measure "2" "<y/>")).
Definition addition_3 : string :=
  score (part "P1" (measure "1" "<a/>" ++ measure "2" "<b/>" ++ measure "3" "<c/>")).

(** A document without part list: it parses, and fails validation. *)
Definition no_part_list : string :=
  "<score-partwise>" ++ part "P1" (measure "1" "<x/>") ++ "</score-partwise>".

(** A document with a part list and no part. *)
Definition no_part : string :=
  "<score-partwise><part-list/></score-partwise>".

(** Two parts without measures, the second without id. *)
Definition empty_parts : string :=
  score (part "P1" (measure "1" "") ++ part "P2" "" ++ "<part/>").

Definition unclosed : string := "<score-partwise><part-list>".

(** The tree of [base_2] after [addition_3] is spliced in at measure 2,
    as the parts' measures (number, content tag). *)
Definition measure_summary (root : element) : list (string * list (option string * list string)) :=
  map (fun p => (get_default p "id" "",
                 map (fun m => (get m "number", map tag (children m)))
                     (findall "measure" p)))
      (findall "part" root).

End Scenario.

(** ** Vocabulary of the statements *)

(** The two root tags the validator accepts. *)
Definition accepted_root (root : element) : bool :=
  String.eqb (Etree.tag root) "score-partwise" || String.eqb (Etree.tag root) "score-timewise".

Definition no_measure (part : element) : bool :=
  match Etree.findall "measure" part with [] => true | _ :: _ => false end.

Definition part_message (part : element) : string :=
  "Part '" ++ match Etree.get part "id" with Some i => i | None => "unknown" end
  ++ "' has no measures".

Definition returns {A : Type} (r : py_result A) : bool :=
  match r with Returns _ => true | Raises _ => false end.

(** Every measure of every part carries a number that [int] reads. *)
Definition integer_numbers (root : element) : bool :=
  forallb (fun part => forallb (fun m => returns (measure_number m))
                               (Etree.findall "measure" part))
          (Etree.findall "part" root).

(** The measure counts of the partial snapshots yielded, in order. *)
Fixpoint partial_counts (out : list chunk) : list nat :=
  match out with
  | [] => []
  | Partial _ n :: out' => n :: partial_counts out'
  | Text _ :: out' => partial_counts out'
  end.

Definition is_partial (c : chunk) : bool :=
  match c with Partial _ _ => true | Text _ => false end.

(** What is left of a part when every measure is dropped. *)
Definition without_measures (c : element) : element :=
  if Etree.has_tag "part" c
  then Etree.set_children c
         (filter (fun m => negb (Etree.has_tag "measure" m)) (Etree.children c))
  else c.

(** ** Vocabulary of the merge *)

(** The id under which [merge_musicxml] looks a part of the addition up in
    the base: [str(None)] when the part has no id. *)
Definition part_id (new_part : element) : string :=
  match Etree.get new_part "id" with Some i => i | None => "None" end.

(** The measures [ms], numbered [first], [first + 1], ... in order. *)
Definition numbered_from (first : Z) (ms : list element) : list element :=
  map (fun im => Etree.set (snd im) "number" (PyStr.of_int (first + fst im)))
      (Etree.enumerate ms).

(** The splice as the specification words it: the base measures before
    position [at_measure] (counted from 1) stay as they are; the measures
    of the addition follow, numbered from [at_measure]; the base measures
    from position [at_measure] on come last, numbered upward by the length
    of the addition. *)
Definition spliced (at_measure : Z) (addition base : list element) : list element :=
  (firstn (Z.to_nat (at_measure - 1)) base
   ++ numbered_from at_measure addition
   ++ numbered_from (at_measure + Z.of_nat (List.length addition))
                    (skipn (Z.to_nat (at_measure - 1)) base))%list.

(** A child of the base root after the merge: a part whose id is the id
    of a part of the addition receives the splice. *)
Definition merged_part (at_measure : Z) (new_parts : list element) (c : element) : element :=
  match List.find (fun np => is_part_with_id (part_id np) c) new_parts with
  | Some np =>
      Etree.set_children c
        (spliced at_measure (Etree.findall "measure" np) (Etree.children c))
  | None => c
  end.

(** The proper descendants of an element, in document order. *)
Fixpoint descendants (e : element) : list element :=
  match e with
  | Element _ _ _ cs _ => flat_map (fun c => c :: descendants c) cs
  end.

(** Partwise layout: parts occur as children of the root only. *)
Definition parts_at_top (root : element) : bool :=
  forallb (fun c => negb (existsb (Etree.has_tag "part") (descendants c)))
          (Etree.children root).

Fixpoint distinct (l : list string) : bool :=
  match l with
  | [] => true
  | x :: l' => negb (existsb (String.eqb x) l') && distinct l'
  end.

(** The ids of the parts among [cs]. *)
Definition part_ids (cs : list element) : list string :=
  flat_map (fun c => if Etree.has_tag "part" c
                     then match Etree.get c "id" with Some i => [i] | None => [] end
                     else []) cs.

(** The part holds measures only, and [at_measure] is a position among
    them or the one after the last. *)
Definition splice_position (at_measure : Z) (base_part : element) : bool :=
  forallb (Etree.has_tag "measure") (Etree.children base_part)
  && (1 <=? at_measure)%Z
  && (at_measure <=? Z.of_nat (List.length (Etree.children base_part)) + 1)%Z.

(** What the splice theorem asks of the two documents: both are laid out
    partwise, ids identify parts, the ids of the addition hold no single
    quote (they are pasted into a path expression), and [at_measure] is a
    splice position of every base part that receives measures. *)
Definition mergeable (at_measure : Z) (base_root new_root : element) : bool :=
  let new_parts := Etree.findall "part" new_root in
  parts_at_top base_root && parts_at_top new_root
  && distinct (part_ids (Etree.children base_root))
  && distinct (map part_id new_parts)
  && forallb (fun np => negb (PyStr.contains PyStr.squote (part_id np))) new_parts
  && forallb (fun c => if existsb (fun np => is_part_with_id (part_id np) c) new_parts
                       then splice_position at_measure c else true)
             (Etree.children base_root).

(** ** Vocabulary of the round trip through the writer and the reader *)

(** [x or None]: an empty text reads back as no text. *)
Definition norm_text (x : option string) : option string :=
  match x with
  | Some EmptyString => None
  | _ => x
  end.

(** What a tree keeps when the white space around child elements is set
    aside: tags, attributes, the nesting of elements, and the text of the
    elements without children. *)
Fixpoint skeleton (e : element) : element :=
  match e with
  | Element t a x cs _ =>
      Element t a (match cs with [] => norm_text x | _ :: _ => None end)
              (map skeleton cs) None
  end.

Definition writable_text (x : option string) : bool :=
  match x with Some s => Xml.xml_compatible s | None => true end.

Definition writable_attrs (a : list (string * string)) : bool :=
  forallb (fun kv => Xml.is_name (fst kv) && negb (String.eqb (fst kv) "xmlns")
                     && Xml.xml_compatible (snd kv)) a
  && distinct (map fst a).

(** A tree the writer turns into text of the fragment the reader reads:
    tags and attribute names are names, no attribute is given twice or
    declares a name space, and all character data is XML compatible. *)
Fixpoint well_formed (e : element) : bool :=
  match e with
  | Element t a x cs l =>
      Xml.is_name t && writable_attrs a && writable_text x
      && forallb well_formed cs && writable_text l
  end.

(** ** Vocabulary of the further properties *)

(** The number of the measure reads as an integer of the range. *)
Definition in_range (start end_ : Z) (m : element) : bool :=
  match measure_number m with
  | Returns n => (start <=? n)%Z && (n <=? end_)%Z
  | Raises _ => false
  end.

(** A part cut down to the measures of the range, numbered from 1; what
    is not a measure stays. *)
Definition excerpt_of (start end_ : Z) (part : element) : element :=
  Etree.set_children part
    (renumber 0 (filter (fun c => negb (Etree.has_tag "measure" c) || in_range start end_ c)
                        (Etree.children part))).

(** A child of the base root after a merge without position: a part
    whose id is the id of a part of the addition receives its measures
    behind its own children, numbered on from the count of its measures. *)
Definition appended_part (new_parts : list element) (c : element) : element :=
  match List.find (fun np => is_part_with_id (part_id np) c) new_parts with
  | Some np =>
      Etree.set_children c
        (Etree.children c
         ++ numbered_from (Z.of_nat (List.length (Etree.findall "measure" c)) + 1)
                          (Etree.findall "measure" np))%list
  | None => c
  end.

(** Both documents are laid out partwise, ids identify parts, and the
    ids of the addition hold no single quote. *)
Definition appendable (base_root new_root : element) : bool :=
  let new_parts := Etree.findall "part" new_root in
  parts_at_top base_root && parts_at_top new_root
  && distinct (part_ids (Etree.children base_root))
  && distinct (map part_id new_parts)
  && forallb (fun np => negb (PyStr.contains PyStr.squote (part_id np))) new_parts.

(** No part of the addition has a counterpart anywhere in the base. *)
Definition no_counterpart (base_root new_root : element) : bool :=
  forallb (fun np => negb (PyStr.contains PyStr.squote (part_id np))
                     && negb (existsb (is_part_with_id (part_id np)) (descendants base_root)))
          (Etree.findall "part" new_root).

(** The stack of open elements once the character data [buf] has been
    handed to the innermost one. *)
Definition flushed (buf : string) (stack : list Xml.frame) : list Xml.frame :=
  match stack with
  | [] => []
  | fr :: rest => Xml.flush buf fr :: rest
  end.

(** What the writer puts out for the child [c] of an element written with
    the formatting flag [fmt] at depth [level]. *)
Definition child_text (fmt : bool) (level : nat) (c : element) : string :=
  (if fmt then Xml.indent (S level) else EmptyString)
  ++ Xml.write fmt (S level) c
  ++ Xml.opt_text Xml.escape_text_char (Etree.tail c)
  ++ (if fmt then PyStr.nl else EmptyString).

(** The parts [create_empty_score] builds, from the index [i] on, when it
    refuses none of the ids. *)
Fixpoint part_trees (time_sig : Z * Z) (key_fifths tempo measures : Z) (i : nat)
  (parts : list part_def) : list element :=
  match parts with
  | [] => []
  | pd :: parts' =>
      let clef := get_clef_info (match pd_clef pd with Some c => c | None => "G" end) in
      Etree.new "part" [("id", pd_id pd)]
        (map (measure_of i (fst clef) (snd clef) time_sig key_fifths tempo)
             (range1 measures))
      :: part_trees time_sig key_fifths tempo measures (S i) parts'
  end.

(** The part definitions in force: the single piano part when none is
    given. *)
Definition parts_or_default (parts : option (list part_def)) : list part_def :=
  match parts with None => default_parts | Some ps => ps end.

(** What the validator says of a score built from these part definitions
    with this many measures. *)
Definition built_verdict (parts : list part_def) (measures : Z) : bool * option string :=
  match parts with
  | [] => (false, Some "No <part> elements found")
  | pd :: _ =>
      if (measures <? 1)%Z
      then (false, Some ("Part '" ++ pd_id pd ++ "' has no measures"))
      else (true, None)
  end.

(** The strings the builder hands to lxml are all XML compatible. *)
Definition part_strings_ok (pd : part_def) : bool :=
  Xml.xml_compatible (pd_id pd) && Xml.xml_compatible (pd_name pd)
  && (if truthy (pd_abbreviation pd)
      then Xml.xml_compatible (match pd_abbreviation pd with Some a => a | None => "" end)
      else true).

Definition strings_ok (title composer : string) (parts : list part_def) : bool :=
  Xml.xml_compatible title && Xml.xml_compatible composer && forallb part_strings_ok parts.

(** The layout of a built score, part by part from the index [i] on: the
    id of the part and, for each measure, its number and the tags of its
    children.  The first measure of a part opens with the attributes, in
    the first part followed by the tempo direction; every measure holds
    one rest for each beat of the time signature. *)
Fixpoint built_summary (time_sig : Z * Z) (measures : Z) (i : nat) (parts : list part_def)
  : list (string * list (option string * list string)) :=
  match parts with
  | [] => []
  | pd :: parts' =>
      (pd_id pd,
       map (fun m =>
              (Some (PyStr.of_int m),
               ((if (m =? 1)%Z
                 then "attributes" :: (if (i =? 0)%nat then ["direction"] else [])
                 else [])
                ++ repeat "note" (Z.to_nat (fst time_sig)))%list))
           (range1 measures))
      :: built_summary time_sig measures (S i) parts'
  end.

(** The exception lxml raises when handed a string XML cannot carry. *)
Definition not_compatible : py_exception :=
  Exn ValueError
    "All strings must be XML compatible: Unicode or ASCII, no NULL bytes or control characters".

(** The structural checks of the validator, as one test. *)
Definition valid_tree (root : element) : bool :=
  (String.eqb (Etree.tag root) "score-partwise" || String.eqb (Etree.tag root) "score-timewise")
  && negb (List.length (Etree.findall "part-list" root) =? 0)%nat
  && negb (List.length (Etree.findall "part" root) =? 0)%nat
  && forallb (fun part => negb (List.length (Etree.findall "measure" part) =? 0)%nat)
             (Etree.findall "part" root).

(** The element keeps its tag and, for every tag, loses no child. *)
Definition grows (e e' : element) : Prop :=
  Etree.tag e' = Etree.tag e
  /\ forall t, List.length (Etree.findall t e) <= List.length (Etree.findall t e').

(** No part has more than [m] measures in the range. *)
Definition at_most (start end_ m : Z) (root : element) : bool :=
  forallb (fun part =>
             (Z.of_nat (List.length (filter (in_range start end_)
                                            (Etree.findall "measure" part))) <=? m)%Z)
          (Etree.findall "part" root).

(** A document of two measures, laid out as the writer lays it out. *)
Definition laid_out_2 : string :=
  "<score-partwise>" ++ PyStr.nl
  ++ "  <part-list>" ++ PyStr.nl
  ++ "    <score-part" ++ Scenario.attr "id" "P1" ++ "/>" ++ PyStr.nl
  ++ "  </part-list>" ++ PyStr.nl
  ++ "  <part" ++ Scenario.attr "id" "P1" ++ ">" ++ PyStr.nl
  ++ "    <measure" ++ Scenario.attr "number" "7" ++ ">" ++ PyStr.nl
  ++ "      <x/>" ++ PyStr.nl
  ++ "    </measure>" ++ PyStr.nl
  ++ "    <measure" ++ Scenario.attr "number" "8" ++ ">" ++ PyStr.nl
  ++ "      <y/>" ++ PyStr.nl
  ++ "    </measure>" ++ PyStr.nl
  ++ "  </part>" ++ PyStr.nl
  ++ "</score-partwise>" ++ PyStr.nl.

(** The base of two measures with a child that is no measure in front of
    the measures of its part. *)
Definition base_with_lead : string :=
  Scenario.score
    (Scenario.part "P1"
       ("<print/>" ++ Scenario.measure "1" "<x/>" ++ Scenario.measure "2" "<y/>")).

(** A document re-read and summarised, when a function has returned
    one. *)
Definition summary_of (r : py_result string)
  : option (list (string * list (option string * list string))) :=
  match r with
  | Returns doc => option_map Scenario.measure_summary (Xml.ET_fromstring doc)
  | Raises _ => None
  end.

(** Python converts between [int] and [str] up to this many decimal
    digits, and raises a [ValueError] beyond. *)
Definition max_str_digits : Z := 4300.

(** [str(z)] returns. *)
Definition writes (z : Z) : bool := (Z.abs z <? 10 ^ max_str_digits)%Z.

(** The string holds ASCII characters only. *)
Definition ascii_text (s : string) : bool :=
  Xml.all_chars (fun c => (nat_of_ascii c <? 128)%nat) s.

(** The number of the measure, when there is one, is an ASCII string
    within the digit limit: on such a string [PyStr.to_int] is [int]. *)
Definition plain_number (m : element) : bool :=
  match Etree.get m "number" with
  | Some s => ascii_text s && (Z.of_nat (String.length s) <=? max_str_digits)%Z
  | None => true
  end.

Definition plain_numbers (root : element) : bool :=
  forallb (fun part => forallb plain_number (Etree.findall "measure" part))
          (Etree.findall "part" root).

(** The strings the builder stores are ASCII strings: on such a string
    [Xml.xml_compatible] is the test of lxml. *)
Definition ascii_part (pd : part_def) : bool :=
  ascii_text (pd_id pd) && ascii_text (pd_name pd)
  && match pd_abbreviation pd with Some a => ascii_text a | None => true end.

Definition ascii_strings (title composer : string) (parts : list part_def) : bool :=
  ascii_text title && ascii_text composer && forallb ascii_part parts.

(** Every number the builder writes with [str] is within the digit
    limit. *)
Definition numbers_written (parts : list part_def) (time_sig : Z * Z)
  (key_fifths tempo measures : Z) : bool :=
  writes (fst time_sig) && writes (snd time_sig) && writes key_fifths && writes tempo
  && writes measures
  && forallb (fun pd => writes (match pd_midi_program pd with Some p => p | None => 0 end + 1))
             parts.

(** No part of the addition has a single quote in the id it is looked up
    under. *)
Definition quote_free_ids (new_root : element) : bool :=
  forallb (fun np => negb (PyStr.contains PyStr.squote (part_id np)))
          (Etree.findall "part" new_root).

(** ** [server.py]: the endpoint [/score/new] (lines 82-99, 288-320) *)

Record InstrumentDef : Type := {
  inst_id : string;
  inst_name : string;
  inst_abbreviation : string;
  inst_midi_program : Z;
  inst_clef : string
}.

Record NewScoreRequest : Type := {
  ns_title : string;
  ns_composer : string;
  ns_instruments : list InstrumentDef;
  ns_time_beats : Z;
  ns_time_beat_type : Z;
  ns_key_fifths : Z;
  ns_key_mode : string;
  ns_tempo : Z;
  ns_measures : Z
}.

(** Lines 295-306: the instruments become part definitions with ids of
    the endpoint's own; an empty list leaves [parts] at [None]. *)
Definition instruments_to_parts (instruments : list InstrumentDef) : option (list part_def) :=
  match instruments with
  | [] => None
  | _ :: _ =>
      Some (map (fun ii => PartDef ("P" ++ PyStr.of_int (fst ii + 1))
                                   (inst_name (snd ii))
                                   (Some (inst_abbreviation (snd ii)))
                                   (Some (inst_clef (snd ii)))
                                   (Some (inst_midi_program (snd ii))))
                (Etree.enumerate instruments))
  end.

Section Server.

Variable tostring : element -> string.

(** The body of the endpoint: the value returned is the [musicxml] field
    of the response; an exception becomes the [HTTPException] of status
    500 whose detail is the text of the exception. *)
Definition new_score (request : NewScoreRequest) : py_result string :=
  let parts := instruments_to_parts (ns_instruments request) in
  match create_empty_score tostring (ns_title request) (ns_composer request) parts
          (ns_time_beats request, ns_time_beat_type request)
          (ns_key_fifths request) (ns_tempo request) (ns_measures request) with
  | Returns xml => Returns xml
  | Raises e => Raises (Exn OtherException (exn_str e))
  end.

End Server.

(** A request with two instruments that carry the same id, and no measure. *)
Definition duo_request : NewScoreRequest :=
  {| ns_title := "Duo"; ns_composer := "";
     ns_instruments := [ {| inst_id := "flute"; inst_name := "Flute"; inst_abbreviation := "Fl.";
                            inst_midi_program := 73; inst_clef := "G" |};
                         {| inst_id := "flute"; inst_name := "Cello"; inst_abbreviation := "";
                            inst_midi_program := 42; inst_clef := "F" |} ];
     ns_time_beats := 3; ns_time_beat_type := 4; ns_key_fifths := 0; ns_key_mode := "major";
     ns_tempo := 90; ns_measures := 0 |}.

(** ** [engraving_service.py]: [quick_fix] (lines 154-172) *)

Module PyText.

(** [str.strip()] removes the white space of Unicode.  On UTF-8 bytes a
    white-space character is one byte (U+0009-U+000D, U+001C-U+0020), two
    (U+0085, U+00A0) or three (U+1680, U+2000-U+200A, U+2028, U+2029,
    U+202F, U+205F, U+3000). *)
Definition space1 (c : ascii) : bool :=
  let n := nat_of_ascii c in
  ((9 <=? n) && (n <=? 13) || (28 <=? n) && (n <=? 32))%nat.

Definition space2 (c1 c2 : ascii) : bool :=
  let n1 := nat_of_ascii c1 in
  let n2 := nat_of_ascii c2 in
  ((n1 =? 194) && ((n2 =? 133) || (n2 =? 160)))%nat.

Definition space3 (c1 c2 c3 : ascii) : bool :=
  let n1 := nat_of_ascii c1 in
  let n2 := nat_of_ascii c2 in
  let n3 := nat_of_ascii c3 in
  ((n1 =? 225) && (n2 =? 154) && (n3 =? 128)
   || (n1 =? 226) && (n2 =? 128)
      && ((128 <=? n3) && (n3 <=? 138) || (n3 =? 168) || (n3 =? 169) || (n3 =? 175))
   || (n1 =? 226) && (n2 =? 129) && (n3 =? 159)
   || (n1 =? 227) && (n2 =? 128) && (n3 =? 128))%nat.

Fixpoint lstrip (s : string) : string :=
  match s with
  | EmptyString => EmptyString
  | String c1 s1 =>
      if space1 c1 then lstrip s1
      else match s1 with
           | EmptyString => s
           | String c2 s2 =>
               if space2 c1 c2 then lstrip s2
               else match s2 with
                    | EmptyString => s
                    | String c3 s3 => if space3 c1 c2 c3 then lstrip s3 else s
                    end
           end
  end.

(** The string holds white space only. *)
Fixpoint all_space (s : string) : bool :=
  match s with
  | EmptyString => true
  | String c1 s1 =>
      if space1 c1 then all_space s1
      else match s1 with
           | EmptyString => false
           | String c2 s2 =>
               if space2 c1 c2 then all_space s2
               else match s2 with
                    | EmptyString => false
                    | String c3 s3 => if space3 c1 c2 c3 then all_space s3 else false
                    end
           end
  end.

Fixpoint rstrip (s : string) : string :=
  match s with
  | EmptyString => EmptyString
  | String c s' => if all_space s then EmptyString else String c (rstrip s')
  end.

Definition strip (s : string) : string := rstrip (lstrip s).

(** [s.replace(old, new, 1)]: the first occurrence of [old], from the
    left, is replaced. *)
Fixpoint replace_first (old new s : string) : string :=
  if String.prefix old s then new ++ PyStr.drop (String.length old) s
  else match s with
       | EmptyString => EmptyString
       | String c s' => String c (replace_first old new s')
       end.

End PyText.

Definition quick_fix (musicxml : string) : string :=
  let musicxml :=
    if negb (PyStr.startswith "<?xml" (PyText.strip musicxml))
    then "<?xml version=" ++ q ++ "1.0" ++ q ++ " encoding=" ++ q ++ "UTF-8" ++ q ++ "?>"
         ++ PyStr.nl ++ musicxml
    else musicxml in
  if negb (PyStr.contains "<!DOCTYPE" musicxml) && PyStr.contains "<score-partwise" musicxml
  then PyText.replace_first "<score-partwise"
         ("<!DOCTYPE score-partwise PUBLIC " ++ q
          ++ "-//Recordare//DTD MusicXML 4.0 Partwise//EN" ++ q ++ " " ++ q
          ++ "http://www.musicxml.org/dtds/partwise.dtd" ++ q ++ ">" ++ PyStr.nl
          ++ "<score-partwise")
         musicxml
  else musicxml.

(** The document opens, after white space at most, with an XML
    declaration, and a root tag [score-partwise] comes with a DOCTYPE. *)
Definition fixed (musicxml : string) : bool :=
  PyStr.startswith "<?xml" (PyText.strip musicxml)
  && (negb (PyStr.contains "<score-partwise" musicxml) || PyStr.contains "<!DOCTYPE" musicxml).

(** Every character is a printable ASCII character other than the
    space. *)
Fixpoint plain (p : string) : bool :=
  match p with
  | EmptyString => true
  | String a p' => (33 <=? nat_of_ascii a)%nat && (nat_of_ascii a <=? 127)%nat && plain p'
  end.

(** ** [claude_service.py]: [_extract_musicxml] (lines 125-140) *)

Definition fence : string := "```".

(** [re.search(r'```lang\s*(.*?)\s*```', text, re.DOTALL)] followed by
    [match.group(1).strip()].  The match starts at the first occurrence of
    the opening literal (if no fence follows the first occurrence, none
    follows a later one, which is itself a fence); the lazy group ends
    before the first fence behind the literal; the white space that the
    two [\s*] set aside is white space that [strip] would remove. *)
Definition search_fenced (lang text : string) : option string :=
  match PyStr.find (fence ++ lang) text with
  | None => None
  | Some i =>
      let rest := PyStr.drop (i + String.length (fence ++ lang)) text in
      match PyStr.find fence rest with
      | None => None
      | Some j => Some (PyText.strip (PyStr.take j rest))
      end
  end.

Definition _extract_musicxml (text : string) : option string :=
  match search_fenced "musicxml" text with
  | Some xml => Some xml
  | None =>
      match search_fenced "xml" text with
      | Some xml_content =>
          if PyStr.contains "<score-partwise" xml_content
             || PyStr.contains "<score-timewise" xml_content
          then Some xml_content
          else None
      | None => None
      end
  end.

(** The [musicxml] field of the result of [chat] (lines 114-122) and of
    the [complete] chunk that ends [chat_stream] (lines 272-285): an empty
    extract counts as none. *)
Definition final_musicxml (text : string) : option string :=
  let final_xml := _extract_musicxml text in
  if truthy final_xml then final_xml else None.

(** What the generator [chat_stream] yields (lines 235-285): a chunk of
    its loop, or the chunk of type [complete] with its [musicxml] and
    [text]. *)
Inductive stream_event : Type :=
| Yielded (c : chunk)
| Complete (musicxml : option string) (text : string).

Section Generator.

Variable ET_fromstring : string -> option element.

(** The whole generator on the text increments [texts] of the answer: the
    chunks of the loop, then the [complete] chunk made from the text
    accumulated. *)
Definition chat_stream_generator (texts : list string) : list stream_event :=
  let accumulated_text :=
    accumulated_text (fst (stream_loop ET_fromstring stream_start texts)) in
  (map Yielded (chat_stream ET_fromstring texts)
   ++ [Complete (final_musicxml accumulated_text) accumulated_text])%list.

End Generator.

(** A chat answer whose score stands in a closed fence. *)
Definition fenced_answer : string :=
  "Here is the score." ++ PyStr.nl ++ fence ++ "musicxml" ++ PyStr.nl
  ++ "<score-partwise/>" ++ PyStr.nl ++ fence ++ PyStr.nl ++ "Enjoy.".

(** ** [musicxml_utils.py]: [parse_score_info] (lines 50-107) *)

(** The dictionary [info]; a part is its [id] and its [name]. *)
Record score_info : Type := ScoreInfo {
  info_title : option string;
  info_composer : option string;
  info_parts : list (option string * option string);
  info_measures : nat;
  info_key : option string;
  info_time_signature : option string
}.

(** What the function returns: [info], or the dictionary with the single
    key [error]. *)
Inductive info_result : Type :=
| Info (info : score_info)
| InfoError (error : string).

(** [e.find('.//t')] and [e.findall('.//t')], with or without a predicate
    on an attribute: the search runs through the proper descendants in
    document order. *)
Definition find_path (p : element -> bool) (e : element) : option element :=
  List.find p (descendants e).
Definition findall_path (p : element -> bool) (e : element) : list element :=
  filter p (descendants e).

Definition is_composer (e : element) : bool :=
  Etree.has_tag "creator" e
  && match Etree.get e "type" with Some v => String.eqb v "composer" | None => false end.

(** [int(e.text)]. *)
Definition int_of_text (x : option string) : py_result Z :=
  match x with
  | None => Raises (Exn TypeError
      "int() argument must be a string, a bytes-like object or a real number, not 'NoneType'")
  | Some s =>
      match PyStr.to_int s with
      | Some n => Returns n
      | None => Raises (Exn ValueError
                          ("invalid literal for int() with base 10: '" ++ s ++ "'"))
      end
  end.

(** [e.text] inside an f-string. *)
Definition str_of_text (x : option string) : string :=
  match x with Some s => s | None => "None" end.

(** The body of the [try] after the parse (lines 62-103). *)
Definition score_info_of (root : element) : py_result score_info :=
  let title :=
    match find_path (Etree.has_tag "work-title") root with
    | Some work_title => Etree.text work_title
    | None => None
    end in
  let composer :=
    match find_path is_composer root with
    | Some creator => Etree.text creator
    | None => None
    end in
  let parts :=
    map (fun score_part =>
           (Etree.get score_part "id",
            match Etree.find "part-name" score_part with
            | Some part_name => Etree.text part_name
            | None => Some "Unnamed"
            end))
        (findall_path (Etree.has_tag "score-part") root) in
  let measures :=
    match find_path (Etree.has_tag "part") root with
    | Some first_part => List.length (Etree.findall "measure" first_part)
    | None => 0
    end in
  match find_path (Etree.has_tag "measure") root with
  | Some first_measure =>
      key <- match find_path (Etree.has_tag "fifths") first_measure with
             | Some fifths =>
                 n <- int_of_text (Etree.text fifths) ;;
                 k <- fifths_to_key n "major" ;;
                 Returns (Some k)
             | None => Returns None
             end ;;
      let time_signature :=
        match find_path (Etree.has_tag "time") first_measure with
        | Some time_elem =>
            match Etree.find "beats" time_elem, Etree.find "beat-type" time_elem with
            | Some beats, Some beat_type =>
                Some (str_of_text (Etree.text beats) ++ "/"
                      ++ str_of_text (Etree.text beat_type))
            | _, _ => None
            end
        | None => None
        end in
      Returns (ScoreInfo title composer parts measures key time_signature)
  | None => Returns (ScoreInfo title composer parts measures None None)
  end.

Section ScoreInfo.

Variable fromstring : string -> py_result element.

Definition parse_score_info (xml_string : string) : info_result :=
  match (root <- fromstring xml_string ;; score_info_of root) with
  | Returns info => Info info
  | Raises e => InfoError (exn_str e)
  end.

End ScoreInfo.

Module ScenarioInfo.

Definition info : string -> info_result := parse_score_info Xml.fromstring.

(** A score in C-flat major: seven flats. *)
Definition seven_flats : string :=
  Scenario.score
    (Scenario.part "P1"
       (Scenario.measure "1"
          "<attributes><key><fifths>-7</fifths></key></attributes><note/>")).

(** A valid score whose part list holds a stray, empty [part]. *)
Definition stray_part : string :=
  "<score-partwise><part-list><part/></part-list>"
  ++ Scenario.part "P1" (Scenario.measure "1" "<x/>") ++ "</score-partwise>".

End ScenarioInfo.

(** The value of the digits [d] read after the value [acc]. *)
Fixpoint uint_val (d : Decimal.uint) (acc : Z) : Z :=
  match d with
  | Decimal.Nil => acc
  | Decimal.D0 l => uint_val l (10 * acc + 0)
  | Decimal.D1 l => uint_val l (10 * acc + 1)
  | Decimal.D2 l => uint_val l (10 * acc + 2)
  | Decimal.D3 l => uint_val l (10 * acc + 3)
  | Decimal.D4 l => uint_val l (10 * acc + 4)
  | Decimal.D5 l => uint_val l (10 * acc + 5)
  | Decimal.D6 l => uint_val l (10 * acc + 6)
  | Decimal.D7 l => uint_val l (10 * acc + 7)
  | Decimal.D8 l => uint_val l (10 * acc + 8)
  | Decimal.D9 l => uint_val l (10 * acc + 9)
  end%Z.

(** No element of the tree has the empty string as its text: a text is
    absent or holds a character. *)
Definition empty_text (x : option string) : bool :=
  match x with Some EmptyString => true | _ => false end.

(** The test holds of the element and of everything below it. *)
Fixpoint every (P : element -> bool) (e : element) : bool :=
  match e with
  | Element t a x cs l => P (Element t a x cs l) && forallb (every P) cs
  end.

Definition normal : element -> bool :=
  every (fun e => negb (empty_text (Etree.text e))).

Definition normal_frame (fr : Xml.frame) : bool :=
  negb (empty_text (Xml.f_text fr)) && forallb normal (Xml.f_rchildren fr).

Definition normal_state (st : Xml.pstate) : bool :=
  forallb normal_frame (Xml.st_stack st)
  && match Xml.st_root st with Some r => normal r | None => true end.

(** [score_info_of] with the texts read through [rd]. *)
Definition score_info_with (rd : element -> option string) (root : element)
  : py_result score_info :=
  let title :=
    match find_path (Etree.has_tag "work-title") root with
    | Some work_title => rd work_title
    | None => None
    end in
  let composer :=
    match find_path is_composer root with
    | Some creator => rd creator
    | None => None
    end in
  let parts :=
    map (fun score_part =>
           (Etree.get score_part "id",
            match Etree.find "part-name" score_part with
            | Some part_name => rd part_name
            | None => Some "Unnamed"
            end))
        (findall_path (Etree.has_tag "score-part") root) in
  let measures :=
    match find_path (Etree.has_tag "part") root with
    | Some first_part => List.length (Etree.findall "measure" first_part)
    | None => 0
    end in
  match find_path (Etree.has_tag "measure") root with
  | Some first_measure =>
      key <- match find_path (Etree.has_tag "fifths") first_measure with
             | Some fifths =>
                 n <- int_of_text (rd fifths) ;;
                 k <- fifths_to_key n "major" ;;
                 Returns (Some k)
             | None => Returns None
             end ;;
      let time_signature :=
        match find_path (Etree.has_tag "time") first_measure with
        | Some time_elem =>
            match Etree.find "beats" time_elem, Etree.find "beat-type" time_elem with
            | Some beats, Some beat_type =>
                Some (str_of_text (rd beats) ++ "/" ++ str_of_text (rd beat_type))
            | _, _ => None
            end
        | None => None
        end in
      Returns (ScoreInfo title composer parts measures key time_signature)
  | None => Returns (ScoreInfo title composer parts measures None None)
  end.

(** The tags of the elements whose text [parse_score_info] reads. *)
Definition text_carrier (t : string) : bool :=
  existsb (String.eqb t) ["work-title"; "creator"; "part-name"; "fifths"; "beats"; "beat-type"].

(** The elements whose text is read have no children. *)
Definition leafy : element -> bool :=
  every (fun e => negb (text_carrier (Etree.tag e))
                  || match Etree.children e with [] => true | _ :: _ => false end).

(** The tag of every element is one of [tags]. *)
Definition tags_within (tags : list string) : element -> bool :=
  every (fun e => existsb (String.eqb (Etree.tag e)) tags).

(** The [score-part] that [create_empty_score] builds for a part
    definition when it refuses none of its strings. *)
Definition score_part_tree (pd : part_def) : element :=
  let instrument_id := pd_id pd ++ "-I1" in
  Etree.new "score-part" [("id", pd_id pd)]
    ([Etree.leaf "part-name" [] (pd_name pd)]
     ++ (if truthy (pd_abbreviation pd)
         then [Etree.leaf "part-abbreviation" []
                 (match pd_abbreviation pd with Some a => a | None => "" end)]
         else [])
     ++ [Etree.new "score-instrument" [("id", instrument_id)]
           [Etree.leaf "instrument-name" [] (pd_name pd)];
         Etree.new "midi-instrument" [("id", instrument_id)]
           [Etree.leaf "midi-channel" [] "1";
            Etree.leaf "midi-program" []
              (PyStr.of_int (match pd_midi_program pd with Some p => p | None => 0 end + 1))]])%list.

(** The tree that [create_empty_score] builds, when it builds one. *)
Definition built_tree (title composer : string) (parts : list part_def)
  (time_sig : Z * Z) (key_fifths tempo measures : Z) : element :=
  Etree.new "score-partwise" [("version", "4.0")]
    ([Etree.new "work" [] [Etree.leaf "work-title" [] title]]
     ++ (match composer with
         | EmptyString => []
         | String _ _ =>
             [Etree.new "identification" []
                [Etree.leaf "creator" [("type", "composer")] composer]]
         end)
     ++ [Etree.new "part-list" [] (map score_part_tree parts)]
     ++ part_trees time_sig key_fifths tempo measures 0 parts)%list.

(** The tags below a [score-part], and the tags of a [part] and below. *)
Definition score_part_tags : list string :=
  ["part-name"; "part-abbreviation"; "score-instrument"; "instrument-name";
   "midi-instrument"; "midi-channel"; "midi-program"].

Definition part_tags : list string :=
  ["part"; "measure"; "attributes"; "divisions"; "key"; "fifths"; "time"; "beats";
   "beat-type"; "clef"; "sign"; "line"; "direction"; "direction-type"; "metronome";
   "beat-unit"; "per-minute"; "sound"; "note"; "rest"; "duration"; "type"].

(** What [parse_score_info] says of a score built from these part
    definitions: an empty title, composer or part name comes back as no
    text; without a first measure there is neither key nor time signature;
    with one, the key is looked up, and a failing lookup is the result. *)
Definition built_info (title composer : string) (parts : list part_def)
  (time_sig : Z * Z) (key_fifths measures : Z) : info_result :=
  let names := map (fun pd => (Some (pd_id pd), norm_text (Some (pd_name pd)))) parts in
  match parts with
  | [] => Info (ScoreInfo (norm_text (Some title)) (norm_text (Some composer)) [] 0 None None)
  | _ :: _ =>
      if (measures <? 1)%Z
      then Info (ScoreInfo (norm_text (Some title)) (norm_text (Some composer)) names 0
                           None None)
      else match fifths_to_key key_fifths "major" with
           | Returns k =>
               Info (ScoreInfo (norm_text (Some title)) (norm_text (Some composer)) names
                               (Z.to_nat measures) (Some k)
                               (Some (PyStr.of_int (fst time_sig) ++ "/"
                                      ++ PyStr.of_int (snd time_sig))))
           | Raises e => InfoError (exn_str e)
           end
  end.

(** * Properties *)

(** ** Strings *)

Lemma append_nil_r (s : string) : s ++ "" = s.
Proof. induction s as [|c s IH]; simpl; [reflexivity | now rewrite IH]. Qed.

Lemma append_assoc (a b c : string) : (a ++ b) ++ c = a ++ (b ++ c).
Proof. induction a as [|x a IH]; simpl; [reflexivity | now rewrite IH]. Qed.

Lemma prefix_append (p s : string) : String.prefix p (p ++ s) = true.
Proof.
  induction p as [|c p IH]; simpl.
  - now destruct s.
  - destruct (ascii_dec c c) as [_|n]; [exact IH | now elim n].
Qed.

(** ** Key signatures (C7) *)

(** C7 (code defect): in major mode [fifths_to_key] maps 2 to "D", but the
    flat side of the table is read one place too far ([8 + abs(fifths)]
    instead of [7 + abs(fifths)]): -3 gives "Ab" where the claim has "Eb",
    -1 gives "Bb" instead of "F", and -7 runs past the table. *)
Theorem fifths_to_key_flat_side_off_by_one :
  fifths_to_key 2 "major" = Returns "D"
  /\ fifths_to_key (-3) "major" = Returns "Ab"
  /\ fifths_to_key (-1) "major" = Returns "Bb"
  /\ fifths_to_key (-7) "major" = Raises (Exn IndexError "list index out of range")
  /\ nth_error major_keys (Z.to_nat (7 + Z.abs (-3))) = Some "Eb".
Proof. repeat split. Qed.

(** ** The validator (C9, C10) *)

Section ValidatorFacts.

Variable fromstring : string -> py_result element.

Let validate := validate_musicxml fromstring.

Lemma check_parts_first_empty (parts : list element) :
  check_parts parts =
  match List.find no_measure parts with
  | Some part => (false, Some (part_message part))
  | None => (true, None)
  end.
Proof.
  induction parts as [|p ps IH]; simpl; [reflexivity|].
  unfold no_measure at 1.
  destruct (Etree.findall "measure" p) as [|m ms] eqn:E; simpl.
  - unfold part_message, Etree.get_default. reflexivity.
  - exact IH.
Qed.

Lemma check_root_shape (root : element) :
  check_root root = (true, None) \/ exists msg, check_root root = (false, Some msg).
Proof.
  unfold check_root.
  destruct (negb _); [right; eauto|].
  destruct (Etree.find "part-list" root); [|right; eauto].
  destruct (_ =? 0)%nat; [right; eauto|].
  rewrite check_parts_first_empty.
  destruct (List.find no_measure _); [right; eauto | now left].
Qed.

(** C9: once the text parses, the verdict is that of the first failing
    check, in the order root tag, part list, parts, measures of each part;
    a part list without any part gives "No <part> elements found", and the
    first part without measure is named by its id, or "unknown". *)
Theorem validate_checks_in_order (xml_string : string) (root : element)
  (Hparse : fromstring xml_string = Returns root) :
  validate xml_string =
    (if negb (accepted_root root)
     then (false, Some ("Invalid root element: " ++ Etree.tag root
                        ++ ". Expected 'score-partwise' or 'score-timewise'"))
     else if match Etree.find "part-list" root with None => true | Some _ => false end
     then (false, Some "Missing required <part-list> element")
     else match Etree.findall "part" root with
          | [] => (false, Some "No <part> elements found")
          | parts =>
              match List.find no_measure parts with
              | Some part => (false, Some (part_message part))
              | None => (true, None)
              end
          end)
  /\ (accepted_root root = true ->
      Etree.find "part-list" root <> None ->
      Etree.findall "part" root = [] ->
      validate xml_string = (false, Some "No <part> elements found"))
  /\ (forall ok part rest,
        accepted_root root = true ->
        Etree.find "part-list" root <> None ->
        Etree.findall "part" root = (ok ++ part :: rest)%list ->
        forallb (fun p => negb (no_measure p)) ok = true ->
        no_measure part = true ->
        validate xml_string = (false, Some (part_message part))).
Proof.
  assert (Hmain :
    validate xml_string =
    (if negb (accepted_root root)
     then (false, Some ("Invalid root element: " ++ Etree.tag root
                        ++ ". Expected 'score-partwise' or 'score-timewise'"))
     else if match Etree.find "part-list" root with None => true | Some _ => false end
     then (false, Some "Missing required <part-list> element")
     else match Etree.findall "part" root with
          | [] => (false, Some "No <part> elements found")
          | parts =>
              match List.find no_measure parts with
              | Some part => (false, Some (part_message part))
              | None => (true, None)
              end
          end)).
  { unfold validate, validate_musicxml. rewrite Hparse. unfold check_root, accepted_root.
    destruct (negb _); [reflexivity|].
    destruct (Etree.find "part-list" root); [|reflexivity].
    destruct (Etree.findall "part" root) as [|p ps] eqn:E; [reflexivity|].
    cbn [List.length Nat.eqb]. apply check_parts_first_empty. }
  split; [exact Hmain|]. split.
  - intros Hroot Hlist Hparts. rewrite Hmain, Hroot, Hparts. simpl.
    destruct (Etree.find "part-list" root); [reflexivity | now elim Hlist].
  - intros ok part rest Hroot Hlist Hparts Hok Hempty.
    rewrite Hmain, Hroot, Hparts. cbn [negb].
    destruct (Etree.find "part-list" root); [|now elim Hlist].
    assert (Hfind : List.find no_measure (ok ++ part :: rest) = Some part).
    { clear Hparts. induction ok as [|o ok IH]; simpl in *.
      - now rewrite Hempty.
      - apply andb_true_iff in Hok as [Ho Hok].
        apply negb_true_iff in Ho. rewrite Ho. now apply IH. }
    destruct (ok ++ part :: rest)%list as [|p ps] eqn:E; [now destruct ok|].
    now rewrite Hfind.
Qed.

(** C10: on every input the validator returns a pair, [(True, None)] or
    [(False, message)]; a syntax error of the parser gives a message that
    begins with "XML syntax error: ", any other exception one that begins
    with "Validation error: ". *)
Theorem validate_total (xml_string : string) :
  match fromstring xml_string with
  | Returns root =>
      validate xml_string = check_root root
      /\ (validate xml_string = (true, None)
          \/ exists msg, validate xml_string = (false, Some msg))
  | Raises e =>
      match exn_kind e with
      | XMLSyntaxError =>
          validate xml_string = (false, Some ("XML syntax error: " ++ exn_str e))
          /\ String.prefix "XML syntax error:" ("XML syntax error: " ++ exn_str e) = true
      | _ =>
          validate xml_string = (false, Some ("Validation error: " ++ exn_str e))
          /\ String.prefix "Validation error:" ("Validation error: " ++ exn_str e) = true
      end
  end.
Proof.
  unfold validate, validate_musicxml.
  destruct (fromstring xml_string) as [root|e].
  - split; [reflexivity | apply check_root_shape].
  - destruct (exn_kind e); split; try reflexivity;
      now destruct (exn_str e).
Qed.

End ValidatorFacts.

(** The scenario of C9 on the reference parser: a part list, no part; and
    a part without measures, with and without id. *)
Lemma validate_checks_in_order_witness :
  Xml.fromstring Scenario.no_part
    = Returns (Element "score-partwise" [] None [Element "part-list" [] None [] None] None)
  /\ Scenario.validate Scenario.no_part = (false, Some "No <part> elements found").
Proof.
  split; [vm_compute; reflexivity|].
  refine (proj1 (proj2 (validate_checks_in_order Xml.fromstring Scenario.no_part
                          (Element "score-partwise" [] None
                                   [Element "part-list" [] None [] None] None) _))
            _ _ _).
  - vm_compute. reflexivity.
  - vm_compute. reflexivity.
  - vm_compute. discriminate.
  - vm_compute. reflexivity.
Defined.

Example validate_names_part :
  Scenario.validate Scenario.empty_parts = (false, Some "Part 'P2' has no measures")
  /\ Scenario.validate "<score-partwise><part-list/><part/></score-partwise>"
     = (false, Some "Part 'unknown' has no measures")
  /\ Scenario.validate "<score><part-list/></score>"
     = (false, Some "Invalid root element: score. Expected 'score-partwise' or 'score-timewise'")
  /\ Scenario.validate Scenario.no_part_list
     = (false, Some "Missing required <part-list> element")
  /\ Scenario.validate Scenario.unclosed
     = (false, Some "XML syntax error: Premature end of data in tag")
  /\ Scenario.validate Scenario.base_2 = (true, None).
Proof. vm_compute. repeat split. Qed.

(** ** Merge and excerpt: failures (C5, C6) *)

Section EditorFailures.

Variable fromstring : string -> py_result element.
Variable tostring : element -> string.

Let merge := merge_musicxml fromstring tostring.
Let excerpt := extract_measures fromstring tostring.

(** C5, as the code has it: [merge_musicxml] fails, with a [ValueError]
    that wraps the parser's message, whenever the base or the addition does
    not parse; nothing is merged and no document is returned. *)
Theorem merge_fails_on_unparsable_input (base_xml new_xml : string)
  (insert_at_measure : option Z)
  (Hbad : returns (fromstring base_xml) = false \/ returns (fromstring new_xml) = false) :
  exists e,
    merge base_xml new_xml insert_at_measure
      = Raises (Exn ValueError ("Failed to merge MusicXML: " ++ exn_str e))
    /\ (fromstring base_xml = Raises e
        \/ (returns (fromstring base_xml) = true /\ fromstring new_xml = Raises e)).
Proof.
  unfold merge, merge_musicxml.
  destruct (fromstring base_xml) as [base_root|e] eqn:Hb; cbn [bind].
  - destruct (fromstring new_xml) as [new_root|e] eqn:Hn; cbn [bind].
    + destruct Hbad; discriminate.
    + exists e. split; [reflexivity | right; split; reflexivity].
  - exists e. split; [reflexivity | now left].
Qed.

(** A document that parses is merged whatever the validator would say:
    with ids free of quotes the merge cannot fail. *)
Lemma merge_into_returns (at_measure : option Z) (base_root new_part : element) :
  PyStr.contains PyStr.squote
    (match Etree.get new_part "id" with Some i => i | None => "None" end) = false ->
  returns (merge_into at_measure base_root new_part) = true.
Proof.
  intros H. unfold merge_into. rewrite H.
  now destruct (update_first_part _ _ _).
Qed.

(** Every failure of [extract_measures] is the one [ValueError]. *)
Lemma extract_failure_is_generic (xml_string : string) (start end_ : Z) (e : py_exception) :
  excerpt xml_string start end_ = Raises e ->
  exn_kind e = ValueError
  /\ String.prefix "Failed to extract measures: " (exn_str e) = true.
Proof.
  unfold excerpt, extract_measures.
  destruct (bind _ _) as [s|e']; [discriminate|].
  intros H. injection H as <-. split; [reflexivity|].
  apply (prefix_append "Failed to extract measures: ").
Qed.

Lemma remove_outside_reversed (start end_ : Z) (cs : list element) :
  (start > end_)%Z ->
  forallb (fun m => returns (measure_number m)) (filter (Etree.has_tag "measure") cs) = true ->
  remove_outside start end_ cs
    = Returns (filter (fun c => negb (Etree.has_tag "measure" c)) cs).
Proof.
  intros Hrange. induction cs as [|c cs IH]; intros Hnum; [reflexivity|].
  cbn [remove_outside filter] in *.
  destruct (Etree.has_tag "measure" c) eqn:Hc; cbn [negb forallb] in *.
  - apply andb_true_iff in Hnum as [Hn Hnum].
    destruct (measure_number c) as [num|]; [|discriminate]. cbn [bind].
    rewrite (IH Hnum). cbn [bind].
    assert (Hout : ((num <? start) || (num >? end_))%Z = true).
    { apply orb_true_iff.
      destruct (Z.ltb_spec num start); [now left|right]. apply Z.gtb_lt. lia. }
    now rewrite Hout.
  - rewrite (IH Hnum). reflexivity.
Qed.

Lemma renumber_without_measure (i : Z) (cs : list element) :
  forallb (fun c => negb (Etree.has_tag "measure" c)) cs = true ->
  renumber i cs = cs.
Proof.
  revert i. induction cs as [|c cs IH]; intros i H; [reflexivity|].
  cbn [forallb] in H. apply andb_true_iff in H as [Hc H].
  cbn [renumber]. apply negb_true_iff in Hc. rewrite Hc. now rewrite IH.
Qed.

Lemma filter_forallb {A : Type} (f : A -> bool) (l : list A) :
  forallb f (filter f l) = true.
Proof.
  induction l as [|x l IH]; [reflexivity|]. cbn [filter].
  destruct (f x) eqn:E; [cbn [forallb]; now rewrite E | exact IH].
Qed.

Lemma extract_part_reversed (start end_ : Z) (part : element) :
  (start > end_)%Z ->
  forallb (fun m => returns (measure_number m)) (Etree.findall "measure" part) = true ->
  extract_part start end_ part
    = Returns (Etree.set_children part
                 (filter (fun m => negb (Etree.has_tag "measure" m)) (Etree.children part))).
Proof.
  intros Hrange Hnum. unfold extract_part.
  rewrite (remove_outside_reversed _ _ _ Hrange Hnum). cbn [bind].
  now rewrite renumber_without_measure by apply filter_forallb.
Qed.

Lemma extract_tree_reversed (start end_ : Z) (root : element) :
  (start > end_)%Z ->
  integer_numbers root = true ->
  extract_tree start end_ root
    = Returns (Etree.set_children root (map without_measures (Etree.children root))).
Proof.
  intros Hrange Hnum. unfold extract_tree, integer_numbers, Etree.findall in *.
  assert (H : map_m (fun c => if Etree.has_tag "part" c
                              then extract_part start end_ c else Returns c)
                    (Etree.children root)
              = Returns (map without_measures (Etree.children root))).
  { induction (Etree.children root) as [|c cs IH]; [reflexivity|].
    cbn [map_m map filter] in *. unfold without_measures at 1.
    destruct (Etree.has_tag "part" c) eqn:Hc.
    - cbn [forallb] in Hnum. apply andb_true_iff in Hnum as [Hn Hnum].
      rewrite (extract_part_reversed _ _ _ Hrange Hn). cbn [bind].
      now rewrite (IH Hnum).
    - cbn [bind]. now rewrite (IH Hnum). }
  now rewrite H.
Qed.

Lemma findall_set_children (t : string) (e : element) (cs : list element) :
  Etree.findall t (Etree.set_children e cs) = filter (Etree.has_tag t) cs.
Proof. now destruct e. Qed.

Lemma has_tag_set_children (t : string) (e : element) (cs : list element) :
  Etree.has_tag t (Etree.set_children e cs) = Etree.has_tag t e.
Proof. now destruct e. Qed.

Lemma without_measures_tag (t : string) (c : element) :
  Etree.has_tag t (without_measures c) = Etree.has_tag t c.
Proof.
  unfold without_measures. destruct (Etree.has_tag "part" c); [|reflexivity].
  apply has_tag_set_children.
Qed.

Lemma filter_map_without_measures (cs : list element) :
  filter (Etree.has_tag "part") (map without_measures cs)
  = map without_measures (filter (Etree.has_tag "part") cs).
Proof.
  induction cs as [|c cs IH]; [reflexivity|]. cbn [map filter].
  rewrite without_measures_tag.
  destruct (Etree.has_tag "part" c); cbn [map]; now rewrite IH.
Qed.

Lemma filter_neg_filter {A : Type} (f : A -> bool) (l : list A) :
  filter f (filter (fun x => negb (f x)) l) = [].
Proof.
  induction l as [|x l IH]; [reflexivity|]. cbn [filter].
  destruct (f x) eqn:E; cbn [negb filter]; [exact IH | now rewrite E].
Qed.

(** C6, as the code has it: [extract_measures] has no check of its range.
    With [start > end], a source that parses and measure numbers that are
    integers, it returns a document, and in that document every part is
    left without any measure. *)
Theorem extract_reversed_range_returns_empty_parts
  (xml_string : string) (start end_ : Z) (root : element)
  (Hparse : fromstring xml_string = Returns root)
  (Hnum : integer_numbers root = true)
  (Hrange : (start > end_)%Z) :
  exists root',
    excerpt xml_string start end_ = Returns (xml_declaration ++ tostring root')
    /\ Etree.findall "part" root' = map without_measures (Etree.findall "part" root)
    /\ Forall (fun part => Etree.findall "measure" part = []) (Etree.findall "part" root').
Proof.
  exists (Etree.set_children root (map without_measures (Etree.children root))).
  split; [|split].
  - unfold excerpt, extract_measures. rewrite Hparse. cbn [bind].
    now rewrite (extract_tree_reversed _ _ _ Hrange Hnum).
  - rewrite findall_set_children. apply filter_map_without_measures.
  - rewrite findall_set_children, filter_map_without_measures.
    apply Forall_forall. intros p Hp. apply in_map_iff in Hp as [c [<- Hc]].
    apply filter_In in Hc as [_ Hc]. unfold without_measures. rewrite Hc.
    rewrite findall_set_children. apply filter_neg_filter.
Qed.

End EditorFailures.

(** C5 on the reference parser: a base without part list fails the
    validator, and is merged all the same. *)
Lemma merge_accepts_invalid_base :
  Scenario.validate Scenario.no_part_list
    = (false, Some "Missing required <part-list> element")
  /\ returns (Scenario.merge Scenario.no_part_list Scenario.addition_3 None) = true
  /\ option_map Scenario.measure_summary
       (match Scenario.merge Scenario.no_part_list Scenario.addition_3 None with
        | Returns s => Xml.ET_fromstring s
        | Raises _ => None
        end)
     = Some [("P1", [(Some "1", ["x"]); (Some "2", ["a"]);
                     (Some "3", ["b"]); (Some "4", ["c"])])].
Proof. vm_compute. repeat split. Qed.

Lemma merge_fails_on_unparsable_input_witness :
  exists e,
    Scenario.merge Scenario.unclosed Scenario.addition_3 (Some 2%Z)
      = Raises (Exn ValueError ("Failed to merge MusicXML: " ++ exn_str e))
    /\ (Xml.fromstring Scenario.unclosed = Raises e
        \/ (returns (Xml.fromstring Scenario.unclosed) = true
            /\ Xml.fromstring Scenario.addition_3 = Raises e)).
Proof.
  apply (merge_fails_on_unparsable_input Xml.fromstring Xml.tostring).
  left. reflexivity.
Defined.

(** C6 on the reference parser: the range 3..1 is accepted, and the
    document returned has a part without measures, which the validator
    rejects. *)
Lemma extract_accepts_reversed_range :
  (3 > 1)%Z
  /\ Scenario.excerpt Scenario.addition_3 3 1
     = Returns (xml_declaration
                ++ Xml.tostring
                     (Element "score-partwise" [] None
                        [Element "part-list" [] None
                           [Element "score-part" [("id", "P1")] None [] None] None;
                         Element "part" [("id", "P1")] None [] None] None))
  /\ (match Scenario.excerpt Scenario.addition_3 3 1 with
      | Returns s => Scenario.validate s
      | Raises _ => (true, None)
      end) = (false, Some "Part 'P1' has no measures").
Proof. vm_compute. repeat split. Qed.

Lemma extract_reversed_range_returns_empty_parts_witness :
  exists root',
    Scenario.excerpt Scenario.addition_3 3 1 = Returns (xml_declaration ++ Xml.tostring root')
    /\ Etree.findall "part" root'
       = map without_measures
           (Etree.findall "part"
              (match Xml.fromstring Scenario.addition_3 with
               | Returns r => r
               | Raises _ => Etree.new "" [] []
               end))
    /\ Forall (fun part => Etree.findall "measure" part = []) (Etree.findall "part" root').
Proof.
  apply (extract_reversed_range_returns_empty_parts Xml.fromstring Xml.tostring
           Scenario.addition_3 3 1).
  - reflexivity.
  - reflexivity.
  - reflexivity.
Defined.

(** ** The streaming reconstructor (C1, C2, C3) *)

Lemma partial_counts_app (a b : list chunk) :
  partial_counts (a ++ b)%list = (partial_counts a ++ partial_counts b)%list.
Proof.
  induction a as [|[xml n|t] a IH]; cbn [partial_counts app]; [reflexivity| |exact IH].
  now rewrite IH.
Qed.

Lemma sorted_app (a b : list nat) :
  StronglySorted lt a -> StronglySorted lt b ->
  (forall x y, In x a -> In y b -> x < y) ->
  StronglySorted lt (a ++ b)%list.
Proof.
  induction a as [|x a IH]; intros Ha Hb Hab; cbn [app]; [exact Hb|].
  inversion Ha as [|? ? Ha' Hx]; subst. constructor.
  - apply IH; [exact Ha' | exact Hb |]. intros u v Hu Hv. apply Hab; [now right | exact Hv].
  - apply Forall_app. split; [exact Hx|].
    apply Forall_forall. intros y Hy. apply Hab; [now left | exact Hy].
Qed.

Section StreamFacts.

Variable ET_fromstring : string -> option element.

Let reconstruct := _try_extract_partial_musicxml ET_fromstring.
Let step := on_text ET_fromstring.
Let loop := stream_loop ET_fromstring.

(** A snapshot is returned only after the parser has accepted it. *)
Lemma reconstruct_parses (text snapshot : string) :
  reconstruct text = Some snapshot -> exists root, ET_fromstring snapshot = Some root.
Proof.
  unfold reconstruct, _try_extract_partial_musicxml.
  destruct (negb _); [discriminate|].
  destruct (negb _); [discriminate|].
  destruct (negb _); [discriminate|].
  destruct (search_score_partwise text) as [partial|]; [|discriminate].
  destruct (PyStr.rfind _ partial) as [last|]; [|discriminate].
  match goal with |- context [ET_fromstring ?s] =>
    destruct (ET_fromstring s) as [root|] eqn:E; [|discriminate] end.
  intros H. injection H as <-. now exists root.
Qed.

(** The watermark covers the buffer when every snapshot the buffer gives
    has been rendered. *)
Let covered (st : stream_state) : Prop :=
  forall xml, reconstruct (accumulated_text st) = Some xml -> truthy (Some xml) = true ->
              PyStr.count "</measure>" xml <= last_rendered_measures st.

(** One turn of the loop: the watermark never goes down; at most one
    snapshot is yielded, above the old watermark, which it replaces; the
    new watermark covers the new buffer. *)
Lemma step_spec (st : stream_state) (text : string) :
  accumulated_text (fst (step st text)) = accumulated_text st ++ text
  /\ last_rendered_measures st <= last_rendered_measures (fst (step st text))
  /\ (partial_counts (snd (step st text)) = []
      \/ partial_counts (snd (step st text)) = [last_rendered_measures (fst (step st text))]
         /\ last_rendered_measures st < last_rendered_measures (fst (step st text)))
  /\ covered (fst (step st text)).
Proof.
  unfold step, on_text, covered. fold reconstruct.
  destruct (reconstruct (accumulated_text st ++ text)) as [xml|] eqn:E.
  - destruct (truthy (Some xml)) eqn:T.
    + destruct (last_rendered_measures st <? PyStr.count "</measure>" xml)%nat eqn:L;
        cbn [fst snd accumulated_text last_rendered_measures partial_counts]; rewrite E.
      * apply Nat.ltb_lt in L. repeat split; try lia.
        -- right. split; [reflexivity | exact L].
        -- intros x Hx _. injection Hx as <-. lia.
      * apply Nat.ltb_ge in L. repeat split; try lia.
        -- now left.
        -- intros x Hx _. injection Hx as <-. exact L.
    + cbn [fst snd accumulated_text last_rendered_measures partial_counts]. rewrite E.
      repeat split; try lia.
      * now left.
      * intros x Hx Ht. injection Hx as <-. congruence.
  - cbn [truthy fst snd accumulated_text last_rendered_measures partial_counts]. rewrite E.
    repeat split; try lia.
    + now left.
    + intros x Hx. discriminate.
Qed.

(** The loop: the counts yielded lie above the starting watermark and
    increase strictly; a covering watermark stays covering. *)
Lemma loop_spec (texts : list string) (st : stream_state) :
  last_rendered_measures st <= last_rendered_measures (fst (loop st texts))
  /\ Forall (fun n => last_rendered_measures st < n) (partial_counts (snd (loop st texts)))
  /\ StronglySorted lt (partial_counts (snd (loop st texts)))
  /\ (covered st -> covered (fst (loop st texts))).
Proof.
  unfold loop. revert st.
  induction texts as [|text texts IH]; intros st; cbn [stream_loop].
  - cbn [fst snd partial_counts]. repeat split; [lia | constructor | constructor | auto].
  - destruct (step_spec st text) as (_ & Hle & Hout & Hcov). unfold step in *.
    destruct (on_text ET_fromstring st text) as [st1 out1].
    destruct (IH st1) as (Hle2 & Hall & Hsorted & Hkeep).
    destruct (stream_loop ET_fromstring st1 texts) as [st2 out2].
    cbn [fst snd] in *. rewrite partial_counts_app.
    split; [lia|]. split; [|split; [|auto]].
    + apply Forall_app. split.
      * destruct Hout as [-> | [-> Hlt]]; constructor; [exact Hlt | constructor].
      * eapply Forall_impl; [|exact Hall]. cbn. intros; lia.
    + apply sorted_app; [| exact Hsorted |].
      * destruct Hout as [-> | [-> _]]; repeat constructor.
      * intros x y Hx Hy. rewrite Forall_forall in Hall. specialize (Hall y Hy).
        destruct Hout as [E | [E _]]; rewrite E in Hx; [destruct Hx|].
        destruct Hx as [<-|[]]. exact Hall.
Qed.

Lemma start_covered : covered stream_start.
Proof. intros xml H. discriminate H. Qed.

(** A turn that leaves a covered buffer unchanged yields no snapshot. *)
Lemma unchanged_buffer_silent (st : stream_state) :
  covered st -> partial_counts (snd (step st "")) = [].
Proof.
  intros Hcov. unfold step, on_text. rewrite append_nil_r. fold reconstruct.
  destruct (reconstruct (accumulated_text st)) as [xml|] eqn:E; [|reflexivity].
  destruct (truthy (Some xml)) eqn:T; [|reflexivity].
  specialize (Hcov xml E T). apply Nat.ltb_ge in Hcov. now rewrite Hcov.
Qed.

(** C2: within one session the measure counts of the snapshots yielded
    increase strictly, whatever the text increments and whatever the
    parser accepts; and after any increments, a further turn that adds
    nothing to the buffer yields no snapshot. *)
Theorem partial_counts_strictly_increasing (texts : list string) :
  StronglySorted lt (partial_counts (chat_stream ET_fromstring texts))
  /\ partial_counts
       (snd (on_text ET_fromstring (fst (stream_loop ET_fromstring stream_start texts)) ""))
     = [].
Proof.
  destruct (loop_spec texts stream_start) as (_ & _ & Hsorted & Hcov).
  split; [exact Hsorted|].
  apply unchanged_buffer_silent. apply Hcov. exact start_covered.
Qed.

(** C1 (as amended): a snapshot the reconstructor returns has been parsed
    by its parser; if the validator's parser reads what that parser reads,
    the validator finds no syntax error in the snapshot and its verdict is
    the one of the structural checks on the snapshot's tree. *)
Theorem snapshot_parses_then_structure_decides
  (fromstring : string -> py_result element) (text snapshot : string) :
  (forall s root, ET_fromstring s = Some root -> fromstring s = Returns root) ->
  _try_extract_partial_musicxml ET_fromstring text = Some snapshot ->
  exists root,
    ET_fromstring snapshot = Some root
    /\ validate_musicxml fromstring snapshot = check_root root.
Proof.
  intros Hsame H. destruct (reconstruct_parses _ _ H) as [root Hroot].
  exists root. split; [exact Hroot|].
  unfold validate_musicxml. now rewrite (Hsame _ _ Hroot).
Qed.

End StreamFacts.

(** C1 (counterexample): the buffer [partless_buffer] gives a snapshot,
    which the session yields, and the validator rejects it: it has a part
    list and a measure, but no part. *)
Lemma snapshot_without_part_fails_validation :
  Scenario.reconstruct Scenario.partless_buffer = Some Scenario.partless_snapshot
  /\ chat_stream Xml.ET_fromstring [Scenario.partless_buffer]
     = [Partial Scenario.partless_snapshot 1]
  /\ Scenario.validate Scenario.partless_snapshot
     = (false, Some "No <part> elements found").
Proof. vm_compute. repeat split. Qed.

Lemma reference_parsers_agree (s : string) (root : element) :
  Xml.ET_fromstring s = Some root -> Xml.fromstring s = Returns root.
Proof.
  unfold Xml.ET_fromstring. destruct (Xml.fromstring s); [|discriminate].
  intros H. now injection H as <-.
Qed.

Lemma snapshot_parses_then_structure_decides_witness :
  exists root,
    Xml.ET_fromstring Scenario.growing_snapshot = Some root
    /\ Scenario.validate Scenario.growing_snapshot = check_root root.
Proof.
  apply (snapshot_parses_then_structure_decides
           Xml.ET_fromstring Xml.fromstring Scenario.growing_buffer).
  - exact reference_parsers_agree.
  - vm_compute. reflexivity.
Defined.

(** C3: on the buffer of the scenario (open root tag, complete part list,
    one complete measure, the open tag of a second measure) the
    reconstructor returns, behind an XML declaration, the buffer cut after
    its first measure and followed by a closing part tag and the closing
    root tag, whenever its parser reads that text.  The reference parser
    reads it: the tree has one part, which holds measure 1 and nothing
    else.  The same holds on a chat answer cut in the middle of its second
    measure. *)
Theorem reconstruct_keeps_complete_measures_only :
  (forall ET_fromstring : string -> option element,
     ET_fromstring Scenario.growing_snapshot <> None ->
     _try_extract_partial_musicxml ET_fromstring Scenario.growing_buffer
     = Some Scenario.growing_snapshot)
  /\ Scenario.growing_snapshot
     = xml_declaration
       ++ PyStr.take (String.length Scenario.growing_buffer
                      - String.length ("<measure" ++ Scenario.attr "number" "2" ++ ">"))
                     Scenario.growing_buffer
       ++ PyStr.nl ++ "  </part>" ++ PyStr.nl ++ "</score-partwise>"
  /\ PyStr.count "<measure" Scenario.growing_snapshot = 1
  /\ Scenario.reconstruct Scenario.growing_buffer = Some Scenario.growing_snapshot
  /\ (exists root,
        Xml.ET_fromstring Scenario.growing_snapshot = Some root
        /\ Scenario.measure_summary root = [("P1", [(Some "1", [])])])
  /\ (exists snapshot root,
        Scenario.reconstruct Scenario.chat_buffer = Some snapshot
        /\ Xml.ET_fromstring snapshot = Some root
        /\ Scenario.measure_summary root = [("P1", [(Some "1", ["note"])])]).
Proof.
  split; [|split; [|split; [|split; [|split]]]].
  - intros ET H. vm_compute in H. vm_compute.
    destruct (ET _); [reflexivity | now elim H].
  - vm_compute. reflexivity.
  - vm_compute. reflexivity.
  - vm_compute. reflexivity.
  - eexists. split; vm_compute; reflexivity.
  - eexists. eexists. split; [|split]; vm_compute; reflexivity.
Qed.

Lemma reconstruct_keeps_complete_measures_only_witness :
  _try_extract_partial_musicxml Xml.ET_fromstring Scenario.growing_buffer
  = Some Scenario.growing_snapshot.
Proof.
  apply (proj1 reconstruct_keeps_complete_measures_only Xml.ET_fromstring).
  vm_compute. discriminate.
Defined.

(** ** Merge: the splice (C4) *)

Lemma element_induction (P : element -> Prop) :
  (forall t a x cs l, Forall P cs -> P (Element t a x cs l)) -> forall e, P e.
Proof.
  intros H. fix IH 1. intros [t a x cs l]. apply H.
  induction cs as [|c cs IHcs]; constructor; [apply IH | exact IHcs].
Qed.

Lemma has_tag_set (t k v : string) (e : element) :
  Etree.has_tag t (Etree.set e k v) = Etree.has_tag t e.
Proof. now destruct e. Qed.

Lemma children_set (k v : string) (e : element) :
  Etree.children (Etree.set e k v) = Etree.children e.
Proof. now destruct e. Qed.

Lemma filter_all {A : Type} (f : A -> bool) (l : list A) :
  forallb f l = true -> filter f l = l.
Proof.
  induction l as [|x l IH]; cbn [forallb filter]; [reflexivity|].
  intros H. apply andb_true_iff in H as [Hx Hl]. rewrite Hx. now rewrite IH.
Qed.

(** Numbering from [first] the measures enumerated from [j] is numbering
    them from [first + j]. *)
Lemma numbered_shift (first j : Z) (ms : list element) :
  map (fun im => Etree.set (snd im) "number" (PyStr.of_int (first + fst im)))
      (Etree.enumerate_from j ms)
  = numbered_from (first + j) ms.
Proof.
  unfold numbered_from, Etree.enumerate.
  assert (H : forall i, 
    map (fun im => Etree.set (snd im) "number" (PyStr.of_int (first + fst im)))
        (Etree.enumerate_from (j + i) ms)
    = map (fun im => Etree.set (snd im) "number" (PyStr.of_int (first + j + fst im)))
        (Etree.enumerate_from i ms)).
  { induction ms as [|m ms IH]; intros i; cbn [Etree.enumerate_from map fst snd].
    - reflexivity.
    - rewrite Z.add_assoc. f_equal. rewrite <- (IH (i + 1)%Z). now rewrite Z.add_assoc. }
  specialize (H 0%Z). now rewrite Z.add_0_r in H.
Qed.

Lemma numbered_from_length (first : Z) (ms : list element) :
  List.length (numbered_from first ms) = List.length ms.
Proof.
  unfold numbered_from, Etree.enumerate. rewrite length_map. generalize 0%Z.
  induction ms as [|m ms IH]; intros i; cbn; [reflexivity | now rewrite IH].
Qed.

(** The renumbering loop over the tail of the base measures, on a part
    that holds measures only. *)
Lemma renumber_from_past (from : nat) (first : Z) (cs : list element) :
  forallb (Etree.has_tag "measure") cs = true ->
  forall k, (from <= k)%nat ->
  renumber_from from first k cs = numbered_from (first + Z.of_nat (k - from)) cs.
Proof.
  intros Hall k Hk. rewrite <- numbered_shift. revert k Hk.
  induction cs as [|c cs IH]; intros k Hk; cbn [renumber_from Etree.enumerate_from map fst snd].
  - reflexivity.
  - cbn [forallb] in Hall. apply andb_true_iff in Hall as [Hc Hcs]. rewrite Hc.
    apply Nat.leb_le in Hk as Hk'. rewrite Hk'. f_equal.
    rewrite (IH Hcs (S k)); [|lia]. f_equal. f_equal. lia.
Qed.

Lemma renumber_from_before (from : nat) (first : Z) (cs : list element) :
  forallb (Etree.has_tag "measure") cs = true ->
  forall k, (k <= from)%nat ->
  renumber_from from first k cs
  = (firstn (from - k) cs ++ numbered_from first (skipn (from - k) cs))%list.
Proof.
  intros Hall. induction cs as [|c cs IH]; intros k Hk.
  - now rewrite firstn_nil, skipn_nil.
  - destruct (Nat.eq_dec k from) as [->|Hne].
    + rewrite Nat.sub_diag. cbn [firstn skipn app].
      rewrite (renumber_from_past _ _ _ Hall from (Nat.le_refl _)).
      rewrite Nat.sub_diag. now rewrite Z.add_0_r.
    + cbn [renumber_from]. cbn [forallb] in Hall.
      apply andb_true_iff in Hall as [Hc Hcs]. rewrite Hc.
      assert (Hlt : (from <=? k)%nat = false) by (apply Nat.leb_gt; lia). rewrite Hlt.
      replace (from - k)%nat with (S (from - S k)) by lia. cbn [firstn skipn app].
      f_equal. apply (IH Hcs). lia.
Qed.

(** The insertion loop: the [j] measures already inserted stand at
    [idx .. idx + j - 1], the next one goes behind them. *)
Lemma fold_insert_at (idx : Z) (l pre done post : list element) :
  (0 <= idx)%Z -> List.length pre = Z.to_nat idx ->
  fold_left (fun cs im => Etree.insert_at cs (idx + fst im) (snd im))
            (Etree.enumerate_from (Z.of_nat (List.length done)) l)
            (pre ++ done ++ post)%list
  = (pre ++ done ++ l ++ post)%list.
Proof.
  intros Hidx Hpre. revert done.
  induction l as [|x l IH]; intros done; cbn [Etree.enumerate_from fold_left fst snd app].
  - reflexivity.
  - unfold Etree.insert_at at 2.
    assert (Hj : (idx + Z.of_nat (List.length done) <? 0)%Z = false) by (apply Z.ltb_ge; lia).
    rewrite Hj.
    assert (Hlen : Z.to_nat (Z.min (idx + Z.of_nat (List.length done))
                                   (Z.of_nat (List.length (pre ++ done ++ post))))
                   = List.length (pre ++ done)).
    { rewrite !length_app. lia. }
    rewrite Hlen. rewrite app_assoc.
    rewrite firstn_app, firstn_all, Nat.sub_diag, firstn_O, app_nil_r.
    rewrite skipn_app, skipn_all, Nat.sub_diag, skipn_O. cbn [app].
    specialize (IH (done ++ [x])%list).
    rewrite length_app in IH. cbn [List.length] in IH.
    replace (Z.of_nat (List.length done + 1)) with (Z.of_nat (List.length done) + 1)%Z in IH by lia.
    rewrite <- !app_assoc in *. cbn [app] in *. exact IH.
Qed.

(** The body of the merge loop on a part that holds measures only, for a
    position among them: its children become the splice. *)
Lemma merge_part_splices (at_measure : Z) (new_part base_part : element) :
  splice_position at_measure base_part = true ->
  merge_part (Some at_measure) new_part base_part
  = Etree.set_children base_part
      (spliced at_measure (Etree.findall "measure" new_part) (Etree.children base_part)).
Proof.
  unfold splice_position. intros H.
  apply andb_true_iff in H as [H Hhi]. apply andb_true_iff in H as [Hall Hlo].
  apply Z.leb_le in Hlo, Hhi.
  unfold merge_part, spliced. f_equal.
  unfold Etree.findall at 2 3. rewrite (filter_all _ _ Hall).
  set (base := Etree.children base_part) in *.
  set (new_measures := Etree.findall "measure" new_part).
  assert (Hstart : slice_start (List.length base) (at_measure - 1) = Z.to_nat (at_measure - 1)).
  { unfold slice_start.
    assert (E : (at_measure - 1 <? 0)%Z = false) by (apply Z.ltb_ge; lia).
    rewrite E. lia. }
  rewrite Hstart.
  rewrite (renumber_from_before _ _ _ Hall 0%nat) by lia. rewrite Nat.sub_0_r.
  fold (numbered_from at_measure new_measures).
  pose proof (fold_insert_at (at_measure - 1) (numbered_from at_measure new_measures)
                (firstn (Z.to_nat (at_measure - 1)) base) []
                (numbered_from (at_measure + Z.of_nat (List.length new_measures))
                               (skipn (Z.to_nat (at_measure - 1)) base))) as F.
  cbn [List.length app] in F. apply F; [lia|].
  rewrite firstn_length_le; lia.
Qed.

(** *** Looking the base part up *)

Lemma get_set_children (k : string) (e : element) (cs : list element) :
  Etree.get (Etree.set_children e cs) k = Etree.get e k.
Proof. now destruct e. Qed.

Lemma children_set_children (e : element) (cs : list element) :
  Etree.children (Etree.set_children e cs) = cs.
Proof. now destruct e. Qed.

Lemma descendants_set (k v : string) (e : element) :
  descendants (Etree.set e k v) = descendants e.
Proof. now destruct e. Qed.

Lemma descendants_children (e : element) :
  descendants e = flat_map (fun c => c :: descendants c) (Etree.children e).
Proof. now destruct e. Qed.

(** An element is clean when neither it nor anything below it is a part. *)
Lemma no_part_below (e : element) :
  existsb (Etree.has_tag "part") (descendants e) = false
  <-> Forall (fun c => Etree.has_tag "part" c = false
                       /\ existsb (Etree.has_tag "part") (descendants c) = false)
             (Etree.children e).
Proof.
  rewrite descendants_children.
  induction (Etree.children e) as [|c cs IH]; cbn [flat_map app existsb].
  - split; [constructor | reflexivity].
  - rewrite existsb_app, !orb_false_iff, IH. split.
    + intros [H1 [H2 H3]]. now constructor.
    + intros H. inversion H as [|? ? [H1 H2] H3]; subst. now repeat split.
Qed.

(** The merge of a part keeps its tag and attributes. *)
Lemma merge_part_shape (at_measure : option Z) (new_part base_part : element) :
  exists cs, merge_part at_measure new_part base_part = Etree.set_children base_part cs.
Proof. unfold merge_part. destruct at_measure; eauto. Qed.

Lemma is_part_with_id_merge_part (i : string) (at_measure : option Z)
  (new_part base_part : element) :
  is_part_with_id i (merge_part at_measure new_part base_part) = is_part_with_id i base_part.
Proof.
  destruct (merge_part_shape at_measure new_part base_part) as [cs ->].
  unfold is_part_with_id. now rewrite has_tag_set_children, get_set_children.
Qed.

Lemma is_part_with_id_unique (i j : string) (c : element) :
  is_part_with_id i c = true -> is_part_with_id j c = true -> i = j.
Proof.
  unfold is_part_with_id. destruct (Etree.has_tag "part" c); [|discriminate].
  destruct (Etree.get c "id") as [k|]; [|discriminate]. cbn [andb].
  intros Hi Hj. apply String.eqb_eq in Hi, Hj. congruence.
Qed.

Lemma update_first_part_none (i : string) (f : element -> element) (e : element) :
  existsb (Etree.has_tag "part") (descendants e) = false ->
  update_first_part i f e = None.
Proof.
  pattern e. apply element_induction. clear e. intros t a x cs l IH H. apply no_part_below in H. cbn [Etree.children] in H.
  cbn [update_first_part].
  match goal with |- match ?u with _ => _ end = None => assert (E : u = None) end.
  { induction cs as [|c cs IHcs]; [reflexivity|].
    inversion IH as [|? ? IHc IHrest]; subst.
    inversion H as [|? ? [Htag Hdesc] Hrest]; subst.
    cbn [update_first]. unfold is_part_with_id at 1. rewrite Htag. cbn [andb].
    rewrite (IHc Hdesc). now rewrite (IHcs IHrest Hrest). }
  now rewrite E.
Qed.

Lemma part_ids_cons (i : string) (c : element) (cs : list element) :
  is_part_with_id i c = true -> part_ids (c :: cs) = i :: part_ids cs.
Proof.
  unfold is_part_with_id, part_ids. cbn [flat_map].
  destruct (Etree.has_tag "part" c); [|discriminate].
  destruct (Etree.get c "id") as [k|]; [|discriminate]. cbn [andb app].
  intros H. apply String.eqb_eq in H. now subst.
Qed.

Lemma not_listed (i : string) (cs : list element) :
  existsb (String.eqb i) (part_ids cs) = false ->
  existsb (is_part_with_id i) cs = false.
Proof.
  induction cs as [|c cs IH]; [reflexivity|]. cbn [existsb].
  destruct (is_part_with_id i c) eqn:E.
  - rewrite (part_ids_cons _ _ _ E). cbn [existsb]. now rewrite String.eqb_refl.
  - unfold part_ids. cbn [flat_map]. rewrite existsb_app, orb_false_iff.
    intros [_ H]. now apply IH.
Qed.

Lemma distinct_tail (c : element) (cs : list element) :
  distinct (part_ids (c :: cs)) = true -> distinct (part_ids cs) = true.
Proof.
  unfold part_ids. cbn [flat_map].
  destruct (Etree.has_tag "part" c); [|auto].
  destruct (Etree.get c "id"); [|auto]. cbn [app distinct].
  intros H. now apply andb_true_iff in H as [_ H].
Qed.

Lemma map_unmatched (i : string) (f : element -> element) (cs : list element) :
  existsb (is_part_with_id i) cs = false ->
  map (fun c => if is_part_with_id i c then f c else c) cs = cs.
Proof.
  induction cs as [|c cs IH]; [reflexivity|]. cbn [existsb map].
  rewrite orb_false_iff. intros [-> H]. now rewrite IH.
Qed.

(** In a partwise layout with distinct ids, the search changes the one
    part of that id, if there is one. *)
Lemma update_first_at_top (i : string) (f : element -> element) (cs : list element) :
  forallb (fun c => negb (existsb (Etree.has_tag "part") (descendants c))) cs = true ->
  distinct (part_ids cs) = true ->
  update_first (fun c => if is_part_with_id i c then Some (f c)
                         else update_first_part i f c) cs
  = if existsb (is_part_with_id i) cs
    then Some (map (fun c => if is_part_with_id i c then f c else c) cs)
    else None.
Proof.
  induction cs as [|c cs IH]; [reflexivity|].
  cbn [forallb]. rewrite andb_true_iff, negb_true_iff. intros [Hc Hcs] Hd.
  cbn [update_first existsb map].
  destruct (is_part_with_id i c) eqn:E; cbn [orb].
  - rewrite (part_ids_cons _ _ _ E) in Hd. cbn [distinct] in Hd.
    apply andb_true_iff in Hd as [Hd _]. apply negb_true_iff in Hd.
    now rewrite (map_unmatched _ _ _ (not_listed _ _ Hd)).
  - rewrite (update_first_part_none _ _ _ Hc).
    rewrite (IH Hcs (distinct_tail _ _ Hd)).
    now destruct (existsb (is_part_with_id i) cs).
Qed.

(** One turn of the loop over the parts of the addition. *)
Lemma merge_into_at_top (at_measure : option Z) (new_part : element)
  (t : string) (a : list (string * string)) (x : option string) (cs : list element)
  (l : option string) :
  PyStr.contains PyStr.squote (part_id new_part) = false ->
  forallb (fun c => negb (existsb (Etree.has_tag "part") (descendants c))) cs = true ->
  distinct (part_ids cs) = true ->
  merge_into at_measure (Element t a x cs l) new_part
  = Returns (Element t a x
               (map (fun c => if is_part_with_id (part_id new_part) c
                              then merge_part at_measure new_part c else c) cs) l).
Proof.
  intros Hq Htop Hd. unfold merge_into. fold (part_id new_part). rewrite Hq.
  cbn [update_first_part]. rewrite (update_first_at_top _ _ _ Htop Hd).
  destruct (existsb (is_part_with_id (part_id new_part)) cs) eqn:E; [reflexivity|].
  now rewrite (map_unmatched _ _ _ E).
Qed.

(** *** The loop over the parts of the addition *)

Lemma clean_numbered (first : Z) (ms : list element) :
  Forall (fun c => Etree.has_tag "part" c = false
                   /\ existsb (Etree.has_tag "part") (descendants c) = false) ms ->
  Forall (fun c => Etree.has_tag "part" c = false
                   /\ existsb (Etree.has_tag "part") (descendants c) = false)
         (numbered_from first ms).
Proof.
  unfold numbered_from, Etree.enumerate. generalize 0%Z.
  induction ms as [|m ms IH]; intros i H; cbn [Etree.enumerate_from map fst snd].
  - constructor.
  - inversion H as [|? ? Hm Hms]; subst. constructor; [|now apply IH].
    now rewrite has_tag_set, descendants_set.
Qed.

Lemma clean_spliced (at_measure : Z) (ms base : list element) :
  Forall (fun c => Etree.has_tag "part" c = false
                   /\ existsb (Etree.has_tag "part") (descendants c) = false) ms ->
  Forall (fun c => Etree.has_tag "part" c = false
                   /\ existsb (Etree.has_tag "part") (descendants c) = false) base ->
  Forall (fun c => Etree.has_tag "part" c = false
                   /\ existsb (Etree.has_tag "part") (descendants c) = false)
         (spliced at_measure ms base).
Proof.
  intros Hms Hbase. unfold spliced.
  rewrite <- (firstn_skipn (Z.to_nat (at_measure - 1)) base) in Hbase.
  apply Forall_app in Hbase as [H1 H2].
  apply Forall_app. split; [exact H1|].
  apply Forall_app. split; now apply clean_numbered.
Qed.

Lemma existsb_pointwise {A : Type} (f g : A -> bool) (l : list A) :
  (forall x, f x = g x) -> existsb f l = existsb g l.
Proof.
  intros H. induction l as [|x l IH]; [reflexivity|]. cbn [existsb]. now rewrite H, IH.
Qed.

Lemma part_ids_map (h : element -> element) (cs : list element) :
  (forall c, Etree.has_tag "part" (h c) = Etree.has_tag "part" c
             /\ Etree.get (h c) "id" = Etree.get c "id") ->
  part_ids (map h cs) = part_ids cs.
Proof.
  intros H. unfold part_ids.
  induction cs as [|c cs IH]; [reflexivity|]. cbn [map flat_map].
  destruct (H c) as [-> ->]. now rewrite IH.
Qed.

Lemma matched_once (np : element) (nps : list element) (c : element) :
  distinct (map part_id (np :: nps)) = true ->
  is_part_with_id (part_id np) c = true ->
  existsb (fun np' => is_part_with_id (part_id np') c) nps = false.
Proof.
  cbn [map distinct]. rewrite andb_true_iff, negb_true_iff. intros [Hnew _] Hc.
  destruct (existsb _ nps) eqn:E; [|reflexivity].
  apply existsb_exists in E as [np' [Hin Hc']].
  rewrite (is_part_with_id_unique _ _ _ Hc Hc') in Hnew.
  assert (F : existsb (String.eqb (part_id np')) (map part_id nps) = true).
  { apply existsb_exists. exists (part_id np'). split; [now apply in_map | apply String.eqb_refl]. }
  congruence.
Qed.

Lemma merged_part_unmatched (at_measure : Z) (nps : list element) (c : element) :
  existsb (fun np => is_part_with_id (part_id np) c) nps = false ->
  merged_part at_measure nps c = c.
Proof.
  unfold merged_part. intros H.
  destruct (List.find _ nps) as [np|] eqn:E; [|reflexivity].
  apply find_some in E as [Hin Hc].
  assert (F : existsb (fun np => is_part_with_id (part_id np) c) nps = true)
    by (apply existsb_exists; eauto).
  congruence.
Qed.

Lemma merge_loop (at_measure : Z) (t : string) (a : list (string * string))
  (x l : option string) (nps : list element) :
  forall cs,
  distinct (map part_id nps) = true ->
  forallb (fun np => negb (PyStr.contains PyStr.squote (part_id np))) nps = true ->
  Forall (fun np => Forall (fun c => Etree.has_tag "part" c = false
                                     /\ existsb (Etree.has_tag "part") (descendants c) = false)
                           (Etree.findall "measure" np)) nps ->
  forallb (fun c => negb (existsb (Etree.has_tag "part") (descendants c))) cs = true ->
  distinct (part_ids cs) = true ->
  forallb (fun c => if existsb (fun np => is_part_with_id (part_id np) c) nps
                    then splice_position at_measure c else true) cs = true ->
  for_each (merge_into (Some at_measure)) nps (Element t a x cs l)
  = Returns (Element t a x (map (merged_part at_measure nps) cs) l).
Proof.
  induction nps as [|np nps IH]; intros cs Hnew Hq Hclean Htop Hd Hpos.
  - cbn [for_each]. unfold merged_part. cbn [List.find]. now rewrite map_id.
  - cbn [for_each]. cbn [forallb] in Hq. apply andb_true_iff in Hq as [Hq Hqs].
    apply negb_true_iff in Hq.
    rewrite (merge_into_at_top _ _ _ _ _ _ _ Hq Htop Hd). cbn [bind].
    inversion Hclean as [|? ? Hnp Hnps]; subst.
    assert (Hnew' : distinct (map part_id nps) = true).
    { cbn [map distinct] in Hnew. now apply andb_true_iff in Hnew as [_ Hnew]. }
    set (step := fun c => if is_part_with_id (part_id np) c
                          then merge_part (Some at_measure) np c else c).
    assert (Hstep : forall c, In c cs ->
              step c = merged_part at_measure [np] c
              /\ (is_part_with_id (part_id np) c = true ->
                  step c = Etree.set_children c
                             (spliced at_measure (Etree.findall "measure" np)
                                      (Etree.children c)))).
    { intros c Hin. unfold step, merged_part. cbn [List.find].
      destruct (is_part_with_id (part_id np) c) eqn:E; [|split; [reflexivity | discriminate]].
      rewrite forallb_forall in Hpos. specialize (Hpos c Hin).
      cbn [existsb] in Hpos. rewrite E in Hpos. cbn [orb] in Hpos.
      rewrite (merge_part_splices _ _ _ Hpos). now split. }
    assert (Hshape : forall i c, is_part_with_id i (step c) = is_part_with_id i c).
    { intros i c. unfold step. destruct (is_part_with_id (part_id np) c); [|reflexivity].
      apply is_part_with_id_merge_part. }
    rewrite (IH (map step cs) Hnew' Hqs Hnps).
    + f_equal. f_equal. rewrite map_map. apply map_ext_in. intros c Hin.
      destruct (Hstep c Hin) as [_ Hm].
      unfold merged_part at 2. cbn [List.find].
      destruct (is_part_with_id (part_id np) c) eqn:E.
      * rewrite merged_part_unmatched; [now apply Hm|].
        erewrite existsb_pointwise; [apply (matched_once np nps c Hnew E)|].
        intros np'. apply Hshape.
      * unfold step. rewrite E. reflexivity.
    + apply forallb_forall. intros c1 Hin1.
      apply in_map_iff in Hin1 as [c [<- Hin]].
      rewrite forallb_forall in Htop. specialize (Htop c Hin).
      destruct (is_part_with_id (part_id np) c) eqn:E.
      * destruct (Hstep c Hin) as [_ Hm]. rewrite (Hm E).
        apply negb_true_iff. apply no_part_below. rewrite children_set_children.
        apply clean_spliced; [exact Hnp|].
        apply no_part_below. now apply negb_true_iff.
      * unfold step. now rewrite E.
    + rewrite part_ids_map; [exact Hd|]. intros c. unfold step.
      destruct (is_part_with_id (part_id np) c); [|now split].
      destruct (merge_part_shape (Some at_measure) np c) as [cs' ->].
      now rewrite has_tag_set_children, get_set_children.
    + apply forallb_forall. intros c1 Hin1.
      apply in_map_iff in Hin1 as [c [<- Hin]].
      erewrite existsb_pointwise; [|intros np'; apply Hshape].
      destruct (is_part_with_id (part_id np) c) eqn:E.
      * now rewrite (matched_once np nps c Hnew E).
      * rewrite forallb_forall in Hpos. specialize (Hpos c Hin).
        cbn [existsb] in Hpos. rewrite E in Hpos. cbn [orb] in Hpos.
        unfold step. now rewrite E.
Qed.

Lemma get_set_same (e : element) (k v : string) : Etree.get (Etree.set e k v) k = Some v.
Proof.
  destruct e as [t a x cs l]. unfold Etree.get. cbn [Etree.set Etree.attrib].
  induction a as [|[k' v'] a IH]; cbn [Etree.update Etree.lookup].
  - now rewrite String.eqb_refl.
  - destruct (String.eqb k' k) eqn:E; cbn [Etree.lookup]; rewrite E; [reflexivity | exact IH].
Qed.

(** The measure of rank [i] among those numbered from [first] carries the
    number [first + i], and is otherwise the measure it was. *)
Lemma numbered_from_nth (first : Z) (ms : list element) (i : nat) (m : element) :
  nth_error ms i = Some m ->
  nth_error (numbered_from first ms) i
  = Some (Etree.set m "number" (PyStr.of_int (first + Z.of_nat i))).
Proof.
  revert first i. induction ms as [|m0 ms IH]; intros first i H.
  - now destruct i.
  - unfold numbered_from, Etree.enumerate. cbn [Etree.enumerate_from map fst snd].
    destruct i as [|i]; cbn [nth_error] in *.
    + injection H as <-. reflexivity.
    + change (0 + 1)%Z with 1%Z. rewrite numbered_shift. rewrite (IH _ _ H).
      do 3 f_equal. lia.
Qed.

(** The splice on documents in partwise layout.  When both documents
    parse, are laid out partwise (the parts are children of the root and
    hold measures only) with ids that
    identify their parts, and [at_measure] is a position among the
    measures of every base part that has a counterpart in the addition (or
    the position after its last measure), [merge_musicxml] returns the base
    in which each such part has received the splice: its measures before
    the position, then the measures of the addition numbered [at_measure],
    [at_measure + 1], ..., then its measures from the position on, each
    numbered by its old position plus the length of the addition.  The
    other children of the base root are unchanged.  On a base of two measures and an addition
    of three, spliced at 2, the addition holds the numbers 2 to 4 and the
    second measure of the base becomes measure 5. *)
Theorem merge_splices_and_renumbers :
  (forall (fromstring : string -> py_result element) (tostring : element -> string)
          (base_xml new_xml : string) (at_measure : Z) (base_root new_root : element),
     fromstring base_xml = Returns base_root ->
     fromstring new_xml = Returns new_root ->
     mergeable at_measure base_root new_root = true ->
     merge_trees (Some at_measure) base_root new_root
     = Returns (Etree.set_children base_root
                  (map (merged_part at_measure (Etree.findall "part" new_root))
                       (Etree.children base_root)))
     /\ merge_musicxml fromstring tostring base_xml new_xml (Some at_measure)
        = Returns (xml_declaration
                   ++ tostring (Etree.set_children base_root
                                  (map (merged_part at_measure (Etree.findall "part" new_root))
                                       (Etree.children base_root)))))
  /\ (forall (first : Z) (ms : list element) (i : nat) (m : element),
        nth_error ms i = Some m ->
        exists m', nth_error (numbered_from first ms) i = Some m'
                   /\ Etree.get m' "number" = Some (PyStr.of_int (first + Z.of_nat i))
                   /\ Etree.tag m' = Etree.tag m
                   /\ Etree.children m' = Etree.children m)
  /\ option_map Scenario.measure_summary
       (match Scenario.merge Scenario.base_2 Scenario.addition_3 (Some 2%Z) with
        | Returns s => Xml.ET_fromstring s
        | Raises _ => None
        end)
     = Some [("P1", [(Some "1", ["x"]); (Some "2", ["a"]); (Some "3", ["b"]);
                     (Some "4", ["c"]); (Some "5", ["y"])])].
Proof.
  split; [|split].
  - intros fromstring tostring base_xml new_xml at_measure base_root new_root
           Hbase Hnew Hok.
    assert (Htrees :
      merge_trees (Some at_measure) base_root new_root
      = Returns (Etree.set_children base_root
                   (map (merged_part at_measure (Etree.findall "part" new_root))
                        (Etree.children base_root)))).
    { unfold mergeable in Hok.
      repeat (apply andb_true_iff in Hok as [Hok ?]).
      destruct base_root as [t a x cs l]. unfold merge_trees.
      cbn [Etree.set_children Etree.children] in *.
      apply merge_loop; try assumption.
      apply Forall_forall. intros np Hnp.
      apply filter_In in Hnp as [Hnp _].
      unfold parts_at_top in *. 
      match goal with H : forallb _ (Etree.children new_root) = true |- _ =>
        rewrite forallb_forall in H; specialize (H np Hnp);
        apply negb_true_iff in H; apply no_part_below in H; rename H into Hc end.
      apply Forall_forall. intros m Hm. apply filter_In in Hm as [Hm _].
      rewrite Forall_forall in Hc. now apply Hc. }
    split; [exact Htrees|].
    unfold merge_musicxml. rewrite Hbase, Hnew. cbn [bind]. now rewrite Htrees.
  - intros first ms i m H. eexists. split; [apply (numbered_from_nth _ _ _ _ H)|].
    split; [apply get_set_same|]. now destruct m.
  - vm_compute. reflexivity.
Qed.

Lemma merge_splices_and_renumbers_witness :
  exists base_root new_root,
    Xml.fromstring Scenario.base_2 = Returns base_root
    /\ Xml.fromstring Scenario.addition_3 = Returns new_root
    /\ Scenario.merge Scenario.base_2 Scenario.addition_3 (Some 2%Z)
       = Returns (xml_declaration
                  ++ Xml.tostring
                       (Etree.set_children base_root
                          (map (merged_part 2 (Etree.findall "part" new_root))
                               (Etree.children base_root)))).
Proof.
  eexists. eexists. split; [vm_compute; reflexivity|]. split; [vm_compute; reflexivity|].
  apply (proj1 merge_splices_and_renumbers Xml.fromstring Xml.tostring).
  - vm_compute. reflexivity.
  - vm_compute. reflexivity.
  - vm_compute. reflexivity.
Defined.

(** C4 (code defect): [merge_musicxml] inserts the measures of the addition
    by child index ([base_part.insert(insert_at_measure - 1 + i, measure)])
    and renumbers the base by measure index
    ([base_measures[insert_at_measure - 1:]]).  On the base of two measures
    and the addition of three, spliced at 2, the two agree: the addition
    holds the numbers 2 to 4 and the second measure of the base becomes
    measure 5.  With one child that is no measure in front of the measures of
    the base part they do not: the addition lands before the first measure
    of the base, and the measures of the merged part read 2, 3, 4, 1, 5. *)
Theorem merge_inserts_by_child_index :
  summary_of (Scenario.merge Scenario.base_2 Scenario.addition_3 (Some 2%Z))
  = Some [("P1", [(Some "1", ["x"]); (Some "2", ["a"]); (Some "3", ["b"]);
                  (Some "4", ["c"]); (Some "5", ["y"])])]
  /\ summary_of (Scenario.merge base_with_lead Scenario.addition_3 (Some 2%Z))
     = Some [("P1", [(Some "2", ["a"]); (Some "3", ["b"]); (Some "4", ["c"]);
                     (Some "1", ["x"]); (Some "5", ["y"])])]
  /\ option_map (fun root => map (fun part => map Etree.tag (Etree.children part))
                                 (Etree.findall "part" root))
                (Xml.ET_fromstring base_with_lead)
     = Some [["print"; "measure"; "measure"]].
Proof. repeat split; vm_compute; reflexivity. Qed.

(** ** Further properties of the key table *)

(** [fifths_to_key] fails on one input only: seven flats, where the index
    runs past the table.  Every other count, in range or not, gives a key. *)
Theorem fifths_to_key_raises_only_for_seven_flats (fifths : Z) (mode : string) :
  returns (fifths_to_key fifths mode) = negb (fifths =? -7)%Z
  /\ fifths_to_key (-7) mode = Raises (Exn IndexError "list index out of range").
Proof.
  split.
  - unfold fifths_to_key.
    destruct (fifths >=? 0)%Z eqn:Hs.
    + destruct (fifths <? 8)%Z eqn:Hlt.
      * assert (H : (fifths = 0 \/ fifths = 1 \/ fifths = 2 \/ fifths = 3 \/ fifths = 4
                     \/ fifths = 5 \/ fifths = 6 \/ fifths = 7)%Z) by lia.
        destruct (String.eqb mode "major");
          repeat (destruct H as [->|H]; [reflexivity|]); subst; reflexivity.
      * assert (E : (fifths =? -7)%Z = false) by lia. rewrite E.
        now destruct (String.eqb mode "major").
    + destruct (Z.abs fifths <? 8)%Z eqn:Hlt.
      * assert (H : (fifths = -1 \/ fifths = -2 \/ fifths = -3 \/ fifths = -4
                     \/ fifths = -5 \/ fifths = -6 \/ fifths = -7)%Z) by lia.
        destruct (String.eqb mode "major");
          repeat (destruct H as [->|H]; [reflexivity|]); subst; reflexivity.
      * assert (E : (fifths =? -7)%Z = false) by lia. rewrite E.
        now destruct (String.eqb mode "major").
  - unfold fifths_to_key. now destruct (String.eqb mode "major").
Qed.

(** A count outside -7..7 is not rejected: above the range it gives the
    key without accidentals, below it the key with one flat. *)
Theorem fifths_to_key_out_of_range (fifths : Z) (mode : string)
  (Hout : (8 <= fifths \/ fifths <= -8)%Z) :
  fifths_to_key fifths mode
  = Returns (if String.eqb mode "major"
             then (if (0 <? fifths)%Z then "C" else "F")
             else (if (0 <? fifths)%Z then "a" else "d")).
Proof.
  unfold fifths_to_key. destruct Hout as [H|H].
  - assert (E1 : (fifths >=? 0)%Z = true) by lia.
    assert (E2 : (fifths <? 8)%Z = false) by lia.
    assert (E3 : (0 <? fifths)%Z = true) by lia.
    rewrite E1, E2, E3. now destruct (String.eqb mode "major").
  - assert (E1 : (fifths >=? 0)%Z = false) by lia.
    assert (E2 : (Z.abs fifths <? 8)%Z = false) by lia.
    assert (E3 : (0 <? fifths)%Z = false) by lia.
    rewrite E1, E2, E3. now destruct (String.eqb mode "major").
Qed.

Lemma fifths_to_key_out_of_range_witness :
  fifths_to_key 9 "major" = Returns "C" /\ fifths_to_key (-12) "minor" = Returns "d".
Proof.
  split.
  - apply (fifths_to_key_out_of_range 9 "major"). left. lia.
  - apply (fifths_to_key_out_of_range (-12) "minor"). right. lia.
Defined.

(** ** Further properties of the streaming loop *)

Lemma prefix_app_l (p a b : string) :
  String.prefix p a = true -> String.prefix p (a ++ b) = true.
Proof.
  revert a. induction p as [|c p IH]; intros a H; [now destruct (a ++ b)|].
  destruct a as [|d a]; [discriminate|]. cbn [append String.prefix] in *.
  destruct (ascii_dec c d); [now apply IH | discriminate].
Qed.

Lemma contains_app_l (needle a b : string) :
  PyStr.contains needle a = true -> PyStr.contains needle (a ++ b) = true.
Proof.
  unfold PyStr.contains.
  induction a as [|c a IH]; cbn [PyStr.find append].
  - destruct (String.prefix needle "") eqn:E; [|discriminate]. intros _.
    destruct needle; [|discriminate]. now destruct b.
  - destruct (String.prefix needle (String c a)) eqn:E.
    + intros _. pose proof (prefix_app_l _ (String c a) b E) as P.
      cbn [append] in P. now rewrite P.
    + destruct (String.prefix needle (String c (a ++ b))); [reflexivity|].
      destruct (PyStr.find needle a); [|discriminate]. intros _.
      destruct (PyStr.find needle (a ++ b)); [reflexivity|].
      specialize (IH eq_refl). discriminate.
Qed.

Lemma concat_cons (x : string) (xs : list string) :
  String.concat "" (x :: xs) = x ++ String.concat "" xs.
Proof. destruct xs; cbn [String.concat append]; [now rewrite append_nil_r | reflexivity]. Qed.

Section StreamMore.

Variable ET_fromstring : string -> option element.

(** The buffer is the concatenation of the increments received. *)
Lemma stream_loop_accumulates (texts : list string) (st : stream_state) :
  accumulated_text (fst (stream_loop ET_fromstring st texts))
  = accumulated_text st ++ String.concat "" texts.
Proof.
  revert st. induction texts as [|text texts IH]; intros st; cbn [stream_loop].
  - cbn [fst String.concat]. now rewrite append_nil_r.
  - specialize (IH (fst (on_text ET_fromstring st text))).
    destruct (on_text ET_fromstring st text) as [st1 out1] eqn:E1.
    cbn [fst] in IH.
    destruct (stream_loop ET_fromstring st1 texts) as [st2 out2].
    cbn [fst] in *. rewrite IH, concat_cons, <- append_assoc. f_equal.
    unfold on_text in E1.
    destruct (truthy _); [destruct (_ <? _)%nat|]; injection E1 as <- _; reflexivity.
Qed.

(** Without a complete measure in the buffer there is no snapshot. *)
Lemma reconstruct_needs_measure (text : string) :
  PyStr.contains "</measure>" text = false ->
  _try_extract_partial_musicxml ET_fromstring text = None.
Proof.
  intros H. unfold _try_extract_partial_musicxml. rewrite H.
  destruct (negb (PyStr.contains "<score-partwise" text)); [reflexivity|].
  now destruct (negb (PyStr.contains "</part-list>" text)).
Qed.

Lemma on_text_without_snapshot (st : stream_state) (text : string) :
  _try_extract_partial_musicxml ET_fromstring (accumulated_text st ++ text) = None ->
  on_text ET_fromstring st text
  = (StreamState (accumulated_text st ++ text) (last_rendered_measures st), [Text text]).
Proof. intros H. unfold on_text. now rewrite H. Qed.

(** While no measure is complete, the loop passes every increment on as a
    text chunk, unchanged and in order. *)
Lemma stream_loop_passes_text_through (texts : list string) :
  PyStr.contains "</measure>" (String.concat "" texts) = false ->
  chat_stream ET_fromstring texts = map Text texts.
Proof.
  intros Hnone.
  unfold chat_stream.
  assert (H : forall st,
    PyStr.contains "</measure>" (accumulated_text st ++ String.concat "" texts) = false ->
    snd (stream_loop ET_fromstring st texts) = map Text texts).
  { clear Hnone. induction texts as [|text texts IH]; intros st Hst; [reflexivity|].
    cbn [stream_loop map]. rewrite concat_cons, <- append_assoc in Hst.
    assert (Hnow : PyStr.contains "</measure>" (accumulated_text st ++ text) = false).
    { destruct (PyStr.contains "</measure>" (accumulated_text st ++ text)) eqn:E;
        [|reflexivity].
      now rewrite (contains_app_l _ _ (String.concat "" texts) E) in Hst. }
    rewrite (on_text_without_snapshot _ _ (reconstruct_needs_measure _ Hnow)).
    specialize (IH (StreamState (accumulated_text st ++ text) (last_rendered_measures st)) Hst).
    destruct (stream_loop ET_fromstring _ texts) as [st2 out2].
    cbn [snd app] in *. now rewrite IH. }
  apply H. exact Hnone.
Qed.

(** While the text of the answer holds no complete measure, [chat_stream]
    yields every increment as a text chunk, unchanged and in order, then
    the [complete] chunk with the whole text and the MusicXML extracted
    from it, and nothing else. *)
Theorem chat_stream_passes_text_through (texts : list string)
  (Hnone : PyStr.contains "</measure>" (String.concat "" texts) = false) :
  chat_stream_generator ET_fromstring texts
  = (map (fun text => Yielded (Text text)) texts
     ++ [Complete (final_musicxml (String.concat "" texts)) (String.concat "" texts)])%list.
Proof.
  unfold chat_stream_generator.
  rewrite (stream_loop_passes_text_through texts Hnone), stream_loop_accumulates, map_map.
  reflexivity.
Qed.

End StreamMore.

Lemma chat_stream_passes_text_through_witness :
  chat_stream_generator Xml.ET_fromstring ["Here is "; "a tune: <score-partwise><part-list>"]
  = [Yielded (Text "Here is "); Yielded (Text "a tune: <score-partwise><part-list>");
     Complete None "Here is a tune: <score-partwise><part-list>"].
Proof.
  apply (chat_stream_passes_text_through Xml.ET_fromstring
           ["Here is "; "a tune: <score-partwise><part-list>"]).
  vm_compute. reflexivity.
Defined.

Section StreamChunks.

Variable ET_fromstring : string -> option element.

(** What one turn yields. *)
Lemma on_text_cases (st : stream_state) (text : string) :
  accumulated_text (fst (on_text ET_fromstring st text)) = accumulated_text st ++ text
  /\ last_rendered_measures st <= last_rendered_measures (fst (on_text ET_fromstring st text))
  /\ (snd (on_text ET_fromstring st text) = []
      \/ snd (on_text ET_fromstring st text) = [Text text]
      \/ exists xml,
           snd (on_text ET_fromstring st text)
           = [Partial xml (PyStr.count "</measure>" xml)]
           /\ _try_extract_partial_musicxml ET_fromstring (accumulated_text st ++ text)
              = Some xml
           /\ last_rendered_measures st < PyStr.count "</measure>" xml).
Proof.
  unfold on_text.
  destruct (_try_extract_partial_musicxml ET_fromstring (accumulated_text st ++ text))
    as [xml|] eqn:E.
  - destruct (truthy (Some xml)).
    + destruct (last_rendered_measures st <? PyStr.count "</measure>" xml)%nat eqn:L;
        cbn [fst snd accumulated_text last_rendered_measures].
      * apply Nat.ltb_lt in L. repeat split; [lia|]. right. right. now exists xml.
      * repeat split; [lia|]. now left.
    + cbn [fst snd accumulated_text last_rendered_measures].
      repeat split; [lia|]. right. now left.
  - cbn [truthy fst snd accumulated_text last_rendered_measures].
    repeat split; [lia|]. right. now left.
Qed.

Lemma stream_loop_chunks (texts : list string) :
  forall st,
    (List.length (snd (stream_loop ET_fromstring st texts)) <= List.length texts)%nat
    /\ forall c, In c (snd (stream_loop ET_fromstring st texts)) ->
         match c with
         | Text t => In t texts
         | Partial xml n =>
             last_rendered_measures st < n
             /\ n = PyStr.count "</measure>" xml
             /\ exists k, (k <= List.length texts)%nat
                  /\ _try_extract_partial_musicxml ET_fromstring
                       (accumulated_text st ++ String.concat "" (firstn k texts))
                     = Some xml
         end.
Proof.
  induction texts as [|text texts IH]; intros st; cbn [stream_loop].
  - split; [cbn; lia | intros c []].
  - destruct (on_text_cases st text) as (Hacc & Hle & Hout).
    destruct (on_text ET_fromstring st text) as [st1 out1].
    destruct (IH st1) as [Hlen Hin].
    destruct (stream_loop ET_fromstring st1 texts) as [st2 out2].
    cbn [fst snd] in *. split.
    + rewrite length_app. cbn [List.length].
      destruct Hout as [-> | [-> | [xml [-> _]]]]; cbn [List.length]; lia.
    + intros c Hc. apply in_app_or in Hc as [Hc|Hc].
      * destruct Hout as [E | [E | [xml [E [Hxml Hlt]]]]]; rewrite E in Hc;
          [destruct Hc | |]; destruct Hc as [<-|[]].
        -- now left.
        -- split; [exact Hlt|]. split; [reflexivity|].
           exists 1%nat. split; [cbn; lia|].
           cbn [firstn]. now rewrite concat_cons, append_nil_r.
      * specialize (Hin c Hc). destruct c as [xml n|t]; [|now right].
        destruct Hin as (Hlt & Hn & k & Hk & Hxml).
        split; [lia|]. split; [exact Hn|].
        exists (S k). split; [cbn; lia|].
        cbn [firstn]. now rewrite concat_cons, <- append_assoc, <- Hacc.
Qed.

(** A session yields at most one chunk per increment.  A text chunk
    carries one of the increments; a partial chunk carries the snapshot
    of the buffer as it stood after some increment, with the number of
    complete measures of that snapshot, which is at least one. *)
Theorem chat_stream_chunks (texts : list string) :
  (List.length (chat_stream ET_fromstring texts) <= List.length texts)%nat
  /\ Forall (fun c =>
       match c with
       | Text t => In t texts
       | Partial xml n =>
           1 <= n
           /\ n = PyStr.count "</measure>" xml
           /\ exists k, (k <= List.length texts)%nat
                /\ _try_extract_partial_musicxml ET_fromstring
                     (String.concat "" (firstn k texts))
                   = Some xml
       end) (chat_stream ET_fromstring texts).
Proof.
  destruct (stream_loop_chunks texts stream_start) as [Hlen Hin].
  split; [exact Hlen|]. apply Forall_forall. intros c Hc.
  specialize (Hin c Hc). destruct c as [xml n|t]; [|exact Hin].
  destruct Hin as (Hlt & Hn & k & Hk & Hxml). cbn in Hlt.
  split; [lia|]. split; [exact Hn|]. now exists k.
Qed.

End StreamChunks.

(** ** The shape of a snapshot *)

Lemma find_prefix (needle s : string) (i : nat) :
  PyStr.find needle s = Some i -> String.prefix needle (PyStr.drop i s) = true.
Proof.
  revert i. induction s as [|c s IH]; intros i; cbn [PyStr.find].
  - destruct (String.prefix needle "") eqn:E; [|discriminate].
    intros H. injection H as <-. exact E.
  - destruct (String.prefix needle (String c s)) eqn:E.
    + intros H. injection H as <-. exact E.
    + destruct (PyStr.find needle s) as [k|]; [|discriminate].
      intros H. injection H as <-. cbn [PyStr.drop]. now apply IH.
Qed.

Lemma rfind_prefix (needle s : string) (j : nat) :
  PyStr.rfind needle s = Some j -> String.prefix needle (PyStr.drop j s) = true.
Proof.
  revert j. induction s as [|c s IH]; intros j; cbn [PyStr.rfind].
  - destruct (String.prefix needle "") eqn:E; [|discriminate].
    intros H. injection H as <-. exact E.
  - destruct (PyStr.rfind needle s) as [k|].
    + intros H. injection H as <-. cbn [PyStr.drop]. now apply IH.
    + destruct (String.prefix needle (String c s)) eqn:E; [|discriminate].
      intros H. injection H as <-. exact E.
Qed.

Lemma prefix_split (p s : string) :
  String.prefix p s = true -> exists r, s = p ++ r.
Proof.
  revert s. induction p as [|c p IH]; intros s H; [now exists s|].
  destruct s as [|d s]; [discriminate|]. cbn [String.prefix] in H.
  destruct (ascii_dec c d) as [->|]; [|discriminate].
  destruct (IH s H) as [r ->]. now exists r.
Qed.

Lemma take_add (n m : nat) (s : string) :
  PyStr.take (n + m) s = PyStr.take n s ++ PyStr.take m (PyStr.drop n s).
Proof.
  revert s. induction n as [|n IH]; intros s; [reflexivity|].
  destruct s as [|c s]; cbn [Nat.add PyStr.take PyStr.drop append].
  - now destruct m.
  - now rewrite IH.
Qed.

Lemma take_prefix (p r : string) : PyStr.take (String.length p) (p ++ r) = p.
Proof. induction p as [|c p IH]; cbn; [now destruct r | now rewrite IH]. Qed.

Section SnapshotShape.

Variable ET_fromstring : string -> option element.

(** A snapshot is the standard XML declaration, then the buffer from its
    first root tag up to its last closing measure tag, then closing part
    tags and the closing root tag.  Whatever precedes the root tag in the
    buffer (prose, a code fence, a declaration of its own) is left out, and
    the declaration is always added. *)
Theorem snapshot_shape (text snapshot : string)
  (Hsnap : _try_extract_partial_musicxml ET_fromstring text = Some snapshot) :
  exists i j k,
    PyStr.find "<score-partwise" text = Some i
    /\ PyStr.rfind "</measure>" (PyStr.drop i text) = Some j
    /\ snapshot = xml_declaration
                  ++ PyStr.take j (PyStr.drop i text) ++ "</measure>"
                  ++ repeat_str (PyStr.nl ++ "  </part>") k
                  ++ PyStr.nl ++ "</score-partwise>".
Proof.
  unfold _try_extract_partial_musicxml in Hsnap.
  destruct (negb _); [discriminate|].
  destruct (negb _); [discriminate|].
  destruct (negb _); [discriminate|].
  unfold search_score_partwise in Hsnap.
  destruct (PyStr.find "<score-partwise" text) as [i|] eqn:Hi; [|discriminate].
  destruct (PyStr.contains ">" _); [|discriminate].
  destruct (PyStr.rfind "</measure>" (PyStr.drop i text)) as [j|] eqn:Hj; [|discriminate].
  exists i, j. eexists. split; [reflexivity|]. split; [exact Hj|].
  destruct (prefix_split _ _ (find_prefix _ _ _ Hi)) as [r Hr].
  destruct (prefix_split _ _ (rfind_prefix _ _ _ Hj)) as [r' Hr'].
  rewrite take_add in Hsnap. rewrite Hr' in Hsnap.
  rewrite (take_prefix "</measure>" r') in Hsnap.
  assert (Hdecl : PyStr.startswith "<?xml"
            (((PyStr.take j (PyStr.drop i text) ++ "</measure>")
              ++ repeat_str (PyStr.nl ++ "  </part>")
                   (Z.to_nat
                      (Z.of_nat (PyStr.count "<part "
                                   (PyStr.take j (PyStr.drop i text) ++ "</measure>"))
                       + Z.of_nat (PyStr.count "<part>"
                                     (PyStr.take j (PyStr.drop i text) ++ "</measure>"))
                       - Z.of_nat (PyStr.count "</part>"
                                     (PyStr.take j (PyStr.drop i text) ++ "</measure>")))))
             ++ PyStr.nl ++ "</score-partwise>") = false).
  { rewrite Hr. destruct j as [|[|j]]; reflexivity. }
  rewrite Hdecl in Hsnap.
  destruct (ET_fromstring _); [|discriminate].
  injection Hsnap as <-. now rewrite !append_assoc.
Qed.

End SnapshotShape.

Lemma snapshot_shape_witness :
  exists i j k,
    PyStr.find "<score-partwise" Scenario.chat_buffer = Some i
    /\ PyStr.rfind "</measure>" (PyStr.drop i Scenario.chat_buffer) = Some j
    /\ match Scenario.reconstruct Scenario.chat_buffer with
       | Some s => s
       | None => ""
       end
       = xml_declaration
         ++ PyStr.take j (PyStr.drop i Scenario.chat_buffer) ++ "</measure>"
         ++ repeat_str (PyStr.nl ++ "  </part>") k
         ++ PyStr.nl ++ "</score-partwise>".
Proof.
  apply (snapshot_shape Xml.ET_fromstring Scenario.chat_buffer).
  vm_compute. reflexivity.
Defined.

(** ** Further properties of the validator *)

Lemma skeleton_tag (e : element) : Etree.tag (skeleton e) = Etree.tag e.
Proof. now destruct e. Qed.

Lemma skeleton_get (e : element) (k : string) : Etree.get (skeleton e) k = Etree.get e k.
Proof. now destruct e. Qed.

Lemma skeleton_children (e : element) :
  Etree.children (skeleton e) = map skeleton (Etree.children e).
Proof. now destruct e. Qed.

Lemma skeleton_findall (t : string) (e : element) :
  Etree.findall t (skeleton e) = map skeleton (Etree.findall t e).
Proof.
  unfold Etree.findall. rewrite skeleton_children.
  induction (Etree.children e) as [|c cs IH]; [reflexivity|]. cbn [map filter].
  replace (Etree.has_tag t (skeleton c)) with (Etree.has_tag t c)
    by (unfold Etree.has_tag; now rewrite skeleton_tag).
  destruct (Etree.has_tag t c); cbn [map]; now rewrite IH.
Qed.

Lemma check_parts_skeleton (parts : list element) :
  check_parts (map skeleton parts) = check_parts parts.
Proof.
  induction parts as [|p ps IH]; [reflexivity|]. cbn [map check_parts].
  rewrite skeleton_findall, length_map. unfold Etree.get_default.
  now rewrite skeleton_get, IH.
Qed.

(** The checks read tags, nesting and the [id] of parts, nothing else. *)
Lemma check_root_skeleton (root : element) : check_root (skeleton root) = check_root root.
Proof.
  unfold check_root, Etree.find. rewrite skeleton_tag, !skeleton_findall, length_map.
  destruct (negb _); [reflexivity|].
  destruct (Etree.findall "part-list" root); cbn [map]; [reflexivity|].
  destruct (_ =? 0)%nat; [reflexivity|]. apply check_parts_skeleton.
Qed.



(** ** Further properties of the excerpt *)

Lemma remove_outside_returns (start end_ : Z) (cs : list element) :
  returns (remove_outside start end_ cs)
  = forallb (fun m => returns (measure_number m)) (filter (Etree.has_tag "measure") cs).
Proof.
  induction cs as [|c cs IH]; [reflexivity|]. cbn [remove_outside filter].
  destruct (Etree.has_tag "measure" c); cbn [forallb].
  - destruct (measure_number c) as [num|e]; cbn [bind returns andb]; [|reflexivity].
    rewrite <- IH. now destruct (remove_outside start end_ cs).
  - rewrite <- IH. now destruct (remove_outside start end_ cs).
Qed.

Lemma remove_outside_keeps (start end_ : Z) (cs : list element) :
  forallb (fun m => returns (measure_number m)) (filter (Etree.has_tag "measure") cs) = true ->
  remove_outside start end_ cs
  = Returns (filter (fun c => negb (Etree.has_tag "measure" c) || in_range start end_ c) cs).
Proof.
  induction cs as [|c cs IH]; intros Hnum; [reflexivity|].
  cbn [remove_outside filter] in *. unfold in_range at 1.
  destruct (Etree.has_tag "measure" c) eqn:Hc; cbn [negb forallb orb] in *.
  - apply andb_true_iff in Hnum as [Hn Hnum].
    destruct (measure_number c) as [num|]; [|discriminate]. cbn [bind].
    rewrite (IH Hnum). cbn [bind].
    assert (E : ((num <? start) || (num >? end_))%Z
                = negb ((start <=? num) && (num <=? end_))%Z).
    { rewrite Z.gtb_ltb.
      destruct (Z.ltb_spec num start), (Z.leb_spec start num),
               (Z.ltb_spec end_ num), (Z.leb_spec num end_); try lia; reflexivity. }
    rewrite E. now destruct ((start <=? num) && (num <=? end_))%Z.
  - now rewrite (IH Hnum).
Qed.

Lemma renumber_measures (i : Z) (cs : list element) :
  filter (Etree.has_tag "measure") (renumber i cs)
  = numbered_from (i + 1) (filter (Etree.has_tag "measure") cs)
  /\ filter (fun c => negb (Etree.has_tag "measure" c)) (renumber i cs)
     = filter (fun c => negb (Etree.has_tag "measure" c)) cs.
Proof.
  revert i. induction cs as [|c cs IH]; intros i; [now split|].
  cbn [renumber filter]. destruct (Etree.has_tag "measure" c) eqn:Hc.
  - cbn [filter]. rewrite has_tag_set, Hc. cbn [negb].
    destruct (IH (i + 1)%Z) as [-> ->]. split; [|reflexivity].
    unfold numbered_from at 2, Etree.enumerate.
    cbn [Etree.enumerate_from map fst snd]. rewrite Z.add_0_r. f_equal.
    change (0 + 1)%Z with 1%Z. now rewrite numbered_shift.
  - cbn [filter]. rewrite Hc. cbn [negb]. destruct (IH i) as [-> ->]. now split.
Qed.

Lemma filter_filter_and {A : Type} (f g : A -> bool) (l : list A) :
  filter f (filter g l) = filter (fun x => g x && f x) l.
Proof.
  induction l as [|x l IH]; [reflexivity|]. cbn [filter].
  destruct (g x); cbn [filter andb]; [destruct (f x)|]; now rewrite IH.
Qed.

Lemma filter_pointwise {A : Type} (f g : A -> bool) (l : list A) :
  (forall x, f x = g x) -> filter f l = filter g l.
Proof.
  intros H. induction l as [|x l IH]; [reflexivity|]. cbn [filter]. now rewrite H, IH.
Qed.

(** The measures of an excerpt are the measures of the range, in order,
    numbered from 1; the other children of the part are untouched. *)
Lemma excerpt_of_measures (start end_ : Z) (part : element) :
  Etree.findall "measure" (excerpt_of start end_ part)
  = numbered_from 1 (filter (in_range start end_) (Etree.findall "measure" part))
  /\ filter (fun c => negb (Etree.has_tag "measure" c))
            (Etree.children (excerpt_of start end_ part))
     = filter (fun c => negb (Etree.has_tag "measure" c)) (Etree.children part).
Proof.
  unfold excerpt_of, Etree.findall. rewrite children_set_children.
  destruct (renumber_measures 0
              (filter (fun c => negb (Etree.has_tag "measure" c) || in_range start end_ c)
                      (Etree.children part))) as [-> ->].
  rewrite !filter_filter_and. split.
  - f_equal. apply filter_pointwise. intros c.
    now destruct (Etree.has_tag "measure" c), (in_range start end_ c).
  - apply filter_pointwise. intros c.
    now destruct (Etree.has_tag "measure" c), (in_range start end_ c).
Qed.

Lemma extract_part_keeps (start end_ : Z) (part : element) :
  forallb (fun m => returns (measure_number m)) (Etree.findall "measure" part) = true ->
  extract_part start end_ part = Returns (excerpt_of start end_ part).
Proof.
  intros Hn. unfold extract_part. now rewrite (remove_outside_keeps _ _ _ Hn).
Qed.

Lemma map_m_returns {A B : Type} (f : A -> py_result B) (l : list A) :
  returns (map_m f l) = forallb (fun x => returns (f x)) l.
Proof.
  induction l as [|x l IH]; [reflexivity|]. cbn [map_m forallb].
  destruct (f x); cbn [bind returns andb]; [|reflexivity].
  rewrite <- IH. now destruct (map_m f l).
Qed.

(** The tree of the excerpt: every part is replaced by its excerpt. *)
Lemma extract_tree_excerpt (start end_ : Z) (root : element) :
  integer_numbers root = true ->
  extract_tree start end_ root
  = Returns (Etree.set_children root
               (map (fun c => if Etree.has_tag "part" c then excerpt_of start end_ c else c)
                    (Etree.children root))).
Proof.
  intros Hnum. unfold extract_tree. unfold integer_numbers, Etree.findall in Hnum.
  assert (H : map_m (fun c => if Etree.has_tag "part" c
                              then extract_part start end_ c else Returns c)
                    (Etree.children root)
              = Returns (map (fun c => if Etree.has_tag "part" c
                                       then excerpt_of start end_ c else c)
                             (Etree.children root))).
  { induction (Etree.children root) as [|c cs IH]; [reflexivity|].
    cbn [map_m map filter] in *.
    destruct (Etree.has_tag "part" c) eqn:Hc.
    - cbn [forallb] in Hnum. apply andb_true_iff in Hnum as [Hn Hnum].
      rewrite (extract_part_keeps _ _ _ Hn). cbn [bind].
      now rewrite (IH Hnum).
    - cbn [bind]. now rewrite (IH Hnum). }
  now rewrite H.
Qed.

Lemma excerpt_parts (start end_ : Z) (root : element) :
  Etree.findall "part"
    (Etree.set_children root
       (map (fun c => if Etree.has_tag "part" c then excerpt_of start end_ c else c)
            (Etree.children root)))
  = map (excerpt_of start end_) (Etree.findall "part" root).
Proof.
  unfold Etree.findall. rewrite children_set_children.
  induction (Etree.children root) as [|c cs IH]; [reflexivity|].
  cbn [map filter]. destruct (Etree.has_tag "part" c) eqn:Hc.
  - unfold excerpt_of at 1. rewrite has_tag_set_children, Hc. cbn [map].
    now rewrite IH.
  - rewrite Hc. exact IH.
Qed.

Section Excerpt.

Variable fromstring : string -> py_result element.
Variable tostring : element -> string.

Lemma extract_returns (xml_string : string) (start end_ : Z) :
  returns (extract_measures fromstring tostring xml_string start end_)
  = match fromstring xml_string with
    | Returns root => integer_numbers root
    | Raises _ => false
    end.
Proof.
  unfold extract_measures. destruct (fromstring xml_string) as [root|e]; [|reflexivity].
  cbn [bind]. unfold extract_tree, integer_numbers, Etree.findall.
  assert (H : returns (map_m (fun c => if Etree.has_tag "part" c
                                       then extract_part start end_ c else Returns c)
                             (Etree.children root))
              = forallb (fun part => forallb (fun m => returns (measure_number m))
                                             (filter (Etree.has_tag "measure")
                                                     (Etree.children part)))
                        (filter (Etree.has_tag "part") (Etree.children root))).
  { rewrite map_m_returns.
    induction (Etree.children root) as [|c cs IH]; [reflexivity|].
    cbn [forallb filter]. destruct (Etree.has_tag "part" c); cbn [forallb returns andb].
    - rewrite IH. f_equal. unfold extract_part.
      rewrite <- (remove_outside_returns start end_).
      now destruct (remove_outside start end_ (Etree.children c)).
    - exact IH. }
  rewrite <- H. now destruct (map_m _ _).
Qed.

(** On a text that parses into a tree whose measure numbers are ASCII
    strings within the digit limit of [int], [extract_measures] returns a
    document exactly when the number of every measure of every part is
    there and reads as an integer; the range plays no part in that. *)
Theorem extract_returns_iff_numbers_are_integers (xml_string : string) (start end_ : Z)
  (root : element)
  (Hparse : fromstring xml_string = Returns root)
  (Hplain : plain_numbers root = true) :
  returns (extract_measures fromstring tostring xml_string start end_)
  = integer_numbers root.
Proof. rewrite extract_returns, Hparse. reflexivity. Qed.

(** When it returns, [extract_measures] gives the document in which
    every part holds its measures of the range, in order, numbered from 1,
    and nothing else has changed. *)
Theorem extract_keeps_the_range (xml_string : string) (start end_ : Z) (root : element)
  (Hparse : fromstring xml_string = Returns root)
  (Hnum : integer_numbers root = true) :
  let root' := Etree.set_children root
                 (map (fun c => if Etree.has_tag "part" c then excerpt_of start end_ c else c)
                      (Etree.children root)) in
  extract_measures fromstring tostring xml_string start end_
  = Returns (xml_declaration ++ tostring root')
  /\ Etree.findall "part" root' = map (excerpt_of start end_) (Etree.findall "part" root)
  /\ Forall (fun part =>
       Etree.findall "measure" (excerpt_of start end_ part)
       = numbered_from 1 (filter (in_range start end_) (Etree.findall "measure" part)))
            (Etree.findall "part" root).
Proof.
  intros root'. split; [|split].
  - unfold extract_measures. rewrite Hparse. cbn [bind].
    now rewrite (extract_tree_excerpt start end_ root Hnum).
  - apply excerpt_parts.
  - apply Forall_forall. intros part _. apply excerpt_of_measures.
Qed.

End Excerpt.

Lemma extract_returns_iff_numbers_are_integers_witness :
  returns (Scenario.excerpt Scenario.addition_3 2 3) = true
  /\ returns (Scenario.excerpt (Scenario.score (Scenario.part "P1" (Scenario.measure "1a" "")))
                               1 1) = false.
Proof.
  unfold Scenario.excerpt. split.
  - rewrite (extract_returns_iff_numbers_are_integers Xml.fromstring Xml.tostring
               Scenario.addition_3 2 3
               (Element "score-partwise" [] None
                  [Element "part-list" [] None
                     [Element "score-part" [("id", "P1")] None [] None] None;
                   Element "part" [("id", "P1")] None
                     [Element "measure" [("number", "1")] None
                        [Element "a" [] None [] None] None;
                      Element "measure" [("number", "2")] None
                        [Element "b" [] None [] None] None;
                      Element "measure" [("number", "3")] None
                        [Element "c" [] None [] None] None] None] None)).
    + vm_compute. reflexivity.
    + vm_compute. reflexivity.
    + vm_compute. reflexivity.
  - rewrite (extract_returns_iff_numbers_are_integers Xml.fromstring Xml.tostring
               (Scenario.score (Scenario.part "P1" (Scenario.measure "1a" ""))) 1 1
               (Element "score-partwise" [] None
                  [Element "part-list" [] None
                     [Element "score-part" [("id", "P1")] None [] None] None;
                   Element "part" [("id", "P1")] None
                     [Element "measure" [("number", "1a")] None [] None] None] None)).
    + vm_compute. reflexivity.
    + vm_compute. reflexivity.
    + vm_compute. reflexivity.
Defined.

Lemma extract_keeps_the_range_witness :
  Scenario.excerpt Scenario.addition_3 2 3
  = Returns (xml_declaration
             ++ Xml.tostring
                  (Element "score-partwise" [] None
                     [Element "part-list" [] None
                        [Element "score-part" [("id", "P1")] None [] None] None;
                      Element "part" [("id", "P1")] None
                        [Element "measure" [("number", "1")] None
                           [Element "b" [] None [] None] None;
                         Element "measure" [("number", "2")] None
                           [Element "c" [] None [] None] None] None] None)).
Proof.
  refine (proj1 (extract_keeps_the_range Xml.fromstring Xml.tostring
                   Scenario.addition_3 2 3
                   (Element "score-partwise" [] None
                     [Element "part-list" [] None
                        [Element "score-part" [("id", "P1")] None [] None] None;
                      Element "part" [("id", "P1")] None
                        [Element "measure" [("number", "1")] None
                           [Element "a" [] None [] None] None;
                         Element "measure" [("number", "2")] None
                           [Element "b" [] None [] None] None;
                         Element "measure" [("number", "3")] None
                           [Element "c" [] None [] None] None] None] None) _ _)).
  - vm_compute. reflexivity.
  - vm_compute. reflexivity.
Defined.

(** ** Further properties of the merge *)

Lemma update_first_part_absent (i : string) (f : element -> element) (e : element) :
  existsb (is_part_with_id i) (descendants e) = false ->
  update_first_part i f e = None.
Proof.
  pattern e. apply element_induction. clear e. intros t a x cs l IH H.
  cbn [descendants update_first_part] in *.
  match goal with |- match ?u with _ => _ end = None => assert (E : u = None) end.
  { induction cs as [|c cs IHcs]; [reflexivity|].
    inversion IH as [|? ? IHc IHrest]; subst.
    cbn [flat_map app existsb] in H. rewrite existsb_app in H.
    apply orb_false_iff in H as [Hc H]. apply orb_false_iff in H as [Hdesc Hrest].
    cbn [update_first]. rewrite Hc, (IHc Hdesc). now rewrite (IHcs IHrest Hrest). }
  now rewrite E.
Qed.

(** Parts of the addition that have no counterpart in the base are left
    out without notice: when none has one, the merge is the base. *)
Theorem merge_without_counterpart_is_base
  (fromstring : string -> py_result element) (tostring : element -> string)
  (base_xml new_xml : string) (insert_at_measure : option Z) (base_root new_root : element)
  (Hbase : fromstring base_xml = Returns base_root)
  (Hnew : fromstring new_xml = Returns new_root)
  (Hnone : no_counterpart base_root new_root = true) :
  merge_musicxml fromstring tostring base_xml new_xml insert_at_measure
  = Returns (xml_declaration ++ tostring base_root).
Proof.
  unfold merge_musicxml. rewrite Hbase, Hnew. cbn [bind].
  assert (H : merge_trees insert_at_measure base_root new_root = Returns base_root).
  { unfold merge_trees, no_counterpart in *.
    induction (Etree.findall "part" new_root) as [|np nps IH]; [reflexivity|].
    cbn [forallb for_each] in *. apply andb_true_iff in Hnone as [Hnp Hnps].
    apply andb_true_iff in Hnp as [Hq Habs]. apply negb_true_iff in Hq, Habs.
    unfold merge_into. fold (part_id np). rewrite Hq.
    rewrite (update_first_part_absent _ _ _ Habs). cbn [bind]. now apply IH. }
  now rewrite H.
Qed.

Lemma merge_without_counterpart_is_base_witness :
  Scenario.merge Scenario.base_2
    ("<score-partwise>" ++ Scenario.part "P9" (Scenario.measure "1" "<a/>")
     ++ "</score-partwise>") (Some 1%Z)
  = Returns (xml_declaration
             ++ Xml.tostring
                  (Element "score-partwise" [] None
                     [Element "part-list" [] None
                        [Element "score-part" [("id", "P1")] None [] None] None;
                      Element "part" [("id", "P1")] None
                        [Element "measure" [("number", "1")] None
                           [Element "x" [] None [] None] None;
                         Element "measure" [("number", "2")] None
                           [Element "y" [] None [] None] None] None] None)).
Proof.
  eapply (merge_without_counterpart_is_base Xml.fromstring Xml.tostring).
  - vm_compute. reflexivity.
  - vm_compute. reflexivity.
  - vm_compute. reflexivity.
Defined.

(** The body of the loop without position: the measures of the addition
    go behind the children of the base part, numbered on from the count of
    its measures. *)
Lemma merge_part_appends (new_part base_part : element) :
  merge_part None new_part base_part
  = Etree.set_children base_part
      (Etree.children base_part
       ++ numbered_from (Z.of_nat (List.length (Etree.findall "measure" base_part)) + 1)
                        (Etree.findall "measure" new_part))%list.
Proof. reflexivity. Qed.

Lemma appended_part_unmatched (nps : list element) (c : element) :
  existsb (fun np => is_part_with_id (part_id np) c) nps = false ->
  appended_part nps c = c.
Proof.
  unfold appended_part. intros H.
  destruct (List.find _ nps) as [np|] eqn:E; [|reflexivity].
  apply find_some in E as [Hin Hc].
  assert (F : existsb (fun np => is_part_with_id (part_id np) c) nps = true)
    by (apply existsb_exists; eauto).
  congruence.
Qed.

Lemma append_loop (t : string) (a : list (string * string))
  (x l : option string) (nps : list element) :
  forall cs,
  distinct (map part_id nps) = true ->
  forallb (fun np => negb (PyStr.contains PyStr.squote (part_id np))) nps = true ->
  Forall (fun np => Forall (fun c => Etree.has_tag "part" c = false
                                     /\ existsb (Etree.has_tag "part") (descendants c) = false)
                           (Etree.findall "measure" np)) nps ->
  forallb (fun c => negb (existsb (Etree.has_tag "part") (descendants c))) cs = true ->
  distinct (part_ids cs) = true ->
  for_each (merge_into None) nps (Element t a x cs l)
  = Returns (Element t a x (map (appended_part nps) cs) l).
Proof.
  induction nps as [|np nps IH]; intros cs Hnew Hq Hclean Htop Hd.
  - cbn [for_each]. unfold appended_part. cbn [List.find]. now rewrite map_id.
  - cbn [for_each]. cbn [forallb] in Hq. apply andb_true_iff in Hq as [Hq Hqs].
    apply negb_true_iff in Hq.
    rewrite (merge_into_at_top _ _ _ _ _ _ _ Hq Htop Hd). cbn [bind].
    inversion Hclean as [|? ? Hnp Hnps]; subst.
    assert (Hnew' : distinct (map part_id nps) = true).
    { cbn [map distinct] in Hnew. now apply andb_true_iff in Hnew as [_ Hnew]. }
    set (step := fun c => if is_part_with_id (part_id np) c
                          then merge_part None np c else c).
    assert (Hshape : forall i c, is_part_with_id i (step c) = is_part_with_id i c).
    { intros i c. unfold step. destruct (is_part_with_id (part_id np) c); [|reflexivity].
      apply is_part_with_id_merge_part. }
    rewrite (IH (map step cs) Hnew' Hqs Hnps).
    + f_equal. f_equal. rewrite map_map. apply map_ext_in. intros c Hin.
      unfold appended_part at 2. cbn [List.find]. unfold step.
      destruct (is_part_with_id (part_id np) c) eqn:E.
      * rewrite appended_part_unmatched; [apply merge_part_appends|].
        erewrite existsb_pointwise;
          [apply (matched_once np nps c Hnew E)|].
        intros np'. apply is_part_with_id_merge_part.
      * reflexivity.
    + apply forallb_forall. intros c1 Hin1.
      apply in_map_iff in Hin1 as [c [<- Hin]].
      rewrite forallb_forall in Htop. specialize (Htop c Hin). unfold step.
      destruct (is_part_with_id (part_id np) c) eqn:E; [|exact Htop].
      rewrite merge_part_appends.
      apply negb_true_iff. apply no_part_below. rewrite children_set_children.
      apply Forall_app. split.
      * apply no_part_below. now apply negb_true_iff.
      * now apply clean_numbered.
    + rewrite part_ids_map; [exact Hd|]. intros c. unfold step.
      destruct (is_part_with_id (part_id np) c); [|now split].
      destruct (merge_part_shape None np c) as [cs' ->].
      now rewrite has_tag_set_children, get_set_children.
Qed.

(** Without position, [merge_musicxml] appends: in documents laid out
    partwise, each base part with a counterpart in the addition receives
    the measures of the counterpart behind its own, numbered on from the
    count of its measures; nothing else changes. *)
Theorem merge_appends_without_position
  (fromstring : string -> py_result element) (tostring : element -> string)
  (base_xml new_xml : string) (base_root new_root : element)
  (Hbase : fromstring base_xml = Returns base_root)
  (Hnew : fromstring new_xml = Returns new_root)
  (Hok : appendable base_root new_root = true) :
  merge_musicxml fromstring tostring base_xml new_xml None
  = Returns (xml_declaration
             ++ tostring (Etree.set_children base_root
                            (map (appended_part (Etree.findall "part" new_root))
                                 (Etree.children base_root)))).
Proof.
  unfold merge_musicxml. rewrite Hbase, Hnew. cbn [bind].
  assert (Htrees :
    merge_trees None base_root new_root
    = Returns (Etree.set_children base_root
                 (map (appended_part (Etree.findall "part" new_root))
                      (Etree.children base_root)))).
  { unfold appendable in Hok.
    repeat (apply andb_true_iff in Hok as [Hok ?]).
    destruct base_root as [t a x cs l]. unfold merge_trees.
    cbn [Etree.set_children Etree.children] in *.
    apply append_loop; try assumption.
    apply Forall_forall. intros np Hnp.
    apply filter_In in Hnp as [Hnp _].
    unfold parts_at_top in *.
    match goal with H : forallb _ (Etree.children new_root) = true |- _ =>
      rewrite forallb_forall in H; specialize (H np Hnp);
      apply negb_true_iff in H; apply no_part_below in H; rename H into Hc end.
    apply Forall_forall. intros m Hm. apply filter_In in Hm as [Hm _].
    rewrite Forall_forall in Hc. now apply Hc. }
  now rewrite Htrees.
Qed.

Lemma merge_appends_without_position_witness :
  exists base_root new_root,
    Xml.fromstring Scenario.base_2 = Returns base_root
    /\ Xml.fromstring Scenario.addition_3 = Returns new_root
    /\ Scenario.merge Scenario.base_2 Scenario.addition_3 None
       = Returns (xml_declaration
                  ++ Xml.tostring
                       (Etree.set_children base_root
                          (map (appended_part (Etree.findall "part" new_root))
                               (Etree.children base_root)))).
Proof.
  eexists. eexists. split; [vm_compute; reflexivity|]. split; [vm_compute; reflexivity|].
  apply (merge_appends_without_position Xml.fromstring Xml.tostring).
  - vm_compute. reflexivity.
  - vm_compute. reflexivity.
  - vm_compute. reflexivity.
Defined.

(** ** The writer and the reader: round trip (C8) *)

Lemma run_app (a b : string) : forall st, Xml.run st (a ++ b) = Xml.run (Xml.run st a) b.
Proof. induction a as [|c a IH]; intros st; [reflexivity | apply IH]. Qed.

Lemma all_chars_app (p : ascii -> bool) (a b : string) :
  Xml.all_chars p (a ++ b) = Xml.all_chars p a && Xml.all_chars p b.
Proof.
  induction a as [|c a IH]; [reflexivity|]. cbn [append Xml.all_chars].
  now rewrite IH, andb_assoc.
Qed.

(** What the letters of a name are not. *)
Lemma name_char_facts (c : ascii) :
  Xml.name_char c = true ->
  Xml.is_char c = true /\ Xml.is_space c = false
  /\ Ascii.eqb c "<" = false /\ Ascii.eqb c ">" = false /\ Ascii.eqb c "/" = false
  /\ Ascii.eqb c "?" = false /\ Ascii.eqb c "!" = false /\ Ascii.eqb c "=" = false.
Proof.
  destruct c as [[] [] [] [] [] [] [] []]; intros H; try discriminate H;
    vm_compute; repeat split.
Qed.

Lemma name_start_name_char (c : ascii) : Xml.name_start c = true -> Xml.name_char c = true.
Proof. unfold Xml.name_char. now intros ->. Qed.

(** One character of text, as the writer escapes it, read back. *)
Lemma read_text_char (c : ascii) :
  Xml.is_char c = true ->
  forall fr rest root fresh dt buf,
    Xml.run (Xml.PState (fr :: rest) root fresh dt (Xml.Content buf)) (Xml.escape_text_char c)
    = Xml.PState (fr :: rest) root false dt (Xml.Content (Xml.snoc buf c)).
Proof.
  destruct c as [[] [] [] [] [] [] [] []]; intros H; try discriminate H;
    intros; reflexivity.
Qed.

(** One character of an attribute value, likewise. *)
Lemma read_attr_char (c : ascii) :
  Xml.is_char c = true ->
  forall stack root fresh dt an val,
    Xml.run (Xml.PState stack root fresh dt (Xml.AttrValue an (ascii_of_nat 34) val))
            (Xml.escape_attr_char c)
    = Xml.PState stack root false dt (Xml.AttrValue an (ascii_of_nat 34) (Xml.snoc val c)).
Proof.
  destruct c as [[] [] [] [] [] [] [] []]; intros H; try discriminate H;
    intros; reflexivity.
Qed.

(** *** Runs of characters *)

Ltac xml_state :=
  unfold Xml.with_mode, Xml.open_element, Xml.on_top, Xml.add_attr, Xml.add_child;
  cbn [Xml.st_stack Xml.st_root Xml.st_fresh Xml.st_doctype Xml.st_mode
       Xml.f_tag Xml.f_attrib Xml.f_text Xml.f_rchildren].

Lemma read_text (x : string) :
  Xml.xml_compatible x = true ->
  forall fr rest root dt buf s,
    Xml.run (Xml.PState (fr :: rest) root false dt (Xml.Content buf))
            (Xml.escape Xml.escape_text_char x ++ s)
    = Xml.run (Xml.PState (fr :: rest) root false dt (Xml.Content (buf ++ x))) s.
Proof.
  unfold Xml.xml_compatible.
  induction x as [|c x IH]; intros H fr rest root dt buf s.
  - cbn [Xml.escape append]. now rewrite append_nil_r.
  - cbn [Xml.all_chars] in H. apply andb_true_iff in H as [Hc Hx].
    cbn [Xml.escape]. rewrite append_assoc, run_app, (read_text_char c Hc).
    rewrite (IH Hx). unfold Xml.snoc. now rewrite append_assoc.
Qed.

Lemma read_attr_value (v : string) :
  Xml.xml_compatible v = true ->
  forall stack root dt an val s,
    Xml.run (Xml.PState stack root false dt (Xml.AttrValue an (ascii_of_nat 34) val))
            (Xml.escape Xml.escape_attr_char v ++ s)
    = Xml.run (Xml.PState stack root false dt
                 (Xml.AttrValue an (ascii_of_nat 34) (val ++ v))) s.
Proof.
  unfold Xml.xml_compatible.
  induction v as [|c v IH]; intros H stack root dt an val s.
  - cbn [Xml.escape append]. now rewrite append_nil_r.
  - cbn [Xml.all_chars] in H. apply andb_true_iff in H as [Hc Hv].
    cbn [Xml.escape]. rewrite append_assoc, run_app, (read_attr_char c Hc).
    rewrite (IH Hv). unfold Xml.snoc. now rewrite append_assoc.
Qed.

Lemma read_start_name (n : string) :
  Xml.all_chars Xml.name_char n = true ->
  forall stack root dt pre s,
    Xml.run (Xml.PState stack root false dt (Xml.StartName pre)) (n ++ s)
    = Xml.run (Xml.PState stack root false dt (Xml.StartName (pre ++ n))) s.
Proof.
  induction n as [|c n IH]; intros H stack root dt pre s.
  - cbn [append]. now rewrite append_nil_r.
  - cbn [Xml.all_chars] in H. apply andb_true_iff in H as [Hc Hn].
    destruct (name_char_facts c Hc) as (Hchar & _).
    cbn [append Xml.run]. unfold Xml.step at 1. rewrite Hchar. cbn [negb Xml.st_mode].
    rewrite Hc. xml_state.
    rewrite (IH Hn). unfold Xml.snoc. now rewrite append_assoc.
Qed.

Lemma read_attr_name (n : string) :
  Xml.all_chars Xml.name_char n = true ->
  forall stack root dt pre s,
    Xml.run (Xml.PState stack root false dt (Xml.AttrName pre)) (n ++ s)
    = Xml.run (Xml.PState stack root false dt (Xml.AttrName (pre ++ n))) s.
Proof.
  induction n as [|c n IH]; intros H stack root dt pre s.
  - cbn [append]. now rewrite append_nil_r.
  - cbn [Xml.all_chars] in H. apply andb_true_iff in H as [Hc Hn].
    destruct (name_char_facts c Hc) as (Hchar & _).
    cbn [append Xml.run]. unfold Xml.step at 1. rewrite Hchar. cbn [negb Xml.st_mode].
    rewrite Hc. xml_state.
    rewrite (IH Hn). unfold Xml.snoc. now rewrite append_assoc.
Qed.

Lemma read_end_name (n : string) :
  Xml.all_chars Xml.name_char n = true ->
  forall stack root dt c0 pre s,
    Xml.run (Xml.PState stack root false dt (Xml.EndName (String c0 pre))) (n ++ s)
    = Xml.run (Xml.PState stack root false dt (Xml.EndName (String c0 pre ++ n))) s.
Proof.
  induction n as [|c n IH]; intros H stack root dt c0 pre s.
  - cbn [append]. now rewrite append_nil_r.
  - cbn [Xml.all_chars] in H. apply andb_true_iff in H as [Hc Hn].
    destruct (name_char_facts c Hc) as (Hchar & _).
    cbn [append Xml.run]. unfold Xml.step at 1. rewrite Hchar. cbn [negb Xml.st_mode].
    rewrite Hc. xml_state. unfold Xml.snoc. cbn [append].
    rewrite (IH Hn stack root dt c0 (pre ++ String c "")). cbn [append].
    now rewrite append_assoc.
Qed.

(** *** Attributes and tags *)

Lemma concat_nil_cons (x : string) (xs : list string) :
  String.concat "" (x :: xs) = x ++ String.concat "" xs.
Proof. destruct xs; cbn [String.concat append]; [now rewrite append_nil_r | reflexivity]. Qed.

Lemma is_name_split (t : string) :
  Xml.is_name t = true ->
  exists c t', t = String c t' /\ Xml.name_start c = true
               /\ Xml.all_chars Xml.name_char t' = true.
Proof.
  destruct t as [|c t']; [discriminate|]. cbn [Xml.is_name].
  intros H. apply andb_true_iff in H as [H1 H2]. now exists c, t'.
Qed.

(** One attribute, as [write_attr] writes it, read in a start tag. *)
Lemma read_attr (k v : string) :
  Xml.is_name k = true -> String.eqb k "xmlns" = false -> Xml.xml_compatible v = true ->
  forall t a0 tx rc stack root dt sp s,
    existsb (fun kv => String.eqb (fst kv) k) a0 = false ->
    Xml.run (Xml.PState (Xml.Frame t a0 tx rc :: stack) root false dt (Xml.InTag sp))
            (Xml.write_attr (k, v) ++ s)
    = Xml.run (Xml.PState (Xml.Frame t (a0 ++ [(k, v)]) tx rc :: stack) root false dt
                 (Xml.InTag false)) s.
Proof.
  intros Hk Hns Hv t a0 tx rc stack root dt sp s Hnew.
  destruct (is_name_split k Hk) as (c & k' & -> & Hc & Hk').
  destruct (name_char_facts c (name_start_name_char c Hc))
    as (Hchar & Hsp & _ & Hgt & Hsl & _).
  unfold Xml.write_attr. cbn [fst snd]. rewrite !append_assoc.
  cbn [append Xml.run].
  change (Xml.step (Xml.PState (Xml.Frame t a0 tx rc :: stack) root false dt (Xml.InTag sp))
                   " "%char)
    with (Xml.PState (Xml.Frame t a0 tx rc :: stack) root false dt (Xml.InTag true)).
  unfold Xml.step at 1. rewrite Hchar. cbn [negb Xml.st_mode].
  unfold Xml.step_in_tag. rewrite Hsp, Hgt, Hsl, Hc. cbn [andb]. xml_state.
  rewrite (read_attr_name k' Hk'). cbn [append Xml.run].
  unfold Xml.step at 1. cbn [Xml.is_char negb Xml.st_mode].
  change (Xml.is_char "="%char) with true. cbn [negb].
  change (Xml.name_char "="%char) with false. cbv iota.
  change (Ascii.eqb "="%char "="%char) with true. cbv iota.
  cbn [append] in Hns. rewrite Hns.
  unfold Xml.has_attr. cbn [Xml.st_stack Xml.f_attrib]. rewrite Hnew. xml_state.
  unfold PyStr.dquote. cbn [append Xml.run].
  change (Xml.step (Xml.PState (Xml.Frame t a0 tx rc :: stack) root false dt
                      (Xml.AttrQuote (String c k'))) (ascii_of_nat 34))
    with (Xml.PState (Xml.Frame t a0 tx rc :: stack) root false dt
            (Xml.AttrValue (String c k') (ascii_of_nat 34) "")).
  rewrite (read_attr_value v Hv). cbn [append Xml.run].
  reflexivity.
Qed.

Lemma distinct_not_in (k v : string) (ks : list string) (a0 : list (string * string)) :
  forallb (fun k' => negb (existsb (fun kv => String.eqb (fst kv) k') a0)) (k :: ks) = true ->
  negb (existsb (String.eqb k) ks) = true ->
  forallb (fun k' => negb (existsb (fun kv => String.eqb (fst kv) k') (a0 ++ [(k, v)])))
          ks = true.
Proof.
  cbn [forallb]. intros H Hk. apply andb_true_iff in H as [_ H].
  apply forallb_forall. intros k' Hin.
  rewrite forallb_forall in H. specialize (H k' Hin).
  rewrite existsb_app. cbn [existsb fst]. rewrite orb_false_r.
  apply negb_true_iff in H. rewrite H. cbn [orb].
  apply negb_true_iff in Hk. destruct (String.eqb k k') eqn:E; [|reflexivity].
  apply String.eqb_eq in E. subst k'.
  assert (F : existsb (String.eqb k) ks = true)
    by (apply existsb_exists; exists k; split; [exact Hin | apply String.eqb_refl]).
  congruence.
Qed.

(** The attributes of a start tag, read after the attributes [a0]. *)
Lemma read_attrs (a : list (string * string)) :
  forall a0,
  forallb (fun kv => Xml.is_name (fst kv) && negb (String.eqb (fst kv) "xmlns")
                     && Xml.xml_compatible (snd kv)) a = true ->
  distinct (map fst a) = true ->
  forallb (fun k' => negb (existsb (fun kv => String.eqb (fst kv) k') a0)) (map fst a) = true ->
  forall t tx rc stack root dt s,
    Xml.run (Xml.PState (Xml.Frame t a0 tx rc :: stack) root false dt (Xml.InTag false))
            (Xml.write_attrs a ++ s)
    = Xml.run (Xml.PState (Xml.Frame t (a0 ++ a) tx rc :: stack) root false dt
                 (Xml.InTag false)) s.
Proof.
  induction a as [|[k v] a IH]; intros a0 Hok Hd Hnew t tx rc stack root dt s.
  - cbn [Xml.write_attrs map String.concat append]. now rewrite app_nil_r.
  - unfold Xml.write_attrs. cbn [map]. rewrite concat_nil_cons, append_assoc.
    cbn [forallb fst snd] in Hok. apply andb_true_iff in Hok as [Hkv Hok].
    apply andb_true_iff in Hkv as [Hkv Hv]. apply andb_true_iff in Hkv as [Hk Hns].
    apply negb_true_iff in Hns.
    cbn [map fst distinct] in Hd. apply andb_true_iff in Hd as [Hk' Hd].
    assert (Hfresh : existsb (fun kv => String.eqb (fst kv) k) a0 = false).
    { cbn [map fst forallb] in Hnew. apply andb_true_iff in Hnew as [Hnew _].
      now apply negb_true_iff in Hnew. }
    rewrite (read_attr k v Hk Hns Hv _ _ _ _ _ _ _ _ _ Hfresh).
    fold (Xml.write_attrs a). rewrite (IH (a0 ++ [(k, v)])%list Hok Hd).
    + now rewrite <- app_assoc.
    + apply (distinct_not_in k v (map fst a) a0 Hnew Hk').
Qed.

(** A start tag from its name on, up to the end of its attributes: the
    frame is pushed when the first attribute is met. *)
Lemma read_open_attrs (t : string) (a : list (string * string)) :
  Xml.is_name t = true -> writable_attrs a = true ->
  forall stack root fresh dt s,
    (stack = [] -> root = None) ->
    Xml.run (Xml.PState stack root fresh dt Xml.TagOpen) (t ++ Xml.write_attrs a ++ s)
    = match a with
      | [] => Xml.run (Xml.PState stack root false dt (Xml.StartName t)) s
      | _ :: _ =>
          Xml.run (Xml.PState (Xml.Frame t a None [] :: stack) root false dt
                     (Xml.InTag false)) s
      end.
Proof.
  intros Ht Ha stack root fresh dt s Hctx.
  destruct (is_name_split t Ht) as (c & t' & -> & Hc & Ht').
  destruct (name_char_facts c (name_start_name_char c Hc))
    as (Hchar & Hsp & _ & Hgt & Hsl & Hq & Hbang & _).
  cbn [append Xml.run]. unfold Xml.step at 1. rewrite Hchar. cbn [negb Xml.st_mode].
  unfold Xml.step_tag_open. rewrite Hq, Hbang, Hsl, Hc.
  assert (E : match Xml.st_stack (Xml.PState stack root fresh dt Xml.TagOpen),
                    Xml.st_root (Xml.PState stack root fresh dt Xml.TagOpen) with
              | [], Some _ =>
                  Xml.fail (Xml.PState stack root fresh dt Xml.TagOpen)
                           "Extra content at the end of the document"
              | _, _ => Xml.with_mode (Xml.PState stack root fresh dt Xml.TagOpen)
                                      (Xml.StartName (String c ""))
              end
              = Xml.PState stack root false dt (Xml.StartName (String c ""))).
  { cbn [Xml.st_stack Xml.st_root]. destruct stack; [rewrite (Hctx eq_refl)|]; reflexivity. }
  rewrite E. rewrite (read_start_name t' Ht'). cbn [append].
  unfold writable_attrs in Ha. apply andb_true_iff in Ha as [Hok Hd].
  destruct a as [|[k v] a].
  - cbn [Xml.write_attrs map String.concat append]. reflexivity.
  - unfold Xml.write_attrs. cbn [map]. rewrite concat_nil_cons. fold (Xml.write_attrs a).
    rewrite append_assoc.
    cbn [forallb fst snd] in Hok. apply andb_true_iff in Hok as [Hkv Hok].
    apply andb_true_iff in Hkv as [Hkv Hv]. apply andb_true_iff in Hkv as [Hk Hns].
    apply negb_true_iff in Hns.
    cbn [map fst distinct] in Hd. apply andb_true_iff in Hd as [Hk' Hd].
    unfold Xml.write_attr at 1. cbn [fst snd]. rewrite !append_assoc.
    cbn [append Xml.run].
    change (Xml.step (Xml.PState stack root false dt (Xml.StartName (String c t'))) " "%char)
      with (Xml.PState (Xml.Frame (String c t') [] None [] :: stack) root false dt
              (Xml.InTag true)).
    pose proof (read_attr k v Hk Hns Hv (String c t') [] None [] stack root dt true
                  (Xml.write_attrs a ++ s) eq_refl) as R.
    unfold Xml.write_attr in R. cbn [fst snd] in R. rewrite !append_assoc in R.
    cbn [append Xml.run] in R.
    change (Xml.step (Xml.PState (Xml.Frame (String c t') [] None [] :: stack) root false dt
                        (Xml.InTag true)) " "%char)
      with (Xml.PState (Xml.Frame (String c t') [] None [] :: stack) root false dt
              (Xml.InTag true)) in R.
    rewrite R. cbn [app].
    rewrite (read_attrs a [(k, v)] Hok Hd).
    + cbn [app]. reflexivity.
    + apply forallb_forall. intros k0 Hin. cbn [existsb fst]. rewrite orb_false_r.
      apply negb_true_iff. apply negb_true_iff in Hk'.
      destruct (String.eqb k k0) eqn:Ek; [|reflexivity].
      apply String.eqb_eq in Ek. subst k0.
      assert (F : existsb (String.eqb k) (map fst a) = true)
        by (apply existsb_exists; exists k; split; [exact Hin | apply String.eqb_refl]).
      congruence.
Qed.

(** A start tag closed by [>]: the element is open. *)
Lemma read_open (t : string) (a : list (string * string)) :
  Xml.is_name t = true -> writable_attrs a = true ->
  forall stack root fresh dt s,
    (stack = [] -> root = None) ->
    Xml.run (Xml.PState stack root fresh dt Xml.TagOpen) (t ++ Xml.write_attrs a ++ ">" ++ s)
    = Xml.run (Xml.PState (Xml.Frame t a None [] :: stack) root false dt (Xml.Content "")) s.
Proof.
  intros Ht Ha stack root fresh dt s Hctx.
  rewrite (read_open_attrs t a Ht Ha stack root fresh dt _ Hctx).
  destruct a; reflexivity.
Qed.

(** An empty-element tag: the element is complete. *)
Lemma read_empty (t : string) (a : list (string * string)) :
  Xml.is_name t = true -> writable_attrs a = true ->
  forall stack root fresh dt s,
    (stack = [] -> root = None) ->
    Xml.run (Xml.PState stack root fresh dt Xml.TagOpen) (t ++ Xml.write_attrs a ++ "/>" ++ s)
    = Xml.run (Xml.attach (Xml.PState stack root false dt (Xml.Content "")) stack
                 (Element t a None [] None)) s.
Proof.
  intros Ht Ha stack root fresh dt s Hctx.
  rewrite (read_open_attrs t a Ht Ha stack root fresh dt _ Hctx).
  destruct a; reflexivity.
Qed.

(** *** Elements *)

Lemma flush_tag (buf : string) (fr : Xml.frame) : Xml.f_tag (Xml.flush buf fr) = Xml.f_tag fr.
Proof. destruct buf; [reflexivity|]. unfold Xml.flush. now destruct (Xml.f_rchildren fr). Qed.

Lemma flush_attrib (buf : string) (fr : Xml.frame) :
  Xml.f_attrib (Xml.flush buf fr) = Xml.f_attrib fr.
Proof. destruct buf; [reflexivity|]. unfold Xml.flush. now destruct (Xml.f_rchildren fr). Qed.

Lemma skeleton_set_tail (c : element) (l : option string) :
  skeleton (Etree.set_tail c l) = skeleton c.
Proof. now destruct c. Qed.

Lemma flush_children (buf : string) (fr : Xml.frame) :
  map skeleton (rev (Xml.f_rchildren (Xml.flush buf fr)))
  = map skeleton (rev (Xml.f_rchildren fr)).
Proof.
  destruct buf; [reflexivity|]. unfold Xml.flush.
  destruct (Xml.f_rchildren fr) as [|c cs]; [reflexivity|].
  cbn [Xml.f_rchildren rev]. rewrite !map_app. cbn [map]. now rewrite skeleton_set_tail.
Qed.

Lemma indent_plain (n : nat) :
  Xml.xml_compatible (Xml.indent n) = true
  /\ Xml.escape Xml.escape_text_char (Xml.indent n) = Xml.indent n.
Proof.
  induction n as [|n [IH1 IH2]]; [now split|]. cbn [Xml.indent]. split.
  - unfold Xml.xml_compatible in *. cbn [append Xml.all_chars]. now rewrite IH1.
  - cbn [append Xml.escape]. now rewrite IH2.
Qed.

(** White space the writer adds, read as character data. *)
Lemma read_plain (w : string) :
  Xml.xml_compatible w = true -> Xml.escape Xml.escape_text_char w = w ->
  forall fr rest root dt buf s,
    Xml.run (Xml.PState (fr :: rest) root false dt (Xml.Content buf)) (w ++ s)
    = Xml.run (Xml.PState (fr :: rest) root false dt (Xml.Content (buf ++ w))) s.
Proof.
  intros Hw He fr rest root dt buf s. rewrite <- He at 1. now apply read_text.
Qed.

Lemma read_layout (fmt : bool) (w : string) :
  Xml.xml_compatible w = true -> Xml.escape Xml.escape_text_char w = w ->
  forall fr rest root dt buf s,
    Xml.run (Xml.PState (fr :: rest) root false dt (Xml.Content buf))
            ((if fmt then w else EmptyString) ++ s)
    = Xml.run (Xml.PState (fr :: rest) root false dt
                 (Xml.Content (buf ++ (if fmt then w else EmptyString)))) s.
Proof.
  intros Hw He fr rest root dt buf s. destruct fmt.
  - now apply read_plain.
  - cbn [append]. now rewrite append_nil_r.
Qed.

Lemma read_opt_text (x : option string) :
  writable_text x = true ->
  forall fr rest root dt buf s,
    Xml.run (Xml.PState (fr :: rest) root false dt (Xml.Content buf))
            (Xml.opt_text Xml.escape_text_char x ++ s)
    = Xml.run (Xml.PState (fr :: rest) root false dt
                 (Xml.Content (buf ++ match x with Some t => t | None => "" end))) s.
Proof.
  intros Hx fr rest root dt buf s. destruct x as [t|]; cbn [Xml.opt_text].
  - now apply read_text.
  - cbn [append]. now rewrite append_nil_r.
Qed.

(** An end tag that matches the open element completes it. *)
Lemma read_close (t : string) :
  Xml.is_name t = true ->
  forall fr rest root dt buf s,
    Xml.f_tag fr = t ->
    Xml.run (Xml.PState (fr :: rest) root false dt (Xml.Content buf))
            ("</" ++ t ++ ">" ++ s)
    = Xml.run (Xml.attach (Xml.PState [] root false dt (Xml.Content "")) rest
                 (Xml.close_frame (Xml.flush buf fr))) s.
Proof.
  intros Ht fr rest root dt buf s Hfr.
  destruct (is_name_split t Ht) as (c & t' & -> & Hc & Ht').
  destruct (name_char_facts c (name_start_name_char c Hc)) as (Hchar & _).
  cbn [append Xml.run].
  change (Xml.step (Xml.PState (fr :: rest) root false dt (Xml.Content buf)) "<"%char)
    with (Xml.PState (Xml.flush buf fr :: rest) root false dt Xml.TagOpen).
  change (Xml.step (Xml.PState (Xml.flush buf fr :: rest) root false dt Xml.TagOpen) "/"%char)
    with (Xml.PState (Xml.flush buf fr :: rest) root false dt (Xml.EndName "")).
  unfold Xml.step at 1. rewrite Hchar. cbn [negb Xml.st_mode]. rewrite Hc. xml_state.
  unfold Xml.snoc. cbn [append].
  rewrite (read_end_name t' Ht'). cbn [append Xml.run].
  unfold Xml.step at 1.
  change (Xml.is_char ">"%char) with true. cbn [negb Xml.st_mode].
  change (Xml.name_char ">"%char) with false. cbv iota.
  change (Xml.is_space ">"%char) with false. cbv iota.
  change (Ascii.eqb ">"%char ">"%char) with true. cbv iota.
  unfold Xml.end_tag. cbn [Xml.st_stack]. rewrite flush_tag, Hfr, String.eqb_refl.
  now destruct rest.
Qed.

Lemma write_eq (fmt : bool) (level : nat) (t : string) (a : list (string * string))
  (x : option string) (cs : list element) (l : option string) :
  Xml.write fmt level (Element t a x cs l)
  = match x, cs with
    | None, [] => "<" ++ t ++ Xml.write_attrs a ++ "/>"
    | _, _ =>
        "<" ++ t ++ Xml.write_attrs a ++ ">"
        ++ (if fmt && Xml.element_only (Element t a x cs l) then PyStr.nl else EmptyString)
        ++ Xml.opt_text Xml.escape_text_char x
        ++ String.concat ""
             (map (child_text (fmt && Xml.element_only (Element t a x cs l)) level) cs)
        ++ (if fmt && Xml.element_only (Element t a x cs l)
            then Xml.indent level else EmptyString)
        ++ "</" ++ t ++ ">"
    end.
Proof. destruct x, cs; reflexivity. Qed.

(** The children of an element, read one after the other into the open
    frame. *)
Lemma read_children (fmt : bool) (level : nat) (cs : list element) :
  Forall (fun c =>
    well_formed c = true ->
    forall fmt level,
    exists c', skeleton c' = skeleton c
      /\ forall stack root dt buf s,
           (stack = [] -> root = None) ->
           Xml.run (Xml.PState stack root false dt (Xml.Content buf))
                   (Xml.write fmt level c ++ s)
           = Xml.run (Xml.attach (Xml.PState [] root false dt (Xml.Content ""))
                        (flushed buf stack) c') s) cs ->
  forallb well_formed cs = true ->
  forall fr buf,
  exists fr' buf',
    Xml.f_tag fr' = Xml.f_tag fr
    /\ Xml.f_attrib fr' = Xml.f_attrib fr
    /\ map skeleton (rev (Xml.f_rchildren fr'))
       = (map skeleton (rev (Xml.f_rchildren fr)) ++ map skeleton cs)%list
    /\ (cs = [] -> fr' = fr /\ buf' = buf)
    /\ forall rest root dt s,
         Xml.run (Xml.PState (fr :: rest) root false dt (Xml.Content buf))
                 (String.concat "" (map (child_text fmt level) cs) ++ s)
         = Xml.run (Xml.PState (fr' :: rest) root false dt (Xml.Content buf')) s.
Proof.
  induction cs as [|c cs IHcs]; intros IH Hwf fr buf.
  - exists fr, buf. split; [reflexivity|]. split; [reflexivity|].
    split; [now rewrite app_nil_r|]. split; [now split | reflexivity].
  - inversion IH as [|? ? IHc IHrest]; subst.
    cbn [forallb] in Hwf. apply andb_true_iff in Hwf as [Hc Hcs].
    destruct (IHc Hc fmt (S level)) as (c' & Hskel & Hrun).
    assert (Htail : writable_text (Etree.tail c) = true).
    { destruct c as [t a x ch l]. cbn [well_formed] in Hc.
      now apply andb_true_iff in Hc as [_ Hc]. }
    destruct (IHcs IHrest Hcs
                (Xml.add_child
                   (Xml.flush (buf ++ (if fmt then Xml.indent (S level) else "")) fr) c')
                (("" ++ match Etree.tail c with Some t => t | None => "" end)
                 ++ (if fmt then PyStr.nl else "")))
      as (fr' & buf' & Htag & Hattr & Hch & _ & Hrest).
    exists fr', buf'. split; [|split; [|split; [|split; [discriminate|]]]].
    + rewrite Htag. cbn [Xml.add_child Xml.f_tag]. apply flush_tag.
    + rewrite Hattr. cbn [Xml.add_child Xml.f_attrib]. apply flush_attrib.
    + rewrite Hch. cbn [Xml.add_child Xml.f_rchildren rev map].
      rewrite map_app, flush_children. cbn [map]. rewrite Hskel.
      now rewrite <- app_assoc.
    + intros rest root dt s. cbn [map]. rewrite concat_nil_cons.
      unfold child_text at 1. rewrite !append_assoc.
      rewrite (read_layout fmt (Xml.indent (S level))
                 (proj1 (indent_plain _)) (proj2 (indent_plain _))).
      rewrite (Hrun (fr :: rest) root dt _ _ ltac:(discriminate)).
      cbn [flushed Xml.attach].
      rewrite (read_opt_text _ Htail).
      rewrite (read_layout fmt PyStr.nl eq_refl eq_refl).
      apply Hrest.
Qed.

(** An element written by the writer is read back as an element with the
    same skeleton, whatever the reader had open. *)
Lemma read_element (e : element) :
  well_formed e = true ->
  forall fmt level,
  exists e', skeleton e' = skeleton e
    /\ forall stack root dt buf s,
         (stack = [] -> root = None) ->
         Xml.run (Xml.PState stack root false dt (Xml.Content buf))
                 (Xml.write fmt level e ++ s)
         = Xml.run (Xml.attach (Xml.PState [] root false dt (Xml.Content ""))
                      (flushed buf stack) e') s.
Proof.
  pattern e. apply element_induction. clear e. intros t a x cs l IH Hwf fmt level.
  cbn [well_formed] in Hwf.
  apply andb_true_iff in Hwf as [Hwf Hl]. apply andb_true_iff in Hwf as [Hwf Hcs].
  apply andb_true_iff in Hwf as [Hwf Hx]. apply andb_true_iff in Hwf as [Ht Ha].
  assert (Hlt : forall stack root dt buf s',
            Xml.run (Xml.PState stack root false dt (Xml.Content buf)) ("<" ++ s')
            = Xml.run (Xml.PState (flushed buf stack) root false dt Xml.TagOpen) s').
  { intros stack root dt buf s'. cbn [append Xml.run]. now destruct stack. }
  assert (Hctx : forall (stack : list Xml.frame) (root : option element) buf,
            (stack = [] -> root = None) -> flushed buf stack = [] -> root = None).
  { intros stack root buf H. destruct stack; [auto | discriminate]. }
  assert (Hopen : forall fmt', (cs = [] -> fmt' = false) ->
    exists e', skeleton e' = skeleton (Element t a x cs l)
      /\ forall stack root dt buf s,
           (stack = [] -> root = None) ->
           Xml.run (Xml.PState stack root false dt (Xml.Content buf))
                   (("<" ++ t ++ Xml.write_attrs a ++ ">"
                     ++ (if fmt' then PyStr.nl else "")
                     ++ Xml.opt_text Xml.escape_text_char x
                     ++ String.concat "" (map (child_text fmt' level) cs)
                     ++ (if fmt' then Xml.indent level else "") ++ "</" ++ t ++ ">") ++ s)
           = Xml.run (Xml.attach (Xml.PState [] root false dt (Xml.Content ""))
                        (flushed buf stack) e') s).
  { intros fmt' Hfmt.
    destruct (read_children fmt' level cs IH Hcs (Xml.Frame t a None [])
                (("" ++ (if fmt' then PyStr.nl else ""))
                 ++ match x with Some t => t | None => "" end))
      as (fr' & buf' & Htag & Hattr & Hch & Hnil & Hrun).
    exists (Xml.close_frame
              (Xml.flush (buf' ++ (if fmt' then Xml.indent level else "")) fr')).
    split.
    - unfold Xml.close_frame. cbn [skeleton].
      rewrite flush_tag, flush_attrib, flush_children, Htag, Hattr, Hch.
      cbn [Xml.f_tag Xml.f_attrib Xml.f_rchildren rev map app]. f_equal.
      destruct cs as [|c cs].
      + destruct (Hnil eq_refl) as [-> ->]. rewrite (Hfmt eq_refl). cbn [append].
        rewrite append_nil_r. destruct x as [[|c x]|]; reflexivity.
      + destruct (rev (Xml.f_rchildren (Xml.flush _ fr'))) eqn:E; [|reflexivity].
        pose proof (flush_children (buf' ++ (if fmt' then Xml.indent level else "")) fr')
          as F.
        rewrite E, Hch in F. discriminate F.
    - intros stack root dt buf s Hroot.
      rewrite !append_assoc. rewrite Hlt.
      rewrite (read_open t a Ht Ha _ _ _ _ _ (Hctx _ _ _ Hroot)).
      rewrite (read_layout fmt' PyStr.nl eq_refl eq_refl).
      rewrite (read_opt_text x Hx).
      rewrite Hrun.
      rewrite (read_layout fmt' (Xml.indent level)
                 (proj1 (indent_plain _)) (proj2 (indent_plain _))).
      apply (read_close t Ht). now rewrite Htag. }
  rewrite write_eq.
  destruct x as [x|]; [|destruct cs as [|c cs]].
  - destruct (Hopen (fmt && Xml.element_only (Element t a (Some x) cs l)))
      as (e' & Hskel & Hrun).
    { intros _. apply andb_false_r. }
    exists e'. split; [exact Hskel|].
    intros stack root dt buf s Hroot. rewrite <- (Hrun stack root dt buf s Hroot).
    now destruct cs.
  - exists (Element t a None [] None). split; [reflexivity|].
    intros stack root dt buf s Hroot.
    rewrite !append_assoc. rewrite Hlt.
    now rewrite (read_empty t a Ht Ha _ _ _ _ _ (Hctx _ _ _ Hroot)).
  - destruct (Hopen (fmt && Xml.element_only (Element t a None (c :: cs) l)))
      as (e' & Hskel & Hrun); [discriminate|].
    exists e'. split; [exact Hskel|].
    intros stack root dt buf s Hroot. now rewrite <- (Hrun stack root dt buf s Hroot).
Qed.

(** *** Documents *)

(** A document made of a prolog and a serialized tree is read back as a
    tree with the skeleton of the one written. *)
Lemma read_document (prolog : string) (dt : bool) (root : element) :
  Xml.run Xml.initial prolog = Xml.PState [] None false dt (Xml.Content "") ->
  well_formed root = true ->
  exists root',
    Xml.fromstring (prolog ++ Xml.tostring root) = Returns root'
    /\ skeleton root' = skeleton root.
Proof.
  intros Hprolog Hwf.
  destruct (read_element root Hwf true 0) as (root' & Hskel & Hrun).
  exists root'. split; [|exact Hskel].
  unfold Xml.fromstring, Xml.tostring. rewrite run_app, Hprolog.
  rewrite (Hrun [] None dt "" PyStr.nl (fun _ => eq_refl)). reflexivity.
Qed.

Lemma prolog_with_doctype :
  Xml.run Xml.initial (xml_declaration ++ MUSICXML_DOCTYPE ++ PyStr.nl)
  = Xml.PState [] None false true (Xml.Content "").
Proof. vm_compute. reflexivity. Qed.

Lemma prolog_declaration :
  Xml.run Xml.initial xml_declaration = Xml.PState [] None false false (Xml.Content "").
Proof. vm_compute. reflexivity. Qed.

(** ** The builder *)

Lemma compat_app (a b : string) :
  Xml.xml_compatible (a ++ b) = Xml.xml_compatible a && Xml.xml_compatible b.
Proof. apply all_chars_app. Qed.

Lemma compat_uint (d : Decimal.uint) :
  Xml.xml_compatible (NilEmpty.string_of_uint d) = true.
Proof. induction d; cbn [NilEmpty.string_of_uint]; [reflexivity | exact IHd ..]. Qed.

Lemma compat_of_int (n : Z) : Xml.xml_compatible (PyStr.of_int n) = true.
Proof.
  unfold PyStr.of_int, NilZero.string_of_int, NilZero.string_of_uint.
  assert (H : forall d, Xml.xml_compatible
                          match d with
                          | Decimal.Nil => "0"
                          | _ => NilEmpty.string_of_uint d
                          end = true).
  { intros d. destruct d; try reflexivity; exact (compat_uint _). }
  destruct (Z.to_int n) as [d|d]; [apply H|].
  unfold Xml.xml_compatible. cbn [Xml.all_chars]. apply H.
Qed.

Lemma xml_str_returns (s s' : string) :
  xml_str s = Returns s' -> s' = s /\ Xml.xml_compatible s = true.
Proof.
  unfold xml_str. destruct (Xml.xml_compatible s); [|discriminate].
  intros H. injection H as <-. now split.
Qed.

Lemma wf_new (t : string) (a : list (string * string)) (cs : list element) :
  Xml.is_name t = true -> writable_attrs a = true -> forallb well_formed cs = true ->
  well_formed (Etree.new t a cs) = true.
Proof. intros Ht Ha Hcs. cbn [Etree.new well_formed writable_text]. now rewrite Ht, Ha, Hcs. Qed.

Lemma wf_leaf (t : string) (a : list (string * string)) (x : string) :
  Xml.is_name t = true -> writable_attrs a = true -> Xml.xml_compatible x = true ->
  well_formed (Etree.leaf t a x) = true.
Proof.
  intros Ht Ha Hx. cbn [Etree.leaf well_formed writable_text forallb]. now rewrite Ht, Ha, Hx.
Qed.

Lemma wf_attr (k v : string) :
  Xml.is_name k = true -> String.eqb k "xmlns" = false -> Xml.xml_compatible v = true ->
  writable_attrs [(k, v)] = true.
Proof.
  intros Hk Hns Hv. unfold writable_attrs. cbn [forallb map fst snd distinct existsb].
  now rewrite Hk, Hns, Hv.
Qed.

Lemma forallb_app_true {A : Type} (f : A -> bool) (l1 l2 : list A) :
  forallb f l1 = true -> forallb f l2 = true -> forallb f (l1 ++ l2) = true.
Proof. intros H1 H2. rewrite forallb_app. now rewrite H1, H2. Qed.

Lemma forallb_repeat {A : Type} (f : A -> bool) (x : A) (n : nat) :
  f x = true -> forallb f (repeat x n) = true.
Proof. intros H. induction n as [|n IH]; [reflexivity|]. cbn [repeat forallb]. now rewrite H. Qed.

Lemma forallb_map_true {A B : Type} (f : B -> bool) (g : A -> B) (l : list A) :
  (forall x, f (g x) = true) -> forallb f (map g l) = true.
Proof. intros H. induction l as [|x l IH]; [reflexivity|]. cbn [map forallb]. now rewrite H. Qed.

Lemma clef_compatible (clef_type : string) :
  Xml.xml_compatible (fst (get_clef_info clef_type)) = true
  /\ Xml.xml_compatible (snd (get_clef_info clef_type)) = true.
Proof.
  unfold get_clef_info.
  repeat (match goal with |- context [if ?b then _ else _] => destruct b end;
          [now split|]).
  now split.
Qed.

Lemma wf_measure_of (part_idx : nat) (clef_sign clef_line : string)
  (time_sig : Z * Z) (key_fifths tempo m : Z) :
  Xml.xml_compatible clef_sign = true -> Xml.xml_compatible clef_line = true ->
  well_formed (measure_of part_idx clef_sign clef_line time_sig key_fifths tempo m) = true.
Proof.
  intros Hs Hl. unfold measure_of.
  apply wf_new; [reflexivity | apply wf_attr; [reflexivity .. | apply compat_of_int] |].
  apply forallb_app_true; [|now apply forallb_repeat].
  destruct (m =? 1)%Z; [|reflexivity].
  cbn [forallb]. rewrite andb_true_iff. split.
  - unfold attributes_of.
    apply wf_new; [reflexivity .. |]. cbn [forallb].
    rewrite !andb_true_iff. repeat split.
    + apply wf_new; [reflexivity .. |]. cbn [forallb].
      now rewrite (wf_leaf "fifths" [] _ eq_refl eq_refl (compat_of_int key_fifths)).
    + apply wf_new; [reflexivity .. |]. cbn [forallb].
      rewrite (wf_leaf "beats" [] _ eq_refl eq_refl (compat_of_int (fst time_sig))).
      now rewrite (wf_leaf "beat-type" [] _ eq_refl eq_refl (compat_of_int (snd time_sig))).
    + apply wf_new; [reflexivity .. |]. cbn [forallb].
      rewrite (wf_leaf "sign" [] _ eq_refl eq_refl Hs).
      now rewrite (wf_leaf "line" [] _ eq_refl eq_refl Hl).
  - destruct (part_idx =? 0)%nat; [|reflexivity]. cbn [forallb]. rewrite andb_true_r.
    unfold direction_of.
    apply wf_new; [reflexivity .. |]. cbn [forallb]. rewrite !andb_true_iff. repeat split.
    + apply wf_new; [reflexivity .. |]. cbn [forallb]. rewrite andb_true_r.
      apply wf_new; [reflexivity .. |]. cbn [forallb].
      now rewrite (wf_leaf "per-minute" [] _ eq_refl eq_refl (compat_of_int tempo)).
    + apply wf_new; [reflexivity | apply wf_attr; [reflexivity .. | apply compat_of_int]
                     | reflexivity].
Qed.

Lemma score_part_of_returns (pd : part_def) (sp : element) :
  score_part_of pd = Returns sp ->
  well_formed sp = true /\ Etree.tag sp = "score-part".
Proof.
  unfold score_part_of, xml_str.
  destruct (Xml.xml_compatible (pd_id pd)) eqn:Hid; [|discriminate]. cbn [bind].
  destruct (Xml.xml_compatible (pd_name pd)) eqn:Hname; [|discriminate]. cbn [bind].
  assert (Hinst : Xml.xml_compatible (pd_id pd ++ "-I1") = true)
    by (rewrite compat_app, Hid; reflexivity).
  set (inst := pd_id pd ++ "-I1") in *.
  assert (Hrest : forall abbrev,
    forallb well_formed abbrev = true ->
    well_formed
      (Etree.new "score-part" [("id", pd_id pd)]
         ([Etree.leaf "part-name" [] (pd_name pd)] ++ abbrev ++
          [Etree.new "score-instrument" [("id", inst)]
             [Etree.leaf "instrument-name" [] (pd_name pd)];
           Etree.new "midi-instrument" [("id", inst)]
             [Etree.leaf "midi-channel" [] "1";
              Etree.leaf "midi-program" []
                (PyStr.of_int (match pd_midi_program pd with Some p => p | None => 0 end + 1))]])
         %list) = true).
  { intros abbrev Habbrev.
    apply wf_new; [reflexivity | now apply wf_attr |].
    cbn [app forallb]. rewrite (wf_leaf "part-name" [] _ eq_refl eq_refl Hname). cbn [andb].
    apply forallb_app_true; [exact Habbrev|]. cbn [forallb].
    rewrite !andb_true_iff. repeat split.
    - apply wf_new; [reflexivity | now apply wf_attr |]. cbn [forallb].
      now rewrite (wf_leaf "instrument-name" [] _ eq_refl eq_refl Hname).
    - apply wf_new; [reflexivity | now apply wf_attr |]. cbn [forallb].
      now rewrite (wf_leaf "midi-program" [] _ eq_refl eq_refl (compat_of_int _)). }
  destruct (truthy (pd_abbreviation pd)).
  - destruct (Xml.xml_compatible
                match pd_abbreviation pd with Some a => a | None => "" end) eqn:Ha;
      [|discriminate].
    cbn [bind]. intros H. injection H as <-. split; [|reflexivity].
    apply (Hrest [Etree.leaf "part-abbreviation" []
                    match pd_abbreviation pd with Some a => a | None => "" end]).
    cbn [forallb].
    now rewrite (wf_leaf "part-abbreviation" [] _ eq_refl eq_refl Ha).
  - cbn [bind]. intros H. injection H as <-. split; [|reflexivity]. now apply (Hrest []).
Qed.

Lemma part_of_returns (time_sig : Z * Z) (key_fifths tempo measures : Z)
  (part_idx : nat) (pd : part_def) (p : element) :
  part_of time_sig key_fifths tempo measures part_idx pd = Returns p ->
  well_formed p = true
  /\ p = Etree.new "part" [("id", pd_id pd)]
           (map (measure_of part_idx
                   (fst (get_clef_info (match pd_clef pd with Some c => c | None => "G" end)))
                   (snd (get_clef_info (match pd_clef pd with Some c => c | None => "G" end)))
                   time_sig key_fifths tempo)
                (range1 measures)).
Proof.
  unfold part_of, xml_str.
  destruct (Xml.xml_compatible (pd_id pd)) eqn:Hid; [|discriminate]. cbn [bind].
  destruct (clef_compatible (match pd_clef pd with Some c => c | None => "G" end))
    as [Hs Hl].
  destruct (get_clef_info _) as [clef_sign clef_line]. cbn [fst snd] in *.
  intros H. injection H as <-. split; [|reflexivity].
  apply wf_new; [reflexivity | now apply wf_attr |].
  apply forallb_map_true. intros m. now apply wf_measure_of.
Qed.

Lemma map_m_forall {A B : Type} (f : A -> py_result B) (P : B -> Prop) (l : list A) :
  (forall x y, f x = Returns y -> P y) ->
  forall ys, map_m f l = Returns ys -> Forall P ys.
Proof.
  intros H. induction l as [|x l IH]; intros ys; cbn [map_m].
  - intros E. injection E as <-. constructor.
  - destruct (f x) as [y|] eqn:Ey; [|discriminate]. cbn [bind].
    destruct (map_m f l) as [ys'|]; [|discriminate]. cbn [bind].
    intros E. injection E as <-. constructor; [now apply (H x) | now apply IH].
Qed.

Lemma map_mi_forall2 {A B : Type} (f : nat -> A -> py_result B) (l : list A) :
  forall i ys, map_mi f i l = Returns ys ->
  List.length ys = List.length l
  /\ forall k x, nth_error l k = Some x ->
       exists y, nth_error ys k = Some y /\ f (i + k)%nat x = Returns y.
Proof.
  induction l as [|x l IH]; intros i ys; cbn [map_mi].
  - intros E. injection E as <-. split; [reflexivity|]. intros [|k] x H; discriminate.
  - destruct (f i x) as [y|] eqn:Ey; [|discriminate]. cbn [bind].
    destruct (map_mi f (S i) l) as [ys'|] eqn:E'; [|discriminate]. cbn [bind].
    intros E. injection E as <-. destruct (IH _ _ E') as [Hlen Hnth].
    split; [cbn; now rewrite Hlen|].
    intros [|k] x0 H; cbn [nth_error] in *.
    + injection H as <-. exists y. now rewrite Nat.add_0_r.
    + destruct (Hnth k x0 H) as (y0 & Hy0 & Hf). exists y0.
      split; [exact Hy0|]. now rewrite Nat.add_succ_r.
Qed.

Lemma parts_built (time_sig : Z * Z) (key_fifths tempo measures : Z) (parts : list part_def) :
  forall i ps,
  map_mi (part_of time_sig key_fifths tempo measures) i parts = Returns ps ->
  ps = part_trees time_sig key_fifths tempo measures i parts
  /\ forallb well_formed ps = true.
Proof.
  induction parts as [|pd parts IH]; intros i ps; cbn [map_mi part_trees].
  - intros E. injection E as <-. now split.
  - destruct (part_of time_sig key_fifths tempo measures i pd) as [p|] eqn:Ep;
      [|discriminate]. cbn [bind].
    destruct (map_mi _ (S i) parts) as [ps'|] eqn:E'; [|discriminate]. cbn [bind].
    intros E. injection E as <-.
    destruct (part_of_returns _ _ _ _ _ _ _ Ep) as [Hwf ->].
    destruct (IH _ _ E') as [-> Hwfs]. split; [reflexivity|].
    cbn [forallb]. now rewrite Hwf, Hwfs.
Qed.

Lemma part_trees_are_parts (time_sig : Z * Z) (key_fifths tempo measures : Z)
  (parts : list part_def) (i : nat) (t : string) :
  filter (Etree.has_tag t) (part_trees time_sig key_fifths tempo measures i parts)
  = if String.eqb "part" t
    then part_trees time_sig key_fifths tempo measures i parts else [].
Proof.
  revert i. induction parts as [|pd parts IH]; intros i; cbn [part_trees filter].
  - now destruct (String.eqb "part" t).
  - unfold Etree.has_tag at 1. cbn [Etree.new Etree.tag]. rewrite IH.
    now destruct (String.eqb "part" t).
Qed.

Lemma check_parts_built (time_sig : Z * Z) (key_fifths tempo measures : Z)
  (parts : list part_def) (i : nat) :
  check_parts (part_trees time_sig key_fifths tempo measures i parts)
  = match parts with
    | [] => (true, None)
    | pd :: _ =>
        if (measures <? 1)%Z
        then (false, Some ("Part '" ++ pd_id pd ++ "' has no measures"))
        else (true, None)
    end.
Proof.
  revert i. induction parts as [|pd parts IH]; intros i; [reflexivity|].
  cbn [part_trees check_parts].
  assert (Hm : Etree.findall "measure"
                 (Etree.new "part" [("id", pd_id pd)]
                    (map (measure_of i
                            (fst (get_clef_info
                                    (match pd_clef pd with Some c => c | None => "G" end)))
                            (snd (get_clef_info
                                    (match pd_clef pd with Some c => c | None => "G" end)))
                            time_sig key_fifths tempo) (range1 measures)))
               = map (measure_of i
                            (fst (get_clef_info
                                    (match pd_clef pd with Some c => c | None => "G" end)))
                            (snd (get_clef_info
                                    (match pd_clef pd with Some c => c | None => "G" end)))
                            time_sig key_fifths tempo) (range1 measures)).
  { unfold Etree.findall. cbn [Etree.new Etree.children].
    apply filter_all. now apply forallb_map_true. }
  rewrite Hm, length_map. unfold range1. rewrite length_map, length_seq.
  destruct (Z.ltb_spec measures 1).
  - replace (Z.to_nat measures) with 0%nat by lia. reflexivity.
  - destruct (Z.to_nat measures) eqn:E; [lia|]. cbn [Nat.eqb].
    rewrite IH. destruct parts; [reflexivity|].
    destruct (Z.ltb_spec measures 1); [lia | reflexivity].
Qed.

(** The tree built from part definitions: it can be written, and the
    structural checks give the verdict of [built_verdict]. *)
Lemma builder_tree (title composer : string) (parts : option (list part_def))
  (time_sig : Z * Z) (key_fifths tempo measures : Z) (root : element) :
  empty_score_tree title composer parts time_sig key_fifths tempo measures = Returns root ->
  well_formed root = true
  /\ check_root root = built_verdict (parts_or_default parts) measures
  /\ Etree.findall "part" root
     = part_trees time_sig key_fifths tempo measures 0 (parts_or_default parts).
Proof.
  unfold empty_score_tree. fold (parts_or_default parts).
  set (defs := parts_or_default parts).
  unfold xml_str at 1.
  destruct (Xml.xml_compatible title) eqn:Htitle; [|discriminate]. cbn [bind].
  destruct (match composer with
            | "" => Returns []
            | String _ _ =>
                c <- xml_str composer;;
                Returns [Etree.new "identification" []
                           [Etree.leaf "creator" [("type", "composer")] c]]
            end) as [ident|] eqn:Eident; [|discriminate]. cbn [bind].
  assert (Hident : forallb well_formed ident = true
                   /\ forall t, filter (Etree.has_tag t) ident
                        = if String.eqb "identification" t then ident else []).
  { destruct composer as [|c0 composer].
    - injection Eident as <-. split; [reflexivity|].
      intros t. now destruct (String.eqb "identification" t).
    - unfold xml_str in Eident.
      destruct (Xml.xml_compatible (String c0 composer)) eqn:Hc; [|discriminate].
      cbn [bind] in Eident. injection Eident as <-. split.
      + cbn [forallb]. rewrite andb_true_r.
        apply wf_new; [reflexivity .. |]. cbn [forallb]. rewrite andb_true_r.
        apply wf_leaf; [reflexivity | now apply wf_attr | exact Hc].
      + intros t. cbn [filter]. unfold Etree.has_tag. cbn [Etree.new Etree.tag].
        now destruct (String.eqb "identification" t). }
  destruct Hident as [Hwf_ident Hfilter_ident].
  destruct (map_m score_part_of defs) as [sps|] eqn:Esps; [|discriminate]. cbn [bind].
  destruct (map_mi (part_of time_sig key_fifths tempo measures) 0 defs) as [ps|] eqn:Eps;
    [|discriminate]. cbn [bind].
  intros H. injection H as <-.
  destruct (parts_built _ _ _ _ _ _ _ Eps) as [-> Hwf_ps].
  assert (Hwf_sps : forallb well_formed sps = true).
  { apply forallb_forall. apply Forall_forall.
    apply (map_m_forall score_part_of (fun y => well_formed y = true) defs); [|exact Esps].
    intros x y Hy. now destruct (score_part_of_returns x y Hy). }
  match goal with |- well_formed ?r = true /\ _ => set (root := r) end.
  assert (Hfilter : forall t,
            Etree.findall t root
            = ((if String.eqb "work" t
                then [Etree.new "work" [] [Etree.leaf "work-title" [] title]] else [])
               ++ (if String.eqb "identification" t then ident else [])
               ++ (if String.eqb "part-list" t then [Etree.new "part-list" [] sps] else [])
               ++ (if String.eqb "part" t
                   then part_trees time_sig key_fifths tempo measures 0 defs else []))%list).
  { intros t. unfold Etree.findall, root. cbn [Etree.new Etree.children app].
    cbn [filter]. rewrite filter_app, Hfilter_ident. cbn [filter].
    rewrite part_trees_are_parts.
    unfold Etree.has_tag. cbn [Etree.new Etree.tag].
    now destruct (String.eqb "work" t), (String.eqb "part-list" t). }
  assert (Hparts : Etree.findall "part" root
                   = part_trees time_sig key_fifths tempo measures 0 defs).
  { rewrite Hfilter. cbn [String.eqb Ascii.eqb Bool.eqb app]. reflexivity. }
  split; [|split; [|exact Hparts]].
  - unfold root. apply wf_new; [reflexivity | now apply wf_attr |].
    cbn [app forallb]. rewrite andb_true_iff. split.
    { apply wf_new; [reflexivity .. |].
      cbn [forallb]. rewrite andb_true_r. now apply wf_leaf. }
    apply forallb_app_true; [exact Hwf_ident|].
    cbn [forallb]. rewrite Hwf_ps, andb_true_r. now apply wf_new.
  - unfold check_root, Etree.find. rewrite Hparts, (Hfilter "part-list").
    change (Etree.tag root) with "score-partwise".
    cbn [String.eqb Ascii.eqb Bool.eqb app orb negb].
    unfold built_verdict. rewrite check_parts_built.
    destruct defs as [|pd defs']; reflexivity.
Qed.

Lemma measure_summary_skeleton (root : element) :
  Scenario.measure_summary (skeleton root) = Scenario.measure_summary root.
Proof.
  unfold Scenario.measure_summary. rewrite skeleton_findall, map_map.
  apply map_ext. intros p. unfold Etree.get_default.
  rewrite skeleton_get, skeleton_findall, map_map. f_equal.
  apply map_ext. intros m. rewrite skeleton_get, skeleton_children, map_map. f_equal.
  apply map_ext. intros c. apply skeleton_tag.
Qed.

Lemma measure_summary_built (time_sig : Z * Z) (key_fifths tempo measures : Z)
  (parts : list part_def) (i : nat) :
  map (fun p => (Etree.get_default p "id" "",
                 map (fun m => (Etree.get m "number", map Etree.tag (Etree.children m)))
                     (Etree.findall "measure" p)))
      (part_trees time_sig key_fifths tempo measures i parts)
  = built_summary time_sig measures i parts.
Proof.
  revert i. induction parts as [|pd parts IH]; intros i; [reflexivity|].
  cbn [part_trees built_summary map]. rewrite IH. f_equal.
  apply f_equal2; [reflexivity|].
  unfold Etree.findall. cbn [Etree.new Etree.children].
  rewrite filter_all by (now apply forallb_map_true).
  rewrite map_map. apply map_ext. intros m.
  apply f_equal2; [reflexivity|].
  unfold measure_of. cbn [Etree.new Etree.children].
  rewrite map_app. f_equal.
  - destruct (m =? 1)%Z; [|reflexivity]. now destruct (i =? 0)%nat.
  - induction (Z.to_nat (fst time_sig)) as [|n IHn]; [reflexivity|].
    cbn [repeat map]. now rewrite IHn.
Qed.

(** What [create_empty_score] returns is read back, by the reference
    reader, as a tree with the skeleton of the tree it built. *)
Lemma create_reads_back (title composer : string) (parts : option (list part_def))
  (time_sig : Z * Z) (key_fifths tempo measures : Z) (doc : string) :
  Scenario.create title composer parts time_sig key_fifths tempo measures = Returns doc ->
  exists root root',
    empty_score_tree title composer parts time_sig key_fifths tempo measures = Returns root
    /\ Xml.fromstring doc = Returns root'
    /\ skeleton root' = skeleton root.
Proof.
  unfold Scenario.create, create_empty_score.
  destruct (empty_score_tree _ _ _ _ _ _ _) as [root|] eqn:E; [|discriminate].
  cbn [bind]. intros H. injection H as <-.
  destruct (builder_tree _ _ _ _ _ _ _ _ E) as (Hwf & _).
  destruct (read_document (xml_declaration ++ MUSICXML_DOCTYPE ++ PyStr.nl) true root
              prolog_with_doctype Hwf) as (root' & Hparse & Hskel).
  exists root, root'. split; [reflexivity|]. split; [|exact Hskel].
  rewrite <- Hparse. now rewrite !append_assoc.
Qed.

(** The verdict of the validator on a built score: an explicit empty list
    of parts gives a score without part; fewer than one measure gives
    parts without measures, and the first one is named; anything else is
    valid. *)
Theorem validate_created_score (title composer : string) (parts : option (list part_def))
  (time_sig : Z * Z) (key_fifths tempo measures : Z) (doc : string)
  (Hdoc : Scenario.create title composer parts time_sig key_fifths tempo measures
          = Returns doc) :
  Scenario.validate doc = built_verdict (parts_or_default parts) measures.
Proof.
  destruct (create_reads_back _ _ _ _ _ _ _ _ Hdoc) as (root & root' & E & Hparse & Hskel).
  destruct (builder_tree _ _ _ _ _ _ _ _ E) as (_ & Hverdict & _).
  unfold Scenario.validate, validate_musicxml. rewrite Hparse.
  now rewrite <- check_root_skeleton, Hskel, check_root_skeleton.
Qed.

Lemma validate_created_score_witness :
  (exists doc, Scenario.create "Untitled" "" (Some []) (4, 4)%Z 0 120 4 = Returns doc
               /\ Scenario.validate doc = (false, Some "No <part> elements found"))
  /\ (exists doc, Scenario.create "Untitled" "" None (4, 4)%Z 0 120 0 = Returns doc
                  /\ Scenario.validate doc = (false, Some "Part 'P1' has no measures")).
Proof.
  split; eexists; (split; [vm_compute; reflexivity|]).
  - apply (validate_created_score "Untitled" "" (Some []) (4, 4)%Z 0 120 4).
    vm_compute. reflexivity.
  - apply (validate_created_score "Untitled" "" None (4, 4)%Z 0 120 0).
    vm_compute. reflexivity.
Defined.

(** A score built from the default part or from a non-empty list of part
    definitions, with at least one measure, passes the validator. *)
Theorem created_score_is_valid (title composer : string) (parts : option (list part_def))
  (time_sig : Z * Z) (key_fifths tempo measures : Z) (doc : string)
  (Hparts : parts <> Some [])
  (Hmeasures : (1 <= measures)%Z)
  (Hdoc : Scenario.create title composer parts time_sig key_fifths tempo measures
          = Returns doc) :
  Scenario.validate doc = (true, None).
Proof.
  destruct (create_reads_back _ _ _ _ _ _ _ _ Hdoc) as (root & root' & E & Hparse & Hskel).
  destruct (builder_tree _ _ _ _ _ _ _ _ E) as (_ & Hverdict & _).
  unfold Scenario.validate, validate_musicxml. rewrite Hparse.
  rewrite <- check_root_skeleton, Hskel, check_root_skeleton, Hverdict.
  unfold built_verdict, parts_or_default.
  destruct parts as [[|pd ps]|]; [now elim Hparts | |];
    cbn [default_parts]; destruct (Z.ltb_spec measures 1); try lia; reflexivity.
Qed.

Lemma created_score_is_valid_witness :
  exists doc,
    Scenario.create "Untitled" "" None (4, 4)%Z 0 120 4 = Returns doc
    /\ Scenario.validate doc = (true, None).
Proof.
  eexists. split; [vm_compute; reflexivity|].
  apply (created_score_is_valid "Untitled" "" None (4, 4)%Z 0 120 4).
  - discriminate.
  - lia.
  - vm_compute. reflexivity.
Defined.

(** C8: for the default part or a non-empty list of part definitions and
    a measure count of at least 1, the document [create_empty_score]
    produces passes the validator: [validate_musicxml] answers
    [(True, None)] on it. *)
Theorem builder_output_passes_validator (title composer : string)
  (parts : option (list part_def)) (time_sig : Z * Z) (key_fifths tempo measures : Z)
  (doc : string)
  (Hparts : parts = None \/ exists pd ps, parts = Some (pd :: ps))
  (Hmeasures : (measures >= 1)%Z)
  (Hdoc : create_empty_score Xml.tostring title composer parts time_sig key_fifths tempo
            measures = Returns doc) :
  validate_musicxml Xml.fromstring doc = (true, None).
Proof.
  destruct (create_reads_back _ _ _ _ _ _ _ _ Hdoc) as (root & root' & E & Hparse & Hskel).
  destruct (builder_tree _ _ _ _ _ _ _ _ E) as (_ & Hverdict & _).
  unfold validate_musicxml. rewrite Hparse.
  rewrite <- check_root_skeleton, Hskel, check_root_skeleton, Hverdict.
  assert (Hfirst : exists pd ps, parts_or_default parts = pd :: ps).
  { destruct Hparts as [Hp | (pd & ps & Hp)]; rewrite Hp;
      unfold parts_or_default, default_parts; eexists; eexists; reflexivity. }
  destruct Hfirst as (pd & ps & ->). unfold built_verdict.
  destruct (Z.ltb_spec measures 1); [lia | reflexivity].
Qed.

Lemma builder_output_passes_validator_witness :
  match create_empty_score Xml.tostring "Duo" "Anon"
          (Some [PartDef "P1" "Flute" None None None;
                 PartDef "P2" "Cello" (Some "Vc.") (Some "F") (Some 42%Z)])
          (3, 4)%Z (-2) 90 2 with
  | Returns doc => validate_musicxml Xml.fromstring doc = (true, None)
  | Raises _ => False
  end.
Proof.
  destruct (create_empty_score Xml.tostring "Duo" "Anon"
              (Some [PartDef "P1" "Flute" None None None;
                     PartDef "P2" "Cello" (Some "Vc.") (Some "F") (Some 42%Z)])
              (3, 4)%Z (-2) 90 2) as [doc|e] eqn:Hdoc.
  - apply (builder_output_passes_validator "Duo" "Anon"
             (Some [PartDef "P1" "Flute" None None None;
                    PartDef "P2" "Cello" (Some "Vc.") (Some "F") (Some 42%Z)])
             (3, 4)%Z (-2) 90 2 doc).
    + right. eexists. eexists. reflexivity.
    + lia.
    + exact Hdoc.
  - vm_compute in Hdoc. discriminate Hdoc.
Defined.



Lemma returns_bind {A B : Type} (r : py_result A) (k : A -> py_result B) :
  returns (bind r k)
  = match r with Returns a => returns (k a) | Raises _ => false end.
Proof. now destruct r. Qed.

Lemma xml_str_returns_iff (s : string) : returns (xml_str s) = Xml.xml_compatible s.
Proof. unfold xml_str. now destruct (Xml.xml_compatible s). Qed.

Lemma score_part_of_returns_iff (pd : part_def) :
  returns (score_part_of pd) = part_strings_ok pd.
Proof.
  unfold score_part_of, part_strings_ok, xml_str.
  destruct (Xml.xml_compatible (pd_id pd)); [|reflexivity]. cbn [bind andb].
  destruct (Xml.xml_compatible (pd_name pd)); [|reflexivity]. cbn [bind andb].
  destruct (truthy (pd_abbreviation pd)); [|reflexivity].
  now destruct (Xml.xml_compatible _).
Qed.

Lemma map_mi_returns {A B : Type} (f : nat -> A -> py_result B) (g : A -> bool)
  (l : list A) :
  (forall i x, returns (f i x) = g x) ->
  forall i, returns (map_mi f i l) = forallb g l.
Proof.
  intros H. induction l as [|x l IH]; intros i; [reflexivity|]. cbn [map_mi forallb].
  rewrite <- (H i x), <- (IH (S i)).
  destruct (f i x); cbn [bind returns andb]; [|reflexivity].
  now destruct (map_mi f (S i) l).
Qed.

Lemma part_of_returns_iff (time_sig : Z * Z) (key_fifths tempo measures : Z)
  (i : nat) (pd : part_def) :
  returns (part_of time_sig key_fifths tempo measures i pd) = Xml.xml_compatible (pd_id pd).
Proof.
  unfold part_of, xml_str. destruct (Xml.xml_compatible (pd_id pd)); [|reflexivity].
  cbn [bind]. now destruct (get_clef_info _).
Qed.

Lemma forallb_pointwise {A : Type} (f g : A -> bool) (l : list A) :
  (forall x, f x = g x) -> forallb f l = forallb g l.
Proof.
  intros H. induction l as [|x l IH]; [reflexivity|]. cbn [forallb]. now rewrite H, IH.
Qed.

Lemma forallb_weaker {A : Type} (f g : A -> bool) (l : list A) :
  (forall x, f x = true -> g x = true) ->
  forallb f l && forallb g l = forallb f l.
Proof.
  intros H. induction l as [|x l IH]; [reflexivity|]. cbn [forallb].
  destruct (f x) eqn:E; [|reflexivity]. rewrite (H x E). cbn [andb].
  destruct (forallb f l); [exact IH | reflexivity].
Qed.

Lemma xml_str_raises (s : string) (e : py_exception) :
  xml_str s = Raises e -> e = not_compatible.
Proof.
  unfold xml_str. destruct (Xml.xml_compatible s); [discriminate|].
  intros H. now injection H as <-.
Qed.

Lemma bind_raises {A B : Type} (r : py_result A) (k : A -> py_result B) (e : py_exception) :
  bind r k = Raises e -> r = Raises e \/ exists a, r = Returns a /\ k a = Raises e.
Proof.
  destruct r as [a|e']; cbn [bind]; intros H; [right; eauto | left].
  now injection H as <-.
Qed.

Lemma score_part_of_raises (pd : part_def) (e : py_exception) :
  score_part_of pd = Raises e -> e = not_compatible.
Proof.
  unfold score_part_of. intros H.
  apply bind_raises in H as [H | (id & _ & H)]; [now apply xml_str_raises in H|].
  apply bind_raises in H as [H | (name & _ & H)]; [now apply xml_str_raises in H|].
  apply bind_raises in H as [H | (abbrev & _ & H)]; [|discriminate].
  destruct (truthy (pd_abbreviation pd)); [|discriminate].
  apply bind_raises in H as [H | (a & _ & H)]; [now apply xml_str_raises in H | discriminate].
Qed.

Lemma part_of_raises (time_sig : Z * Z) (key_fifths tempo measures : Z)
  (i : nat) (pd : part_def) (e : py_exception) :
  part_of time_sig key_fifths tempo measures i pd = Raises e -> e = not_compatible.
Proof.
  unfold part_of. intros H.
  apply bind_raises in H as [H | (id & _ & H)]; [now apply xml_str_raises in H|].
  now destruct (get_clef_info _).
Qed.

Lemma map_m_raises {A B : Type} (f : A -> py_result B) (P : py_exception -> Prop)
  (l : list A) (e : py_exception) :
  (forall x e, f x = Raises e -> P e) -> map_m f l = Raises e -> P e.
Proof.
  intros H. induction l as [|x l IH]; cbn [map_m]; [discriminate|]. intros E.
  apply bind_raises in E as [E | (y & _ & E)]; [now apply (H x)|].
  apply bind_raises in E as [E | (ys & _ & E)]; [now apply IH | discriminate].
Qed.

Lemma map_mi_raises {A B : Type} (f : nat -> A -> py_result B) (P : py_exception -> Prop)
  (l : list A) (e : py_exception) :
  (forall i x e, f i x = Raises e -> P e) -> forall i, map_mi f i l = Raises e -> P e.
Proof.
  intros H. induction l as [|x l IH]; intros i; cbn [map_mi]; [discriminate|]. intros E.
  apply bind_raises in E as [E | (y & _ & E)]; [now apply (H i x)|].
  apply bind_raises in E as [E | (ys & _ & E)]; [now apply (IH (S i)) | discriminate].
Qed.

Section BuilderFailure.

Variable tostring : element -> string.

(** For ASCII strings and numbers within the digit limit of [str],
    [create_empty_score] returns a document exactly when the title, the
    composer, and the id, name and (non-empty) abbreviation of every part
    are XML compatible, that is hold no control character other than tab,
    line feed and carriage return; otherwise it raises the [ValueError] of
    lxml. *)
Theorem create_returns_iff_strings_are_compatible (title composer : string)
  (parts : option (list part_def)) (time_sig : Z * Z) (key_fifths tempo measures : Z)
  (Hascii : ascii_strings title composer (parts_or_default parts) = true)
  (Hnumbers : numbers_written (parts_or_default parts) time_sig key_fifths tempo measures
              = true) :
  returns (create_empty_score tostring title composer parts time_sig key_fifths tempo measures)
  = strings_ok title composer (parts_or_default parts)
  /\ forall e,
       create_empty_score tostring title composer parts time_sig key_fifths tempo measures
       = Raises e ->
       e = not_compatible.
Proof.
  assert (Htree :
    returns (empty_score_tree title composer parts time_sig key_fifths tempo measures)
    = strings_ok title composer (parts_or_default parts)).
  { unfold empty_score_tree, strings_ok. fold (parts_or_default parts).
    rewrite returns_bind. unfold xml_str at 1.
    destruct (Xml.xml_compatible title); [|reflexivity]. cbn [andb].
    rewrite returns_bind.
    assert (Hc : returns (match composer with
                          | "" => Returns []
                          | String _ _ =>
                              c <- xml_str composer;;
                              Returns [Etree.new "identification" []
                                         [Etree.leaf "creator" [("type", "composer")] c]]
                          end) = Xml.xml_compatible composer).
    { destruct composer as [|c0 composer]; [reflexivity|].
      unfold xml_str. now destruct (Xml.xml_compatible (String c0 composer)). }
    destruct (match composer with "" => _ | String _ _ => _ end) as [ident|];
      cbn [returns] in Hc; rewrite <- Hc; [|reflexivity]. cbn [andb].
    assert (Hs : returns (map_m score_part_of (parts_or_default parts))
                 = forallb part_strings_ok (parts_or_default parts)).
    { rewrite map_m_returns. apply forallb_pointwise. apply score_part_of_returns_iff. }
    pose proof (map_mi_returns (part_of time_sig key_fifths tempo measures)
                  (fun pd => Xml.xml_compatible (pd_id pd)) (parts_or_default parts)
                  (part_of_returns_iff time_sig key_fifths tempo measures) 0) as Hp.
    rewrite <- (forallb_weaker part_strings_ok (fun pd => Xml.xml_compatible (pd_id pd))).
    - rewrite <- Hs, <- Hp.
      destruct (map_m score_part_of (parts_or_default parts)); [|reflexivity].
      cbn [bind returns andb].
      now destruct (map_mi _ 0 (parts_or_default parts)).
    - intros pd H. unfold part_strings_ok in H.
      apply andb_true_iff in H as [H _]. now apply andb_true_iff in H as [H _]. }
  split.
  - unfold create_empty_score. rewrite returns_bind.
    rewrite <- Htree. now destruct (empty_score_tree _ _ _ _ _ _ _).
  - intros e. unfold create_empty_score. intros H.
    apply bind_raises in H as [H | (root & _ & H)]; [|discriminate].
    unfold empty_score_tree in H.
    apply bind_raises in H as [H | (t & _ & H)]; [now apply xml_str_raises in H|].
    apply bind_raises in H as [H | (ident & _ & H)].
    { destruct composer; [discriminate|].
      apply bind_raises in H as [H | (c & _ & H)];
        [now apply xml_str_raises in H | discriminate]. }
    apply bind_raises in H as [H | (sps & _ & H)].
    { revert H. apply (map_m_raises score_part_of (fun e => e = not_compatible)).
      apply score_part_of_raises. }
    apply bind_raises in H as [H | (ps & _ & H)]; [|discriminate].
    revert H.
    apply (map_mi_raises (part_of time_sig key_fifths tempo measures)
             (fun e => e = not_compatible)).
    apply part_of_raises.
Qed.

End BuilderFailure.

Lemma create_returns_iff_strings_are_compatible_witness :
  Scenario.create (String (ascii_of_nat 7) "") "" None (4, 4)%Z 0 120 4
  = Raises not_compatible.
Proof.
  destruct (Scenario.create (String (ascii_of_nat 7) "") "" None (4, 4)%Z 0 120 4)
    as [doc|e] eqn:E.
  - vm_compute in E. discriminate E.
  - f_equal.
    assert (Hascii : ascii_strings (String (ascii_of_nat 7) "") "" (parts_or_default None)
                     = true) by (vm_compute; reflexivity).
    assert (Hnumbers : numbers_written (parts_or_default None) (4, 4)%Z 0 120 4 = true)
      by (vm_compute; reflexivity).
    apply (proj2 (create_returns_iff_strings_are_compatible Xml.tostring
                    (String (ascii_of_nat 7) "") "" None (4, 4)%Z 0 120 4
                    Hascii Hnumbers) e E).
Defined.

(** ** Validity after an excerpt or a merge *)

Lemma filter_map_same_tag (t : string) (h : element -> element) (cs : list element) :
  (forall c, Etree.has_tag t (h c) = Etree.has_tag t c) ->
  filter (Etree.has_tag t) (map h cs) = map h (filter (Etree.has_tag t) cs).
Proof.
  intros H. induction cs as [|c cs IH]; [reflexivity|]. cbn [map filter].
  rewrite H. destruct (Etree.has_tag t c); cbn [map]; now rewrite IH.
Qed.

Lemma check_parts_excerpt (start end_ : Z) (parts : list element) :
  check_parts (map (excerpt_of start end_) parts)
  = match List.find (fun p => negb (existsb (in_range start end_) (Etree.findall "measure" p)))
                    parts with
    | Some p => (false, Some (part_message p))
    | None => (true, None)
    end.
Proof.
  induction parts as [|p ps IH]; [reflexivity|]. cbn [map check_parts List.find].
  destruct (excerpt_of_measures start end_ p) as [-> _].
  rewrite numbered_from_length.
  assert (E : (List.length (filter (in_range start end_) (Etree.findall "measure" p)) =? 0)%nat
              = negb (existsb (in_range start end_) (Etree.findall "measure" p))).
  { induction (Etree.findall "measure" p) as [|m ms IHm]; [reflexivity|].
    cbn [filter existsb]. now destruct (in_range start end_ m). }
  rewrite E. destruct (negb _); [|exact IH].
  unfold part_message, Etree.get_default, excerpt_of. now rewrite get_set_children.
Qed.

Section ExcerptVerdict.

Variable fromstring : string -> py_result element.
Variable tostring : element -> string.

(** The excerpt of a valid document is valid exactly when every part has
    a measure in the range; otherwise the validator names the first part
    that has none. *)
Theorem excerpt_verdict (xml_string : string) (start end_ : Z) (root : element)
  (Hparse : fromstring xml_string = Returns root)
  (Hnum : integer_numbers root = true)
  (Hvalid : check_root root = (true, None)) :
  exists root',
    extract_measures fromstring tostring xml_string start end_
    = Returns (xml_declaration ++ tostring root')
    /\ check_root root'
       = match List.find (fun p => negb (existsb (in_range start end_)
                                                 (Etree.findall "measure" p)))
                         (Etree.findall "part" root) with
         | Some p => (false, Some (part_message p))
         | None => (true, None)
         end.
Proof.
  eexists. split.
  { unfold extract_measures. rewrite Hparse. cbn [bind].
    now rewrite (extract_tree_excerpt start end_ root Hnum). }
  pose proof (excerpt_parts start end_ root) as Hparts.
  set (step := fun c => if Etree.has_tag "part" c then excerpt_of start end_ c else c) in *.
  assert (Htag : forall t c, Etree.has_tag t (step c) = Etree.has_tag t c).
  { intros t c. unfold step. destruct (Etree.has_tag "part" c); [|reflexivity].
    apply has_tag_set_children. }
  unfold check_root in *. rewrite Hparts.
  replace (Etree.tag (Etree.set_children root (map step (Etree.children root))))
    with (Etree.tag root) by now destruct root.
  destruct (negb _); [discriminate|].
  unfold Etree.find in *.
  replace (Etree.findall "part-list"
             (Etree.set_children root (map step (Etree.children root))))
    with (map step (Etree.findall "part-list" root)).
  2: { unfold Etree.findall. rewrite children_set_children.
       symmetry. apply filter_map_same_tag. apply Htag. }
  destruct (Etree.findall "part-list" root); [discriminate|]. cbn [map].
  rewrite length_map.
  destruct (Etree.findall "part" root) as [|p ps]; [discriminate|].
  cbn [List.length Nat.eqb]. apply check_parts_excerpt.
Qed.

End ExcerptVerdict.

Lemma excerpt_verdict_witness :
  exists root',
    Scenario.excerpt Scenario.addition_3 5 9 = Returns (xml_declaration ++ Xml.tostring root')
    /\ check_root root' = (false, Some "Part 'P1' has no measures").
Proof.
  destruct (excerpt_verdict Xml.fromstring Xml.tostring Scenario.addition_3 5 9
              (Element "score-partwise" [] None
                 [Element "part-list" [] None
                    [Element "score-part" [("id", "P1")] None [] None] None;
                  Element "part" [("id", "P1")] None
                    [Element "measure" [("number", "1")] None
                       [Element "a" [] None [] None] None;
                     Element "measure" [("number", "2")] None
                       [Element "b" [] None [] None] None;
                     Element "measure" [("number", "3")] None
                       [Element "c" [] None [] None] None] None] None))
    as (root' & Hdoc & Hverdict).
  - vm_compute. reflexivity.
  - vm_compute. reflexivity.
  - vm_compute. reflexivity.
  - exists root'. split; [exact Hdoc | exact Hverdict].
Defined.

Lemma check_parts_valid (parts : list element) :
  check_parts parts = (true, None)
  <-> forallb (fun part => negb (List.length (Etree.findall "measure" part) =? 0)%nat) parts
      = true.
Proof.
  induction parts as [|p ps IH]; cbn [check_parts forallb]; [easy|].
  destruct (List.length (Etree.findall "measure" p) =? 0)%nat; cbn [negb andb]; [easy | exact IH].
Qed.

Lemma check_root_valid (root : element) :
  check_root root = (true, None) <-> valid_tree root = true.
Proof.
  unfold check_root, valid_tree, Etree.find.
  destruct (_ || _); cbn [negb andb]; [|easy].
  destruct (Etree.findall "part-list" root); cbn [List.length Nat.eqb negb andb]; [easy|].
  destruct (List.length (Etree.findall "part" root) =? 0)%nat; cbn [negb andb]; [easy|].
  apply check_parts_valid.
Qed.

Lemma grows_refl (e : element) : grows e e.
Proof. split; [reflexivity | intros; lia]. Qed.

Lemma filter_length_insert_at {A : Type} (p : A -> bool) (cs : list A) (i : Z) (x : A) :
  List.length (filter p cs) <= List.length (filter p (Etree.insert_at cs i x)).
Proof.
  unfold Etree.insert_at.
  set (j := Z.to_nat _).
  rewrite <- (firstn_skipn j cs) at 1.
  rewrite !filter_app, !length_app. cbn [filter].
  destruct (p x); cbn [List.length]; lia.
Qed.

Lemma filter_length_fold_insert {A : Type} (p : A -> bool) (idx : Z) (l : list (Z * A))
  (cs : list A) :
  List.length (filter p cs)
  <= List.length (filter p (fold_left (fun cs im => Etree.insert_at cs (idx + fst im) (snd im))
                                      l cs)).
Proof.
  revert cs. induction l as [|im l IH]; intros cs; cbn [fold_left]; [lia|].
  etransitivity; [|apply IH]. apply filter_length_insert_at.
Qed.

Lemma filter_length_renumber_from (t : string) (from : nat) (first : Z) (k : nat)
  (cs : list element) :
  List.length (filter (Etree.has_tag t) (renumber_from from first k cs))
  = List.length (filter (Etree.has_tag t) cs).
Proof.
  revert k. induction cs as [|c cs IH]; intros k; [reflexivity|]. cbn [renumber_from].
  destruct (Etree.has_tag "measure" c); cbn [filter].
  - replace (Etree.has_tag t (if (from <=? k)%nat then _ else c)) with (Etree.has_tag t c)
      by (destruct (from <=? k)%nat; [now rewrite has_tag_set | reflexivity]).
    destruct (Etree.has_tag t c); cbn [List.length]; now rewrite IH.
  - destruct (Etree.has_tag t c); cbn [List.length]; now rewrite IH.
Qed.

(** The merge of one part adds children to the base part and removes
    none. *)
Lemma merge_part_grows (at_measure : option Z) (new_part base_part : element) :
  grows base_part (merge_part at_measure new_part base_part).
Proof.
  split.
  - unfold merge_part. destruct at_measure; now destruct base_part.
  - intros t. unfold merge_part, Etree.findall.
    destruct at_measure as [at_measure|]; rewrite children_set_children.
    + etransitivity; [|apply filter_length_fold_insert].
      now rewrite filter_length_renumber_from.
    + rewrite filter_app, length_app. lia.
Qed.

Lemma update_first_split (g : element -> option element) (cs cs' : list element) :
  update_first g cs = Some cs' ->
  exists pre c c' post,
    cs = (pre ++ c :: post)%list /\ cs' = (pre ++ c' :: post)%list /\ g c = Some c'.
Proof.
  revert cs'. induction cs as [|c cs IH]; intros cs'; cbn [update_first]; [discriminate|].
  destruct (g c) as [c'|] eqn:E.
  - intros H. injection H as <-. now exists [], c, c', cs.
  - destruct (update_first g cs) as [cs''|]; [|discriminate].
    intros H. injection H as <-.
    destruct (IH cs'' eq_refl) as (pre & d & d' & post & -> & -> & Hd).
    now exists (c :: pre), d, d', post.
Qed.

Lemma split_grows (e e' : element) (pre post : list element) (c c' : element) :
  Etree.tag e' = Etree.tag e ->
  Etree.children e = (pre ++ c :: post)%list ->
  Etree.children e' = (pre ++ c' :: post)%list ->
  grows c c' -> grows e e'.
Proof.
  intros Ht He He' [Hc _]. split; [exact Ht|].
  intros t. unfold Etree.findall. rewrite He, He', !filter_app, !length_app.
  cbn [filter].
  replace (Etree.has_tag t c') with (Etree.has_tag t c)
    by (unfold Etree.has_tag; now rewrite Hc).
  destruct (Etree.has_tag t c); cbn [List.length]; lia.
Qed.

(** A replacement below the root changes one child of the root, which
    keeps its tag and loses no child. *)
Lemma update_first_part_grows (i : string) (f : element -> element) :
  (forall c, grows c (f c)) ->
  forall e e', update_first_part i f e = Some e' ->
    Etree.tag e' = Etree.tag e
    /\ exists pre c c' post,
         Etree.children e = (pre ++ c :: post)%list
         /\ Etree.children e' = (pre ++ c' :: post)%list
         /\ grows c c'.
Proof.
  intros Hf e. pattern e. apply element_induction. clear e.
  intros t a x cs l IH e'. cbn [update_first_part].
  destruct (update_first _ cs) as [cs'|] eqn:E; [|discriminate].
  intros H. injection H as <-. split; [reflexivity|].
  destruct (update_first_split _ _ _ E) as (pre & c & c' & post & -> & -> & Hc).
  exists pre, c, c', post. split; [reflexivity|]. split; [reflexivity|].
  destruct (is_part_with_id i c).
  - injection Hc as <-. apply Hf.
  - rewrite Forall_forall in IH.
    destruct (IH c (in_elt c pre post) c' Hc) as (Ht & pre' & d & d' & post' & H1 & H2 & Hd).
    exact (split_grows _ _ _ _ _ _ Ht H1 H2 Hd).
Qed.

Lemma valid_tree_grows (root root' : element) (pre post : list element) (c c' : element) :
  Etree.tag root' = Etree.tag root ->
  Etree.children root = (pre ++ c :: post)%list ->
  Etree.children root' = (pre ++ c' :: post)%list ->
  grows c c' ->
  valid_tree root = true -> valid_tree root' = true.
Proof.
  intros Ht He He' Hc. pose proof (split_grows _ _ _ _ _ _ Ht He He' Hc) as [_ Hlen].
  unfold valid_tree. rewrite Ht.
  intros H. apply andb_true_iff in H as [H H4]. apply andb_true_iff in H as [H H3].
  apply andb_true_iff in H as [H1 H2].
  rewrite H1. cbn [andb].
  apply negb_true_iff, Nat.eqb_neq in H2. apply negb_true_iff, Nat.eqb_neq in H3.
  pose proof (Hlen "part-list"). pose proof (Hlen "part").
  repeat (apply andb_true_iff; split).
  - apply negb_true_iff, Nat.eqb_neq. lia.
  - apply negb_true_iff, Nat.eqb_neq. lia.
  - revert H4. unfold Etree.findall. rewrite He, He', !filter_app, !forallb_app.
    cbn [filter]. destruct Hc as [Hc Hm].
    replace (Etree.has_tag "part" c') with (Etree.has_tag "part" c)
      by (unfold Etree.has_tag; now rewrite Hc).
    intros H4. apply andb_true_iff in H4 as [Hpre Hpost]. rewrite Hpre. cbn [andb].
    destruct (Etree.has_tag "part" c); [|exact Hpost].
    cbn [forallb] in *. apply andb_true_iff in Hpost as [Hcm Hpost]. rewrite Hpost.
    apply negb_true_iff, Nat.eqb_neq in Hcm.
    rewrite andb_true_r. apply negb_true_iff, Nat.eqb_neq.
    specialize (Hm "measure"). unfold Etree.findall in Hm. lia.
Qed.

Lemma merge_into_valid (at_measure : option Z) (base_root new_part merged : element) :
  merge_into at_measure base_root new_part = Returns merged ->
  valid_tree base_root = true -> valid_tree merged = true.
Proof.
  unfold merge_into. destruct (PyStr.contains _ _); [discriminate|].
  destruct (update_first_part _ _ base_root) as [root'|] eqn:E.
  - intros H. injection H as <-.
    destruct (update_first_part_grows _ _ (merge_part_grows at_measure new_part) _ _ E)
      as (Ht & pre & c & c' & post & H1 & H2 & Hc).
    exact (valid_tree_grows _ _ _ _ _ _ Ht H1 H2 Hc).
  - intros H. now injection H as <-.
Qed.

Lemma merge_trees_valid (at_measure : option Z) (new_parts : list element)
  (base_root merged : element) :
  for_each (merge_into at_measure) new_parts base_root = Returns merged ->
  valid_tree base_root = true -> valid_tree merged = true.
Proof.
  revert base_root. induction new_parts as [|p ps IH]; intros base_root; cbn [for_each].
  - intros H. now injection H as <-.
  - destruct (merge_into at_measure base_root p) as [root1|] eqn:E; [|discriminate].
    cbn [bind]. intros H Hv. exact (IH _ H (merge_into_valid _ _ _ _ E Hv)).
Qed.

Section MergeValidity.

Variable fromstring : string -> py_result element.
Variable tostring : element -> string.

(** A merge into a base that passes the validator's structural checks
    writes out a tree that passes them too, with or without a position,
    when the parts of the addition are looked up under ids without a
    single quote. *)
Theorem merge_keeps_validity (base_xml new_xml doc : string) (at_measure : option Z)
  (base_root new_root : element)
  (Hbase : fromstring base_xml = Returns base_root)
  (Hnew : fromstring new_xml = Returns new_root)
  (Hids : quote_free_ids new_root = true)
  (Hvalid : check_root base_root = (true, None))
  (Hdoc : merge_musicxml fromstring tostring base_xml new_xml at_measure = Returns doc) :
  exists merged,
    doc = xml_declaration ++ tostring merged
    /\ check_root merged = (true, None).
Proof.
  unfold merge_musicxml in Hdoc. rewrite Hbase, Hnew in Hdoc. cbn [bind] in Hdoc.
  unfold merge_trees in Hdoc.
  destruct (for_each _ _ base_root) as [merged|] eqn:E; [|discriminate].
  cbn [bind] in Hdoc. injection Hdoc as <-.
  exists merged. split; [reflexivity|].
  apply check_root_valid. apply check_root_valid in Hvalid.
  exact (merge_trees_valid _ _ _ _ E Hvalid).
Qed.

End MergeValidity.

Lemma merge_keeps_validity_witness :
  match Scenario.merge Scenario.base_2 Scenario.addition_3 (Some 2%Z) with
  | Returns doc =>
      exists merged, doc = xml_declaration ++ Xml.tostring merged
                     /\ check_root merged = (true, None)
  | Raises _ => False
  end.
Proof.
  destruct (Scenario.merge Scenario.base_2 Scenario.addition_3 (Some 2%Z)) as [doc|e] eqn:Hdoc.
  - apply (merge_keeps_validity Xml.fromstring Xml.tostring
             Scenario.base_2 Scenario.addition_3 doc (Some 2%Z)
             (Element "score-partwise" [] None
                [Element "part-list" [] None
                   [Element "score-part" [("id", "P1")] None [] None] None;
                 Element "part" [("id", "P1")] None
                   [Element "measure" [("number", "1")] None
                      [Element "x" [] None [] None] None;
                    Element "measure" [("number", "2")] None
                      [Element "y" [] None [] None] None] None] None)
             (Element "score-partwise" [] None
                [Element "part-list" [] None
                   [Element "score-part" [("id", "P1")] None [] None] None;
                 Element "part" [("id", "P1")] None
                   [Element "measure" [("number", "1")] None
                      [Element "a" [] None [] None] None;
                    Element "measure" [("number", "2")] None
                      [Element "b" [] None [] None] None;
                    Element "measure" [("number", "3")] None
                      [Element "c" [] None [] None] None] None] None)).
    + vm_compute. reflexivity.
    + vm_compute. reflexivity.
    + vm_compute. reflexivity.
    + vm_compute. reflexivity.
    + exact Hdoc.
  - vm_compute in Hdoc. discriminate Hdoc.
Defined.

(** ** The endpoint [/score/new] *)

Lemma built_summary_ids (time_sig : Z * Z) (measures : Z) (i : nat) (parts : list part_def) :
  map fst (built_summary time_sig measures i parts) = map pd_id parts.
Proof.
  revert i. induction parts as [|pd parts IH]; intros i; [reflexivity|].
  cbn [built_summary map fst]. now rewrite IH.
Qed.

Lemma enumerate_ids {A : Type} (f : A -> string * option string * option string * option Z)
  (k : nat) (l : list A) :
  map pd_id (map (fun ii => PartDef ("P" ++ PyStr.of_int (fst ii + 1))
                                    (fst (fst (fst (f (snd ii)))))
                                    (snd (fst (fst (f (snd ii)))))
                                    (snd (fst (f (snd ii))))
                                    (snd (f (snd ii))))
                 (Etree.enumerate_from (Z.of_nat k) l))
  = map (fun i => "P" ++ PyStr.of_int (Z.of_nat i)) (seq (S k) (List.length l)).
Proof.
  revert k. induction l as [|x l IH]; intros k; [reflexivity|].
  cbn [Etree.enumerate_from map List.length seq pd_id fst].
  f_equal.
  - now rewrite Nat2Z.inj_succ, Z.add_1_r.
  - rewrite <- IH. now rewrite Nat2Z.inj_succ, Z.add_1_r.
Qed.

(** The ids of the parts of a new score are [P1], [P2], ... in the order
    of the instruments, whatever ids the instruments carry; without
    instruments the score has the single part [P1]. *)
Theorem new_score_part_ids (request : NewScoreRequest) (doc : string)
  (Hdoc : new_score Xml.tostring request = Returns doc) :
  exists root',
    Xml.fromstring doc = Returns root'
    /\ map fst (Scenario.measure_summary root')
       = match ns_instruments request with
         | [] => ["P1"]
         | _ :: _ => map (fun i => "P" ++ PyStr.of_int (Z.of_nat i))
                         (seq 1 (List.length (ns_instruments request)))
         end.
Proof.
  unfold new_score in Hdoc.
  destruct (create_empty_score _ _ _ _ _ _ _ _) as [xml|] eqn:E; [|discriminate].
  injection Hdoc as <-.
  destruct (create_reads_back _ _ _ _ _ _ _ _ E) as (root & root' & Et & Hparse & Hskel).
  destruct (builder_tree _ _ _ _ _ _ _ _ Et) as (_ & _ & Hparts).
  exists root'. split; [exact Hparse|].
  rewrite <- measure_summary_skeleton, Hskel, measure_summary_skeleton.
  unfold Scenario.measure_summary. rewrite Hparts, measure_summary_built, built_summary_ids.
  unfold instruments_to_parts, parts_or_default.
  destruct (ns_instruments request) as [|inst insts] eqn:Ei; [reflexivity|].
  rewrite <- Ei. unfold Etree.enumerate.
  exact (enumerate_ids (fun i => (inst_name i, Some (inst_abbreviation i),
                                  Some (inst_clef i), Some (inst_midi_program i)))
                       0 (ns_instruments request)).
Qed.

(** What the validator says of a new score: it is valid when at least one
    measure is asked for; with fewer, its first part, [P1], has no
    measures. *)
Theorem new_score_verdict (request : NewScoreRequest) (doc : string)
  (Hdoc : new_score Xml.tostring request = Returns doc) :
  Scenario.validate doc
  = if (ns_measures request <? 1)%Z
    then (false, Some "Part 'P1' has no measures")
    else (true, None).
Proof.
  unfold new_score in Hdoc.
  destruct (create_empty_score _ _ _ _ _ _ _ _) as [xml|] eqn:E; [|discriminate].
  injection Hdoc as <-.
  destruct (create_reads_back _ _ _ _ _ _ _ _ E) as (root & root' & Et & Hparse & Hskel).
  destruct (builder_tree _ _ _ _ _ _ _ _ Et) as (_ & Hverdict & _).
  unfold Scenario.validate, validate_musicxml. rewrite Hparse.
  rewrite <- check_root_skeleton, Hskel, check_root_skeleton, Hverdict.
  unfold built_verdict, parts_or_default, instruments_to_parts.
  destruct (ns_instruments request) as [|inst insts]; reflexivity.
Qed.


Lemma new_score_part_ids_witness :
  exists doc root',
    new_score Xml.tostring duo_request = Returns doc
    /\ Xml.fromstring doc = Returns root'
    /\ map fst (Scenario.measure_summary root') = ["P1"; "P2"].
Proof.
  eexists.
  destruct (new_score_part_ids duo_request _ eq_refl) as (root' & Hparse & Hids).
  exists root'. split; [reflexivity|]. split; [exact Hparse | exact Hids].
Defined.

Lemma new_score_verdict_witness :
  exists doc,
    new_score Xml.tostring duo_request = Returns doc
    /\ Scenario.validate doc = (false, Some "Part 'P1' has no measures").
Proof.
  eexists. split; [vm_compute; reflexivity|].
  apply (new_score_verdict duo_request). vm_compute. reflexivity.
Defined.

(** ** [quick_fix] *)

Ltac bool_to_prop :=
  repeat match goal with
         | H : (_ && _) = true |- _ => apply andb_true_iff in H; destruct H
         | H : (_ || _) = true |- _ => apply orb_true_iff in H; destruct H
         | H : (_ =? _)%nat = true |- _ => apply Nat.eqb_eq in H
         | H : (_ <=? _)%nat = true |- _ => apply Nat.leb_le in H
         end.

Lemma space1_code (c : ascii) :
  PyText.space1 c = true -> nat_of_ascii c <= 32.
Proof. unfold PyText.space1. intros H. bool_to_prop; lia. Qed.

Lemma space2_code (c1 c2 : ascii) :
  PyText.space2 c1 c2 = true -> 128 <= nat_of_ascii c1 /\ 128 <= nat_of_ascii c2.
Proof. unfold PyText.space2. intros H. bool_to_prop; lia. Qed.

Lemma space3_code (c1 c2 c3 : ascii) :
  PyText.space3 c1 c2 c3 = true ->
  128 <= nat_of_ascii c1 /\ 128 <= nat_of_ascii c2 /\ 128 <= nat_of_ascii c3.
Proof. unfold PyText.space3. intros H. bool_to_prop; lia. Qed.

Lemma prefix_other_head (a c : ascii) (p t : string) :
  nat_of_ascii c <> nat_of_ascii a -> String.prefix (String a p) (String c t) = false.
Proof.
  intros H. cbn [String.prefix]. destruct (ascii_dec a c) as [->|]; [now elim H | reflexivity].
Qed.

(** A string of white space only begins with a byte that is no printable
    ASCII character. *)
Lemma all_space_head (c : ascii) (s : string) :
  PyText.all_space (String c s) = true -> nat_of_ascii c <= 32 \/ 128 <= nat_of_ascii c.
Proof.
  cbn [PyText.all_space].
  destruct (PyText.space1 c) eqn:E1; [intros _; left; now apply space1_code|].
  destruct s as [|c2 s2]; [discriminate|].
  destruct (PyText.space2 c c2) eqn:E2; [intros _; right; now apply space2_code in E2|].
  destruct s2 as [|c3 s3]; [discriminate|].
  destruct (PyText.space3 c c2 c3) eqn:E3; [|discriminate].
  intros _. right. now apply space3_code in E3.
Qed.

Lemma rstrip_keeps_plain_prefix (p t : string) :
  plain p = true -> String.prefix p (PyText.rstrip t) = String.prefix p t.
Proof.
  revert t. induction p as [|a p IH]; intros t Hp; [now destruct t, (PyText.rstrip _)|].
  cbn [plain] in Hp. bool_to_prop.
  destruct t as [|c t]; [reflexivity|]. cbn [PyText.rstrip].
  destruct (PyText.all_space (String c t)) eqn:E.
  - apply all_space_head in E. symmetry. apply prefix_other_head. lia.
  - cbn [String.prefix]. destruct (ascii_dec a c); [now apply IH | reflexivity].
Qed.

Lemma strip_startswith (p s : string) :
  plain p = true ->
  PyStr.startswith p (PyText.strip s) = PyStr.startswith p (PyText.lstrip s).
Proof. intros Hp. unfold PyStr.startswith, PyText.strip. now apply rstrip_keeps_plain_prefix. Qed.

Lemma replace_first_skip (a : ascii) (old new : string) (c : ascii) (s : string) :
  nat_of_ascii c <> nat_of_ascii a ->
  PyText.replace_first (String a old) new (String c s)
  = String c (PyText.replace_first (String a old) new s).
Proof.
  intros H. cbn [PyText.replace_first]. now rewrite (prefix_other_head a c old s H).
Qed.

Lemma replace_first_step (old new : string) (c : ascii) (s : string) :
  String.prefix old (String c s) = false ->
  PyText.replace_first old new (String c s) = String c (PyText.replace_first old new s).
Proof. intros H. cbn [PyText.replace_first]. now rewrite H. Qed.

(** Replacing the first root tag leaves the declaration that opens the
    document where it is. *)
Lemma lstrip_replace (new s : string) :
  String.prefix "<?xml" (PyText.lstrip s) = true ->
  String.prefix "<?xml" (PyText.lstrip (PyText.replace_first "<score-partwise" new s)) = true.
Proof.
  assert (G : forall n s, String.length s <= n ->
              String.prefix "<?xml" (PyText.lstrip s) = true ->
              String.prefix "<?xml"
                (PyText.lstrip (PyText.replace_first "<score-partwise" new s)) = true).
  { clear s. induction n as [|n IH]; intros s Hn H.
    - destruct s; [discriminate H | cbn in Hn; lia].
    - destruct s as [|c1 s1]; [discriminate H|]. cbn [String.length] in Hn.
      cbn [PyText.lstrip] in H.
      destruct (PyText.space1 c1) eqn:E1.
      { rewrite replace_first_skip
          by (apply space1_code in E1; change (nat_of_ascii "<") with 60; lia).
        cbn [PyText.lstrip]. rewrite E1. apply IH; [lia | exact H]. }
      destruct s1 as [|c2 s2].
      { apply prefix_split in H as [r Hr]. cbn in Hr. congruence. }
      cbn [String.length] in Hn.
      destruct (PyText.space2 c1 c2) eqn:E2.
      { apply space2_code in E2 as E. destruct E.
        rewrite replace_first_skip by (change (nat_of_ascii "<") with 60; lia).
        rewrite replace_first_skip by (change (nat_of_ascii "<") with 60; lia).
        cbn [PyText.lstrip]. rewrite E1, E2. apply IH; [lia | exact H]. }
      destruct s2 as [|c3 s3].
      { apply prefix_split in H as [r Hr]. cbn in Hr. congruence. }
      cbn [String.length] in Hn.
      destruct (PyText.space3 c1 c2 c3) eqn:E3.
      { apply space3_code in E3 as E. destruct E as (? & ? & ?).
        rewrite replace_first_skip by (change (nat_of_ascii "<") with 60; lia).
        rewrite replace_first_skip by (change (nat_of_ascii "<") with 60; lia).
        rewrite replace_first_skip by (change (nat_of_ascii "<") with 60; lia).
        cbn [PyText.lstrip]. rewrite E1, E2, E3. apply IH; [lia | exact H]. }
      apply prefix_split in H as [r Hr]. cbn [append] in Hr.
      injection Hr as -> -> -> ->.
      assert (R : PyText.replace_first "<score-partwise" new ("<?xml" ++ r)
                  = "<?xml" ++ PyText.replace_first "<score-partwise" new r).
      { cbn [append]. now do 5 (rewrite replace_first_step by reflexivity). }
      cbn [append] in R. rewrite R.
      cbn [PyText.lstrip]. rewrite E1, E2, E3.
      apply (prefix_app_l "<?xml" "<?xml"). reflexivity. }
  exact (G (String.length s) s (le_n _)).
Qed.

Lemma contains_app_r (needle a t : string) :
  PyStr.contains needle t = true -> PyStr.contains needle (a ++ t) = true.
Proof.
  unfold PyStr.contains. intros H.
  induction a as [|c a IH]; [exact H|]. cbn [append PyStr.find].
  destruct (String.prefix needle (String c (a ++ t))); [reflexivity|].
  now destruct (PyStr.find needle (a ++ t)).
Qed.

Lemma contains_prefix (needle s : string) :
  String.prefix needle s = true -> PyStr.contains needle s = true.
Proof. unfold PyStr.contains. intros H. destruct s; cbn [PyStr.find]; now rewrite H. Qed.

Lemma replace_first_found (old new s : string) :
  PyStr.contains old s = true ->
  exists a b, PyText.replace_first old new s = a ++ new ++ b.
Proof.
  unfold PyStr.contains.
  induction s as [|c s IH]; cbn [PyStr.find PyText.replace_first].
  - destruct (String.prefix old ""); [|discriminate]. intros _.
    now exists "", (PyStr.drop (String.length old) "").
  - destruct (String.prefix old (String c s)).
    + intros _. now exists "", (PyStr.drop (String.length old) (String c s)).
    + destruct (PyStr.find old s); [|discriminate]. intros _.
      destruct (IH eq_refl) as (a & b & ->). now exists (String c a), b.
Qed.

(** What [quick_fix] returns opens with an XML declaration and, if it
    holds a root tag [score-partwise], holds a DOCTYPE. *)
Lemma quick_fix_fixed (musicxml : string) : fixed (quick_fix musicxml) = true.
Proof.
  unfold fixed, quick_fix.
  set (decl := "<?xml version=" ++ q ++ "1.0" ++ q ++ _).
  set (new := "<!DOCTYPE score-partwise PUBLIC " ++ _).
  set (y := if negb (PyStr.startswith "<?xml" (PyText.strip musicxml))
            then decl else musicxml).
  assert (Hy : String.prefix "<?xml" (PyText.lstrip y) = true).
  { unfold y. destruct (PyStr.startswith "<?xml" (PyText.strip musicxml)) eqn:E; cbn [negb].
    - now rewrite strip_startswith in E.
    - vm_compute. reflexivity. }
  rewrite !strip_startswith by reflexivity. unfold PyStr.startswith.
  destruct (PyStr.contains "<!DOCTYPE" y) eqn:Hd; cbn [negb andb].
  - rewrite Hy, Hd. cbn [andb]. apply orb_true_r.
  - destruct (PyStr.contains "<score-partwise" y) eqn:Hs.
    + rewrite (lstrip_replace new y Hy). cbn [andb].
      destruct (replace_first_found "<score-partwise" new y Hs) as (a & b & ->).
      rewrite (contains_app_r "<!DOCTYPE" a (new ++ b)); [apply orb_true_r|].
      apply contains_app_l. vm_compute. reflexivity.
    + rewrite Hy, Hs. reflexivity.
Qed.

Lemma fixed_unchanged (musicxml : string) :
  fixed musicxml = true -> quick_fix musicxml = musicxml.
Proof.
  unfold fixed, quick_fix. intros H. apply andb_true_iff in H as [H1 H2].
  rewrite H1. cbn [negb].
  destruct (PyStr.contains "<!DOCTYPE" musicxml); [reflexivity|].
  rewrite orb_false_r in H2. apply negb_true_iff in H2. now rewrite H2.
Qed.

(** [quick_fix] is idempotent: a fixed document is returned as it is. *)
Theorem quick_fix_idempotent (musicxml : string) :
  quick_fix (quick_fix musicxml) = quick_fix musicxml.
Proof. apply fixed_unchanged, quick_fix_fixed. Qed.


(** ** [_extract_musicxml] *)

Lemma take_drop (n : nat) (s : string) : s = PyStr.take n s ++ PyStr.drop n s.
Proof.
  revert s. induction n as [|n IH]; intros s; [reflexivity|].
  destruct s as [|c s]; [reflexivity|]. cbn [PyStr.take PyStr.drop append]. now rewrite <- IH.
Qed.

(** The text before the first occurrence of a needle holds no
    occurrence. *)
Lemma take_find_free (needle s : string) (j : nat) :
  needle <> "" -> PyStr.find needle s = Some j ->
  PyStr.contains needle (PyStr.take j s) = false.
Proof.
  intros Hn. unfold PyStr.contains. revert j.
  induction s as [|c s IH]; intros j; cbn [PyStr.find].
  - destruct needle; [now elim Hn|]. discriminate.
  - destruct (String.prefix needle (String c s)) eqn:E.
    + intros H. injection H as <-. cbn [PyStr.take PyStr.find].
      now destruct needle; [elim Hn|].
    + destruct (PyStr.find needle s) as [k|] eqn:Ek; [|discriminate].
      intros H. injection H as <-. cbn [PyStr.take PyStr.find].
      destruct (String.prefix needle (String c (PyStr.take k s))) eqn:E'.
      * pose proof (prefix_app_l _ _ (PyStr.drop k s) E') as P.
        cbn [append] in P. rewrite <- take_drop in P. congruence.
      * specialize (IH k eq_refl). now destruct (PyStr.find needle (PyStr.take k s)).
Qed.

Lemma contains_inside (needle a m b : string) :
  PyStr.contains needle (a ++ m ++ b) = false -> PyStr.contains needle m = false.
Proof.
  intros H. destruct (PyStr.contains needle m) eqn:E; [|reflexivity].
  rewrite (contains_app_r needle a (m ++ b)) in H; [discriminate|].
  now apply contains_app_l.
Qed.

(** [lstrip] and [rstrip] cut white space off the ends. *)
Lemma lstrip_suffix (s : string) : exists w, s = w ++ PyText.lstrip s.
Proof.
  assert (G : forall n s, String.length s <= n -> exists w, s = w ++ PyText.lstrip s).
  { clear s. induction n as [|n IH]; intros s Hn.
    - destruct s; [now exists "" | cbn in Hn; lia].
    - destruct s as [|c1 s1]; [now exists ""|]. cbn [String.length] in Hn.
      cbn [PyText.lstrip]. destruct (PyText.space1 c1).
      { destruct (IH s1 ltac:(lia)) as [w Hw]. exists (String c1 w).
        cbn [append]. now rewrite <- Hw. }
      destruct s1 as [|c2 s2]; [now exists ""|]. cbn [String.length] in Hn.
      destruct (PyText.space2 c1 c2).
      { destruct (IH s2 ltac:(lia)) as [w Hw]. exists (String c1 (String c2 w)).
        cbn [append]. now rewrite <- Hw. }
      destruct s2 as [|c3 s3]; [now exists ""|]. cbn [String.length] in Hn.
      destruct (PyText.space3 c1 c2 c3); [|now exists ""].
      destruct (IH s3 ltac:(lia)) as [w Hw]. exists (String c1 (String c2 (String c3 w))).
      cbn [append]. now rewrite <- Hw. }
  exact (G (String.length s) s (le_n _)).
Qed.

Lemma rstrip_prefix (s : string) :
  exists w, s = PyText.rstrip s ++ w /\ PyText.all_space w = true.
Proof.
  induction s as [|c s IH]; [now exists ""|].
  cbn [PyText.rstrip]. destruct (PyText.all_space (String c s)) eqn:E.
  - now exists (String c s).
  - destruct IH as (w & Hw & Hs). exists w. split; [|exact Hs].
    cbn [append]. now rewrite <- Hw.
Qed.

Lemma contains_strip (needle s : string) :
  PyStr.contains needle s = false -> PyStr.contains needle (PyText.strip s) = false.
Proof.
  intros H. unfold PyText.strip.
  destruct (lstrip_suffix s) as [w1 H1].
  destruct (rstrip_prefix (PyText.lstrip s)) as (w2 & H2 & _).
  rewrite H1, H2 in H. exact (contains_inside _ _ _ _ H).
Qed.

Lemma length_append (a b : string) :
  String.length (a ++ b) = String.length a + String.length b.
Proof. induction a as [|c a IH]; [reflexivity|]. cbn [append String.length]. now rewrite IH. Qed.

Lemma lstrip_length (s : string) : String.length (PyText.lstrip s) <= String.length s.
Proof.
  destruct (lstrip_suffix s) as [w Hw]. rewrite Hw at 2.
  rewrite length_append. lia.
Qed.

Lemma lstrip_lstrip (s : string) : PyText.lstrip (PyText.lstrip s) = PyText.lstrip s.
Proof.
  assert (G : forall n s, String.length s <= n ->
              PyText.lstrip (PyText.lstrip s) = PyText.lstrip s).
  { clear s. induction n as [|n IH]; intros s Hn.
    - destruct s; [reflexivity | cbn in Hn; lia].
    - destruct s as [|c1 s1]; [reflexivity|]. cbn [String.length] in Hn.
      cbn [PyText.lstrip]. destruct (PyText.space1 c1) eqn:E1; [apply IH; lia|].
      destruct s1 as [|c2 s2]; [cbn [PyText.lstrip]; now rewrite E1|].
      cbn [String.length] in Hn.
      destruct (PyText.space2 c1 c2) eqn:E2; [apply IH; lia|].
      destruct s2 as [|c3 s3]; [cbn [PyText.lstrip]; now rewrite E1, E2|].
      cbn [String.length] in Hn.
      destruct (PyText.space3 c1 c2 c3) eqn:E3; [apply IH; lia|].
      cbn [PyText.lstrip]. now rewrite E1, E2, E3. }
  exact (G (String.length s) s (le_n _)).
Qed.

Lemma all_space_app (u w : string) :
  PyText.all_space u = true -> PyText.all_space w = true ->
  PyText.all_space (u ++ w) = true.
Proof.
  intros Hu Hw.
  assert (G : forall n u, String.length u <= n -> PyText.all_space u = true ->
              PyText.all_space (u ++ w) = true).
  { clear u Hu. induction n as [|n IH]; intros u Hn Hu.
    - destruct u; [exact Hw | cbn in Hn; lia].
    - destruct u as [|c1 u1]; [exact Hw|]. cbn [String.length] in Hn.
      cbn [PyText.all_space append] in *.
      destruct (PyText.space1 c1); [apply IH; [lia | exact Hu]|].
      destruct u1 as [|c2 u2]; [discriminate|]. cbn [String.length append] in *.
      destruct (PyText.space2 c1 c2); [apply IH; [lia | exact Hu]|].
      destruct u2 as [|c3 u3]; [discriminate|]. cbn [String.length append] in *.
      destruct (PyText.space3 c1 c2 c3); [apply IH; [lia | exact Hu] | discriminate]. }
  exact (G (String.length u) u (le_n _) Hu).
Qed.

Lemma rstrip_rstrip (t : string) : PyText.rstrip (PyText.rstrip t) = PyText.rstrip t.
Proof.
  induction t as [|c t IH]; [reflexivity|]. cbn [PyText.rstrip].
  destruct (PyText.all_space (String c t)) eqn:E; [reflexivity|].
  cbn [PyText.rstrip].
  destruct (PyText.all_space (String c (PyText.rstrip t))) eqn:E'; [|now rewrite IH].
  destruct (rstrip_prefix t) as (w & Hw & Hs).
  pose proof (all_space_app _ w E' Hs) as H. cbn [append] in H.
  rewrite <- Hw in H. congruence.
Qed.

(** A text without white space in front keeps none when white space is
    cut off its end. *)
Lemma lstrip_rstrip (t : string) :
  PyText.lstrip t = t -> PyText.lstrip (PyText.rstrip t) = PyText.rstrip t.
Proof.
  intros Ht.
  assert (Hshort : forall s, String.length s < String.length t -> PyText.lstrip s <> t).
  { intros s Hs E. pose proof (lstrip_length s) as L. rewrite E in L. lia. }
  destruct (rstrip_prefix t) as (w & Hw & _).
  destruct (PyText.rstrip t) as [|c1 u1]; [reflexivity|].
  cbn [PyText.lstrip].
  destruct (PyText.space1 c1) eqn:E1.
  { exfalso. rewrite Hw in Ht at 1. cbn [append PyText.lstrip] in Ht. rewrite E1 in Ht.
    eapply Hshort; [|exact Ht]. rewrite Hw. cbn [append String.length]. lia. }
  destruct u1 as [|c2 u2]; [reflexivity|].
  destruct (PyText.space2 c1 c2) eqn:E2.
  { exfalso. rewrite Hw in Ht at 1. cbn [append PyText.lstrip] in Ht. rewrite E1, E2 in Ht.
    eapply Hshort; [|exact Ht]. rewrite Hw. cbn [append String.length]. lia. }
  destruct u2 as [|c3 u3]; [reflexivity|].
  destruct (PyText.space3 c1 c2 c3) eqn:E3; [|reflexivity].
  exfalso. rewrite Hw in Ht at 1. cbn [append PyText.lstrip] in Ht. rewrite E1, E2, E3 in Ht.
  eapply Hshort; [|exact Ht]. rewrite Hw. cbn [append String.length]. lia.
Qed.

Lemma strip_strip (s : string) : PyText.strip (PyText.strip s) = PyText.strip s.
Proof.
  unfold PyText.strip.
  rewrite (lstrip_rstrip (PyText.lstrip s) (lstrip_lstrip s)).
  apply rstrip_rstrip.
Qed.

Lemma search_fenced_clean (lang text xml : string) :
  search_fenced lang text = Some xml ->
  PyText.strip xml = xml /\ PyStr.contains fence xml = false.
Proof.
  unfold search_fenced.
  destruct (PyStr.find (fence ++ lang) text) as [i|]; [|discriminate].
  destruct (PyStr.find fence _) as [j|] eqn:E; [|discriminate].
  intros H. injection H as <-. split; [apply strip_strip|].
  apply contains_strip. apply take_find_free; [discriminate | exact E].
Qed.

(** The MusicXML that [chat] and the last chunk of [chat_stream] hand
    over, when they hand one over, is not empty, has no white space at
    its ends and holds no code fence. *)
Theorem final_musicxml_is_clean (text xml : string)
  (Hxml : final_musicxml text = Some xml) :
  xml <> ""
  /\ PyText.strip xml = xml
  /\ PyStr.contains fence xml = false.
Proof.
  unfold final_musicxml in Hxml.
  destruct (_extract_musicxml text) as [x|] eqn:E; [|discriminate].
  destruct x as [|c x]; [discriminate|]. cbn [truthy] in Hxml. injection Hxml as <-.
  split; [discriminate|].
  unfold _extract_musicxml in E.
  destruct (search_fenced "musicxml" text) as [y|] eqn:E1.
  - injection E as ->. exact (search_fenced_clean _ _ _ E1).
  - destruct (search_fenced "xml" text) as [y|] eqn:E2; [|discriminate].
    destruct (_ || _); [|discriminate]. injection E as ->.
    exact (search_fenced_clean _ _ _ E2).
Qed.

Lemma final_musicxml_is_clean_witness :
  final_musicxml fenced_answer = Some "<score-partwise/>"
  /\ "<score-partwise/>" <> ""
  /\ PyText.strip "<score-partwise/>" = "<score-partwise/>"
  /\ PyStr.contains fence "<score-partwise/>" = false.
Proof.
  split; [vm_compute; reflexivity|].
  apply (final_musicxml_is_clean fenced_answer). vm_compute. reflexivity.
Defined.

(** An answer cut before its closing fence gives snapshots while it
    streams and no MusicXML at the end. *)
Example cut_answer_has_no_final_musicxml :
  final_musicxml Scenario.chat_buffer = None
  /\ Scenario.reconstruct Scenario.chat_buffer <> None.
Proof. split; [vm_compute; reflexivity | vm_compute; discriminate]. Qed.

(** ** [parse_score_info] *)

Lemma find_app {A : Type} (p : A -> bool) (a b : list A) :
  List.find p (a ++ b)%list
  = match List.find p a with Some x => Some x | None => List.find p b end.
Proof.
  induction a as [|x a IH]; [reflexivity|]. cbn [app List.find].
  now destruct (p x).
Qed.

Lemma find_none_existsb {A : Type} (p : A -> bool) (l : list A) :
  existsb p l = false -> List.find p l = None.
Proof.
  induction l as [|x l IH]; [reflexivity|]. cbn [existsb List.find].
  destruct (p x); [discriminate | exact IH].
Qed.

Lemma find_filter_head {A : Type} (p : A -> bool) (l : list A) :
  List.find p l = match filter p l with x :: _ => Some x | [] => None end.
Proof.
  induction l as [|x l IH]; [reflexivity|]. cbn [List.find filter].
  now destruct (p x).
Qed.

(** In a partwise layout the first part in document order is the first
    part among the children of the root. *)
Lemma first_part_at_top (root : element) :
  parts_at_top root = true ->
  find_path (Etree.has_tag "part") root = Etree.find "part" root.
Proof.
  unfold parts_at_top, find_path, Etree.find, Etree.findall.
  destruct root as [t a x cs l]. cbn [descendants Etree.children].
  induction cs as [|c cs IH]; [reflexivity|].
  cbn [forallb flat_map filter]. intros H. apply andb_true_iff in H as [Hc H].
  apply negb_true_iff in Hc.
  change (c :: descendants c ++ flat_map (fun c => c :: descendants c) cs)%list
    with ((c :: descendants c) ++ flat_map (fun c => c :: descendants c) cs)%list.
  rewrite find_app. cbn [List.find].
  destruct (Etree.has_tag "part" c); [reflexivity|].
  rewrite (find_none_existsb _ _ Hc). exact (IH H).
Qed.

Section ScoreInfoFacts.

Variable fromstring : string -> py_result element.

(** For a valid document in partwise layout, the measure count that
    [parse_score_info] reports is the count of the first part, and is at
    least one. *)
Theorem info_counts_first_part (xml_string : string) (root : element) (info : score_info)
  (Hparse : fromstring xml_string = Returns root)
  (Hvalid : check_root root = (true, None))
  (Hlayout : parts_at_top root = true)
  (Hinfo : parse_score_info fromstring xml_string = Info info) :
  exists first_part,
    Etree.find "part" root = Some first_part
    /\ info_measures info = List.length (Etree.findall "measure" first_part)
    /\ 1 <= info_measures info.
Proof.
  unfold parse_score_info in Hinfo. rewrite Hparse in Hinfo. cbn [bind] in Hinfo.
  unfold score_info_of in Hinfo. rewrite (first_part_at_top root Hlayout) in Hinfo.
  apply check_root_valid in Hvalid. unfold valid_tree in Hvalid.
  apply andb_true_iff in Hvalid as [Hvalid Hmeasures].
  apply andb_true_iff in Hvalid as [_ Hparts].
  unfold Etree.find in *.
  destruct (Etree.findall "part" root) as [|p ps]; [discriminate|].
  cbn [forallb] in Hmeasures. apply andb_true_iff in Hmeasures as [Hp _].
  apply negb_true_iff, Nat.eqb_neq in Hp.
  exists p. split; [reflexivity|].
  assert (E : info_measures info = List.length (Etree.findall "measure" p)).
  { destruct (find_path (Etree.has_tag "measure") root) as [fm|].
    - destruct (match find_path (Etree.has_tag "fifths") fm with
                | Some _ => _ | None => _ end) as [key|]; [|discriminate].
      cbn [bind] in Hinfo. now injection Hinfo as <-.
    - now injection Hinfo as <-. }
  split; [exact E | lia].
Qed.

(** A score whose first measure announces seven flats gets no
    information: the key lookup fails and [parse_score_info] returns the
    error of the lookup. *)
Theorem info_fails_on_seven_flats (xml_string : string) (root first_measure fifths : element)
  (s : string)
  (Hparse : fromstring xml_string = Returns root)
  (Hmeasure : find_path (Etree.has_tag "measure") root = Some first_measure)
  (Hfifths : find_path (Etree.has_tag "fifths") first_measure = Some fifths)
  (Htext : Etree.text fifths = Some s)
  (Hseven : PyStr.to_int s = Some (-7)%Z) :
  parse_score_info fromstring xml_string = InfoError "list index out of range".
Proof.
  unfold parse_score_info. rewrite Hparse. cbn [bind].
  unfold score_info_of. rewrite Hmeasure, Hfifths, Htext.
  unfold int_of_text. rewrite Hseven. reflexivity.
Qed.

End ScoreInfoFacts.

Lemma info_counts_first_part_witness :
  exists info first_part,
    ScenarioInfo.info Scenario.addition_3 = Info info
    /\ Etree.find "part"
         (Element "score-partwise" [] None
            [Element "part-list" [] None
               [Element "score-part" [("id", "P1")] None [] None] None;
             Element "part" [("id", "P1")] None
               [Element "measure" [("number", "1")] None
                  [Element "a" [] None [] None] None;
                Element "measure" [("number", "2")] None
                  [Element "b" [] None [] None] None;
                Element "measure" [("number", "3")] None
                  [Element "c" [] None [] None] None] None] None)
       = Some first_part
    /\ info_measures info = List.length (Etree.findall "measure" first_part)
    /\ 1 <= info_measures info.
Proof.
  eexists.
  edestruct (info_counts_first_part Xml.fromstring Scenario.addition_3) as (p & H1 & H2 & H3).
  - vm_compute. reflexivity.
  - vm_compute. reflexivity.
  - vm_compute. reflexivity.
  - vm_compute. reflexivity.
  - exists p. split; [vm_compute; reflexivity|]. split; [exact H1|]. split; [exact H2 | exact H3].
Defined.

Lemma info_fails_on_seven_flats_witness :
  ScenarioInfo.info ScenarioInfo.seven_flats = InfoError "list index out of range"
  /\ Scenario.validate ScenarioInfo.seven_flats = (true, None).
Proof.
  split; [|vm_compute; reflexivity].
  eapply (info_fails_on_seven_flats Xml.fromstring ScenarioInfo.seven_flats).
  - vm_compute. reflexivity.
  - vm_compute. reflexivity.
  - vm_compute. reflexivity.
  - vm_compute. reflexivity.
  - vm_compute. reflexivity.
Defined.

(** Outside the partwise layout the count can be zero for a valid
    document: the first part in document order need not be a child of
    the root. *)
Example info_counts_stray_part :
  Scenario.validate ScenarioInfo.stray_part = (true, None)
  /\ ScenarioInfo.info ScenarioInfo.stray_part
     = Info (ScoreInfo None None [] 0 None None).
Proof. vm_compute. split; reflexivity. Qed.

(** ** [int(str(n))] *)

Lemma uint_val_acc (d : Decimal.uint) (acc : positive) :
  uint_val d (Z.pos acc) = Z.pos (Pos.of_uint_acc d acc).
Proof.
  revert acc. induction d; intros acc; cbn [uint_val Pos.of_uint_acc]; [reflexivity | ..];
    rewrite <- IHd; f_equal; lia.
Qed.

Lemma uint_val_0 (d : Decimal.uint) : uint_val d 0 = Z.of_N (Pos.of_uint d).
Proof.
  induction d; cbn [uint_val Pos.of_uint]; [reflexivity | exact IHd | ..];
    cbn [Z.mul Z.add Z.of_N]; apply uint_val_acc.
Qed.

Lemma digits_uint (d : Decimal.uint) (acc : Z) :
  PyStr.digits (NilEmpty.string_of_uint d) acc true = Some (uint_val d acc).
Proof.
  revert acc. induction d; intros acc; cbn [NilEmpty.string_of_uint uint_val];
    [reflexivity | ..]; exact (IHd _).
Qed.

Lemma digits_first (d : Decimal.uint) :
  d <> Decimal.Nil ->
  PyStr.to_int (NilEmpty.string_of_uint d) = Some (uint_val d 0).
Proof.
  intros Hd. destruct d; [now elim Hd | ..]; cbn [NilEmpty.string_of_uint uint_val];
    exact (digits_uint _ _).
Qed.

Lemma to_int_of_int (n : Z) : PyStr.to_int (PyStr.of_int n) = Some n.
Proof.
  unfold PyStr.of_int. destruct n as [|p|p]; cbn [Z.to_int NilZero.string_of_int].
  - reflexivity.
  - unfold NilZero.string_of_uint.
    pose proof (Unsigned.to_uint_nonnil p) as Hp.
    destruct (Pos.to_uint p) eqn:E; [now elim Hp | ..];
      rewrite <- E; (rewrite digits_first by (rewrite E; discriminate));
      now rewrite uint_val_0, Unsigned.of_to.
  - unfold NilZero.string_of_uint.
    pose proof (Unsigned.to_uint_nonnil p) as Hp.
    assert (H : PyStr.to_int (String "-" (NilEmpty.string_of_uint (Pos.to_uint p)))
                = Some (Z.neg p)).
    { unfold PyStr.to_int. cbn [PyStr.lstrip].
      change (PyStr.is_space "-") with false. cbv iota.
      change (Ascii.eqb "-" "-") with true. cbv iota.
      assert (D : PyStr.digits (NilEmpty.string_of_uint (Pos.to_uint p)) 0 false
                  = Some (uint_val (Pos.to_uint p) 0)).
      { destruct (Pos.to_uint p); [now elim Hp | ..];
          cbn [NilEmpty.string_of_uint uint_val]; exact (digits_uint _ _). }
      rewrite D, uint_val_0, Unsigned.of_to. reflexivity. }
    destruct (Pos.to_uint p); [now elim Hp | ..]; exact H.
Qed.

(** ** The reader gives no empty text *)

Lemma forallb_rev {A : Type} (f : A -> bool) (l : list A) : forallb f (rev l) = forallb f l.
Proof.
  induction l as [|x l IH]; [reflexivity|]. cbn [rev forallb].
  rewrite forallb_app, IH. cbn [forallb]. rewrite andb_true_r. apply andb_comm.
Qed.

Lemma normal_set_tail (e : element) (l : option string) :
  normal (Etree.set_tail e l) = normal e.
Proof. now destruct e. Qed.

Lemma normal_flush (buf : string) (fr : Xml.frame) :
  normal_frame fr = true -> normal_frame (Xml.flush buf fr) = true.
Proof.
  unfold Xml.flush. destruct buf as [|c buf]; [easy|].
  destruct fr as [t a x [|e es]]; cbn [Xml.f_rchildren Xml.f_tag Xml.f_attrib Xml.f_text].
  - reflexivity.
  - unfold normal_frame. cbn [Xml.f_rchildren Xml.f_text forallb].
    now rewrite normal_set_tail.
Qed.

Lemma normal_close (fr : Xml.frame) : normal (Xml.close_frame fr) = normal_frame fr.
Proof.
  unfold Xml.close_frame, normal_frame, normal. cbn [every Etree.text].
  now rewrite forallb_rev.
Qed.

Lemma normal_attach (st : Xml.pstate) (fr : Xml.frame) (rest : list Xml.frame) :
  normal_frame fr = true -> forallb normal_frame rest = true ->
  match Xml.st_root st with Some r => normal r | None => true end = true ->
  normal_state (Xml.attach st rest (Xml.close_frame fr)) = true.
Proof.
  intros Hfr Hrest Hroot. unfold Xml.attach, normal_state.
  destruct rest as [|fr' rest']; cbn [Xml.st_stack Xml.st_root forallb].
  - now rewrite normal_close.
  - cbn [forallb] in Hrest. apply andb_true_iff in Hrest as [H1 H2].
    unfold normal_frame at 1. cbn [Xml.add_child Xml.f_text Xml.f_rchildren forallb].
    rewrite normal_close, Hfr. unfold normal_frame in H1.
    apply andb_true_iff in H1 as [H1 H3]. rewrite H1, H3, H2. exact Hroot.
Qed.

Ltac split_state H :=
  unfold normal_state in H; cbn [Xml.st_stack Xml.st_root] in H;
  apply andb_true_iff in H; destruct H.

Ltac same_state :=
  unfold Xml.fail, Xml.with_mode, normal_state; cbn [Xml.st_stack Xml.st_root];
  apply andb_true_iff; split; assumption.

Lemma step_normal (st : Xml.pstate) (c : ascii) :
  normal_state st = true -> normal_state (Xml.step st c) = true.
Proof.
  intros H. pose proof H as H0.
  destruct st as [stack root fresh dt m]. split_state H.
  unfold Xml.step. cbn [Xml.st_mode].
  destruct (negb (Xml.is_char c)); [destruct m; first [exact H0 | same_state]|].
  destruct m as [buf|buf ref| |expected k|qmark| |name|sp|an|an|an qc val|an qc val ref|
                 |name|name|msg]; try exact H0.
  - (* Content *)
    unfold Xml.step_content. cbn [Xml.st_stack Xml.st_root Xml.st_fresh Xml.st_doctype].
    destruct stack as [|fr rest].
    + destruct (Ascii.eqb c "<"); [exact H0|].
      destruct (Xml.is_space c); [same_state|]. destruct root; same_state.
    + destruct (Ascii.eqb c "<").
      * unfold normal_state. cbn [Xml.st_stack Xml.st_root forallb] in *.
        apply andb_true_iff in H as [Hfr Hrest].
        now rewrite (normal_flush buf fr Hfr), Hrest.
      * destruct (Ascii.eqb c "&"); [same_state|].
        destruct (Xml.code c =? 13)%nat; same_state.
  - (* ContentRef *)
    unfold Xml.step_ref. destruct (Ascii.eqb c ";").
    + destruct (Xml.decode_ref ref); same_state.
    + destruct (_ || _); same_state.
  - (* TagOpen *)
    unfold Xml.step_tag_open. cbn [Xml.st_stack Xml.st_root Xml.st_fresh Xml.st_doctype].
    destruct (Ascii.eqb c "?"); [destruct fresh; same_state|].
    destruct (Ascii.eqb c "!"); [destruct stack, root, dt; same_state|].
    destruct (Ascii.eqb c "/"); [destruct stack; same_state|].
    destruct (Xml.name_start c); [destruct stack, root; same_state | same_state].
  - (* Keyword *)
    unfold Xml.step_keyword. destruct expected as [|e rest]; [same_state|].
    destruct (Ascii.eqb c e); [|same_state]. destruct rest; [destruct k|]; same_state.
  - (* XmlDecl *)
    destruct (Ascii.eqb c "?"); [same_state|].
    destruct (Ascii.eqb c ">"); [same_state|].
    destruct (Ascii.eqb c "<"); same_state.
  - (* Doctype *)
    destruct (Ascii.eqb c ">"); [exact H0|]. destruct (_ || _); same_state.
  - (* StartName *)
    unfold Xml.open_element.
    destruct (Xml.name_char c); [same_state|].
    destruct (Xml.is_space c); [exact H0|].
    destruct (Ascii.eqb c ">"); [exact H0|].
    destruct (Ascii.eqb c "/"); [exact H0 | same_state].
  - (* InTag *)
    unfold Xml.step_in_tag.
    destruct (Xml.is_space c); [same_state|].
    destruct (Ascii.eqb c ">"); [same_state|].
    destruct (Ascii.eqb c "/"); [same_state|]. destruct (_ && _); same_state.
  - (* AttrName *)
    destruct (Xml.name_char c); [same_state|].
    destruct (Ascii.eqb c "="); [|same_state].
    destruct (String.eqb an "xmlns"); [same_state|]. destruct (Xml.has_attr _ _); same_state.
  - (* AttrQuote *)
    destruct (_ || _); same_state.
  - (* AttrValue *)
    destruct (Ascii.eqb c qc).
    + unfold Xml.on_top. cbn [Xml.st_stack Xml.st_root Xml.st_doctype].
      destruct stack as [|fr rest]; [same_state|]. exact H0.
    + destruct (Ascii.eqb c "<"); [same_state|].
      destruct (Ascii.eqb c "&"); [same_state|].
      destruct (Xml.code c =? 13)%nat; [same_state|]. destruct (Xml.is_space c); same_state.
  - (* AttrRef *)
    unfold Xml.step_ref. destruct (Ascii.eqb c ";").
    + destruct (Xml.decode_ref ref); same_state.
    + destruct (_ || _); same_state.
  - (* EmptyClose *)
    destruct (Ascii.eqb c ">"); [|same_state].
    cbn [Xml.st_stack]. destruct stack as [|fr rest]; [same_state|].
    cbn [forallb] in H. apply andb_true_iff in H as [Hfr Hrest].
    now apply normal_attach.
  - (* EndName *)
    assert (Hend : normal_state (Xml.end_tag (Xml.PState stack root fresh dt
                                                (Xml.EndName name)) name) = true).
    { unfold Xml.end_tag. cbn [Xml.st_stack]. destruct stack as [|fr rest]; [same_state|].
      destruct (String.eqb (Xml.f_tag fr) name); [|same_state].
      cbn [forallb] in H. apply andb_true_iff in H as [Hfr Hrest].
      now apply normal_attach. }
    destruct (match name with "" => Xml.name_start c | String _ _ => Xml.name_char c end);
      [same_state|].
    destruct name; [same_state|].
    destruct (Xml.is_space c); [same_state|].
    destruct (Ascii.eqb c ">"); [|same_state].
    unfold Xml.end_tag in *. exact Hend.
  - (* EndSpace *)
    destruct (Xml.is_space c); [same_state|].
    destruct (Ascii.eqb c ">"); [|same_state].
    unfold Xml.end_tag. cbn [Xml.st_stack]. destruct stack as [|fr rest]; [same_state|].
    destruct (String.eqb (Xml.f_tag fr) name); [|same_state].
    cbn [forallb] in H. apply andb_true_iff in H as [Hfr Hrest].
    now apply normal_attach.
Qed.

Lemma run_normal (s : string) (st : Xml.pstate) :
  normal_state st = true -> normal_state (Xml.run st s) = true.
Proof.
  revert st. induction s as [|c s IH]; intros st H; [exact H|].
  cbn [Xml.run]. apply IH. now apply step_normal.
Qed.

(** What the reference reader returns holds no empty text. *)
Lemma fromstring_normal (s : string) (root : element) :
  Xml.fromstring s = Returns root -> normal root = true.
Proof.
  unfold Xml.fromstring, Xml.finish.
  pose proof (run_normal s Xml.initial eq_refl) as H.
  destruct (Xml.run Xml.initial s) as [stack r fresh dt m].
  unfold normal_state in H. cbn [Xml.st_stack Xml.st_root Xml.st_mode Xml.st_fresh] in *.
  destruct m; try discriminate.
  destruct stack; [|discriminate]. destruct r as [r|]; [|destruct fresh; discriminate].
  intros E. injection E as <-. cbn [forallb andb] in H. exact H.
Qed.

(** ** Reading a score through its skeleton *)

Lemma find_map {A B : Type} (f : A -> B) (p : B -> bool) (l : list A) :
  List.find p (map f l) = option_map f (List.find (fun x => p (f x)) l).
Proof.
  induction l as [|x l IH]; [reflexivity|]. cbn [map List.find].
  now destruct (p (f x)).
Qed.

Lemma filter_map_swap {A B : Type} (f : A -> B) (p : B -> bool) (l : list A) :
  filter p (map f l) = map f (filter (fun x => p (f x)) l).
Proof.
  induction l as [|x l IH]; [reflexivity|]. cbn [map filter].
  destruct (p (f x)); cbn [map]; now rewrite IH.
Qed.

Lemma find_pointwise {A : Type} (p q : A -> bool) (l : list A) :
  (forall x, p x = q x) -> List.find p l = List.find q l.
Proof.
  intros H. induction l as [|x l IH]; [reflexivity|]. cbn [List.find].
  now rewrite H, IH.
Qed.

Lemma descendants_skeleton (e : element) :
  descendants (skeleton e) = map skeleton (descendants e).
Proof.
  pattern e. apply element_induction. clear e. intros t a x cs l IH.
  cbn [skeleton descendants].
  induction cs as [|c cs IHcs]; [reflexivity|].
  inversion IH as [|? ? Hc Hcs]; subst.
  cbn [map flat_map]. rewrite map_app, Hc, (IHcs Hcs). reflexivity.
Qed.

Lemma has_tag_skeleton (t : string) (e : element) :
  Etree.has_tag t (skeleton e) = Etree.has_tag t e.
Proof. unfold Etree.has_tag. now rewrite skeleton_tag. Qed.

Lemma is_composer_skeleton (e : element) : is_composer (skeleton e) = is_composer e.
Proof. unfold is_composer. now rewrite has_tag_skeleton, skeleton_get. Qed.

Lemma find_path_skeleton (p : element -> bool) (e : element) :
  (forall d, p (skeleton d) = p d) ->
  find_path p (skeleton e) = option_map skeleton (find_path p e).
Proof.
  intros H. unfold find_path. rewrite descendants_skeleton, find_map.
  f_equal. now apply find_pointwise.
Qed.

Lemma findall_path_skeleton (p : element -> bool) (e : element) :
  (forall d, p (skeleton d) = p d) ->
  findall_path p (skeleton e) = map skeleton (findall_path p e).
Proof.
  intros H. unfold findall_path. rewrite descendants_skeleton, filter_map_swap.
  f_equal. now apply filter_pointwise.
Qed.

Lemma efind_skeleton (t : string) (e : element) :
  Etree.find t (skeleton e) = option_map skeleton (Etree.find t e).
Proof. unfold Etree.find. rewrite skeleton_findall. now destruct (Etree.findall t e). Qed.

(** Reading the skeleton is reading the tree through the skeleton of each
    element. *)
Lemma score_info_skeleton (rd : element -> option string) (root : element) :
  score_info_with rd (skeleton root) = score_info_with (fun d => rd (skeleton d)) root.
Proof.
  unfold score_info_with.
  rewrite !find_path_skeleton by first [apply has_tag_skeleton | apply is_composer_skeleton].
  rewrite findall_path_skeleton by apply has_tag_skeleton.
  rewrite map_map.
  assert (Hparts :
    map (fun x => (Etree.get (skeleton x) "id",
                   match Etree.find "part-name" (skeleton x) with
                   | Some part_name => rd part_name
                   | None => Some "Unnamed"
                   end))
        (findall_path (Etree.has_tag "score-part") root)
    = map (fun score_part => (Etree.get score_part "id",
                   match Etree.find "part-name" score_part with
                   | Some part_name => rd (skeleton part_name)
                   | None => Some "Unnamed"
                   end))
        (findall_path (Etree.has_tag "score-part") root)).
  { apply map_ext. intros sp. rewrite skeleton_get, efind_skeleton.
    now destruct (Etree.find "part-name" sp). }
  rewrite Hparts. clear Hparts.
  assert (Hmeasures :
    match option_map skeleton (find_path (Etree.has_tag "part") root) with
    | Some first_part => List.length (Etree.findall "measure" first_part)
    | None => 0
    end
    = match find_path (Etree.has_tag "part") root with
      | Some first_part => List.length (Etree.findall "measure" first_part)
      | None => 0
      end).
  { destruct (find_path (Etree.has_tag "part") root); [|reflexivity].
    cbn [option_map]. now rewrite skeleton_findall, length_map. }
  rewrite Hmeasures. clear Hmeasures.
  destruct (find_path (Etree.has_tag "work-title") root);
    destruct (find_path is_composer root);
    (destruct (find_path (Etree.has_tag "measure") root) as [fm|]; [|reflexivity]);
    cbn [option_map];
    rewrite !find_path_skeleton by apply has_tag_skeleton;
    (destruct (find_path (Etree.has_tag "fifths") fm);
     destruct (find_path (Etree.has_tag "time") fm) as [tm|]);
    cbn [option_map]; rewrite ?efind_skeleton;
    try (destruct (Etree.find "beats" tm), (Etree.find "beat-type" tm));
    reflexivity.
Qed.

Lemma descendants_in_child (e c d : element) :
  In c (Etree.children e) -> In d (c :: descendants c) -> In d (descendants e).
Proof.
  intros Hc Hd. rewrite (descendants_children e).
  apply in_flat_map. now exists c.
Qed.

Lemma descendants_trans (e c d : element) :
  In c (descendants e) -> In d (descendants c) -> In d (descendants e).
Proof.
  pattern e. apply element_induction. clear e. intros t a x cs l IH Hc Hd.
  cbn [descendants] in *. apply in_flat_map in Hc as (k & Hk & Hc).
  apply in_flat_map. exists k. split; [exact Hk|].
  destruct Hc as [<- | Hc]; [now right|].
  right. rewrite Forall_forall in IH. now apply (IH k Hk).
Qed.

Lemma find_path_some (p : element -> bool) (e d : element) :
  find_path p e = Some d -> In d (descendants e) /\ p d = true.
Proof. apply find_some. Qed.

Lemma efind_some (t : string) (e c : element) :
  Etree.find t e = Some c -> In c (descendants e) /\ Etree.tag c = t.
Proof.
  unfold Etree.find, Etree.findall. intros H.
  destruct (filter (Etree.has_tag t) (Etree.children e)) as [|c' cs] eqn:E; [discriminate|].
  injection H as ->.
  assert (Hin : In c (filter (Etree.has_tag t) (Etree.children e)))
    by (rewrite E; now left).
  apply filter_In in Hin as [Hin Ht]. split.
  - apply (descendants_in_child e c c Hin). now left.
  - now apply String.eqb_eq.
Qed.

(** Two ways of reading texts that agree on the elements whose text is
    read give the same information. *)
Lemma score_info_agree (rd1 rd2 : element -> option string) (root : element) :
  (forall d, In d (descendants root) -> text_carrier (Etree.tag d) = true -> rd1 d = rd2 d) ->
  score_info_with rd1 root = score_info_with rd2 root.
Proof.
  intros H. unfold score_info_with.
  assert (Htitle :
    match find_path (Etree.has_tag "work-title") root with
    | Some e => rd1 e | None => None end
    = match find_path (Etree.has_tag "work-title") root with
      | Some e => rd2 e | None => None end).
  { destruct (find_path (Etree.has_tag "work-title") root) as [d|] eqn:E; [|reflexivity].
    apply find_path_some in E as [Hin Ht]. apply String.eqb_eq in Ht.
    apply H; [exact Hin | now rewrite Ht]. }
  assert (Hcomposer :
    match find_path is_composer root with Some e => rd1 e | None => None end
    = match find_path is_composer root with Some e => rd2 e | None => None end).
  { destruct (find_path is_composer root) as [d|] eqn:E; [|reflexivity].
    apply find_path_some in E as [Hin Ht]. unfold is_composer in Ht.
    apply andb_true_iff in Ht as [Ht _]. apply String.eqb_eq in Ht.
    apply H; [exact Hin | now rewrite Ht]. }
  assert (Hparts :
    map (fun sp => (Etree.get sp "id",
                    match Etree.find "part-name" sp with
                    | Some pn => rd1 pn | None => Some "Unnamed" end))
        (findall_path (Etree.has_tag "score-part") root)
    = map (fun sp => (Etree.get sp "id",
                    match Etree.find "part-name" sp with
                    | Some pn => rd2 pn | None => Some "Unnamed" end))
        (findall_path (Etree.has_tag "score-part") root)).
  { apply map_ext_in. intros sp Hsp. apply filter_In in Hsp as [Hsp _].
    destruct (Etree.find "part-name" sp) as [pn|] eqn:E; [|reflexivity].
    apply efind_some in E as [Hin Ht]. f_equal.
    apply H; [exact (descendants_trans _ _ _ Hsp Hin) | now rewrite Ht]. }
  rewrite Htitle, Hcomposer, Hparts.
  destruct (find_path (Etree.has_tag "measure") root) as [fm|] eqn:Efm; [|reflexivity].
  apply find_path_some in Efm as [Hfm _].
  assert (Hkey :
    match find_path (Etree.has_tag "fifths") fm with
    | Some f => n <- int_of_text (rd1 f) ;; k <- fifths_to_key n "major" ;; Returns (Some k)
    | None => Returns None end
    = match find_path (Etree.has_tag "fifths") fm with
      | Some f => n <- int_of_text (rd2 f) ;; k <- fifths_to_key n "major" ;; Returns (Some k)
      | None => Returns None end).
  { destruct (find_path (Etree.has_tag "fifths") fm) as [f|] eqn:E; [|reflexivity].
    apply find_path_some in E as [Hin Ht]. apply String.eqb_eq in Ht.
    rewrite (H f); [reflexivity | exact (descendants_trans _ _ _ Hfm Hin) | now rewrite Ht]. }
  assert (Htime :
    match find_path (Etree.has_tag "time") fm with
    | Some tm =>
        match Etree.find "beats" tm, Etree.find "beat-type" tm with
        | Some b, Some bt => Some (str_of_text (rd1 b) ++ "/" ++ str_of_text (rd1 bt))
        | _, _ => None
        end
    | None => None end
    = match find_path (Etree.has_tag "time") fm with
      | Some tm =>
          match Etree.find "beats" tm, Etree.find "beat-type" tm with
          | Some b, Some bt => Some (str_of_text (rd2 b) ++ "/" ++ str_of_text (rd2 bt))
          | _, _ => None
          end
      | None => None end).
  { destruct (find_path (Etree.has_tag "time") fm) as [tm|] eqn:E; [|reflexivity].
    apply find_path_some in E as [Htm _].
    pose proof (descendants_trans _ _ _ Hfm Htm) as Htm'.
    destruct (Etree.find "beats" tm) as [b|] eqn:Eb; [|reflexivity].
    destruct (Etree.find "beat-type" tm) as [bt|] eqn:Ebt; [|reflexivity].
    apply efind_some in Eb as [Hb Htb]. apply efind_some in Ebt as [Hbt Htbt].
    rewrite (H b), (H bt); [reflexivity | | | |].
    - exact (descendants_trans _ _ _ Htm' Hbt).
    - now rewrite Htbt.
    - exact (descendants_trans _ _ _ Htm' Hb).
    - now rewrite Htb. }
  now rewrite Hkey, Htime.
Qed.

Lemma every_descendants (P : element -> bool) (e d : element) :
  every P e = true -> In d (descendants e) -> every P d = true.
Proof.
  pattern e. apply element_induction. clear e. intros t a x cs l IH He Hd.
  cbn [every] in He. apply andb_true_iff in He as [_ Hcs].
  cbn [descendants] in Hd. apply in_flat_map in Hd as (c & Hc & Hd).
  rewrite forallb_forall in Hcs. rewrite Forall_forall in IH.
  destruct Hd as [<- | Hd]; [now apply Hcs|].
  apply (IH c Hc); [now apply Hcs | exact Hd].
Qed.

Lemma every_here (P : element -> bool) (e : element) : every P e = true -> P e = true.
Proof. destruct e. cbn [every]. intros H. now apply andb_true_iff in H as [H _]. Qed.

Lemma leafy_skeleton (e : element) : leafy (skeleton e) = leafy e.
Proof.
  unfold leafy. pattern e. apply element_induction. clear e. intros t a x cs l IH.
  cbn [skeleton every Etree.tag Etree.children]. f_equal.
  - now destruct cs.
  - induction cs as [|c cs IHcs]; [reflexivity|].
    inversion IH as [|? ? Hc Hcs]; subst. cbn [map forallb]. now rewrite Hc, (IHcs Hcs).
Qed.

Lemma carrier_text (d : element) :
  leafy d = true -> normal d = true -> text_carrier (Etree.tag d) = true ->
  Etree.text (skeleton d) = Etree.text d.
Proof.
  intros Hl Hn Ht. apply every_here in Hl. apply every_here in Hn.
  rewrite Ht in Hl. cbn [negb orb] in Hl.
  destruct d as [t a x cs l]. cbn [Etree.children Etree.text skeleton] in *.
  destruct cs; [|discriminate]. now destruct x as [[|c s]|].
Qed.

(** A tree that the reader returns with the skeleton of the tree [root]
    gives the information read from [root] through the skeleton of its
    elements. *)
Lemma score_info_read_back (root root' : element) :
  normal root' = true -> skeleton root' = skeleton root -> leafy root = true ->
  score_info_of root' = score_info_with (fun d => Etree.text (skeleton d)) root.
Proof.
  intros Hn Hs Hl.
  assert (Hl' : leafy root' = true) by (now rewrite <- leafy_skeleton, Hs, leafy_skeleton).
  change (score_info_of root') with (score_info_with Etree.text root').
  rewrite <- score_info_skeleton, <- Hs, score_info_skeleton.
  apply score_info_agree. intros d Hd Ht. symmetry.
  apply carrier_text; [| | exact Ht].
  - exact (every_descendants _ _ _ Hl' Hd).
  - exact (every_descendants _ _ _ Hn Hd).
Qed.

(** ** The information read from a built score *)

Lemma score_parts_built (parts : list part_def) (sps : list element) :
  map_m score_part_of parts = Returns sps -> sps = map score_part_tree parts.
Proof.
  revert sps. induction parts as [|pd parts IH]; intros sps; cbn [map_m map].
  - intros E. now injection E as <-.
  - destruct (score_part_of pd) as [sp|] eqn:Esp; [|discriminate]. cbn [bind].
    destruct (map_m score_part_of parts) as [sps'|]; [|discriminate]. cbn [bind].
    intros E. injection E as <-. rewrite (IH sps' eq_refl). f_equal.
    unfold score_part_of, xml_str in Esp.
    destruct (Xml.xml_compatible (pd_id pd)); [|discriminate]. cbn [bind] in Esp.
    destruct (Xml.xml_compatible (pd_name pd)); [|discriminate]. cbn [bind] in Esp.
    unfold score_part_tree.
    destruct (truthy (pd_abbreviation pd)).
    + destruct (Xml.xml_compatible _); [|discriminate]. cbn [bind] in Esp.
      now injection Esp as <-.
    + cbn [bind] in Esp. now injection Esp as <-.
Qed.

Lemma empty_score_tree_built (title composer : string) (parts : option (list part_def))
  (time_sig : Z * Z) (key_fifths tempo measures : Z) (root : element) :
  empty_score_tree title composer parts time_sig key_fifths tempo measures = Returns root ->
  root = built_tree title composer (parts_or_default parts) time_sig key_fifths tempo measures.
Proof.
  unfold empty_score_tree. fold (parts_or_default parts).
  set (defs := parts_or_default parts).
  unfold xml_str at 1.
  destruct (Xml.xml_compatible title); [|discriminate]. cbn [bind].
  destruct (match composer with
            | "" => Returns []
            | String _ _ =>
                c <- xml_str composer;;
                Returns [Etree.new "identification" []
                           [Etree.leaf "creator" [("type", "composer")] c]]
            end) as [ident|] eqn:Eident; [|discriminate]. cbn [bind].
  destruct (map_m score_part_of defs) as [sps|] eqn:Esps; [|discriminate]. cbn [bind].
  destruct (map_mi (part_of time_sig key_fifths tempo measures) 0 defs) as [ps|] eqn:Eps;
    [|discriminate]. cbn [bind].
  intros H. injection H as <-.
  destruct (parts_built _ _ _ _ _ _ _ Eps) as [-> _].
  rewrite (score_parts_built _ _ Esps). unfold built_tree. do 3 f_equal.
  destruct composer as [|c0 composer]; [now injection Eident as <-|].
  unfold xml_str in Eident. destruct (Xml.xml_compatible _); [|discriminate].
  cbn [bind] in Eident. now injection Eident as <-.
Qed.

Lemma every_new (P : element -> bool) (t : string) (a : list (string * string))
  (cs : list element) :
  P (Etree.new t a cs) = true -> forallb (every P) cs = true ->
  every P (Etree.new t a cs) = true.
Proof. intros H1 H2. unfold Etree.new in *. cbn [every]. now rewrite H1, H2. Qed.

Lemma every_leaf (P : element -> bool) (t : string) (a : list (string * string)) (x : string) :
  P (Etree.leaf t a x) = true -> every P (Etree.leaf t a x) = true.
Proof. intros H. unfold Etree.leaf in *. cbn [every forallb]. now rewrite H. Qed.

(** A test that looks at the tag and at whether there are children holds
    throughout a built measure as soon as it holds of the elements a
    measure is made of. *)
Lemma every_measure_of (P : element -> bool) (part_idx : nat) (clef_sign clef_line : string)
  (time_sig : Z * Z) (key_fifths tempo m : Z) :
  (forall t a cs, existsb (String.eqb t) part_tags = true ->
                  (text_carrier t = true -> cs = []) -> P (Etree.new t a cs) = true) ->
  (forall t a x, existsb (String.eqb t) part_tags = true -> P (Etree.leaf t a x) = true) ->
  every P (measure_of part_idx clef_sign clef_line time_sig key_fifths tempo m) = true.
Proof.
  intros Hnew Hleaf.
  assert (N : forall t a cs, existsb (String.eqb t) part_tags = true ->
                text_carrier t = false -> forallb (every P) cs = true ->
                every P (Etree.new t a cs) = true).
  { intros t a cs Ht Hc Hcs. apply every_new; [|exact Hcs].
    apply Hnew; [exact Ht | congruence]. }
  assert (L : forall t a x, existsb (String.eqb t) part_tags = true ->
                every P (Etree.leaf t a x) = true).
  { intros t a x Ht. apply every_leaf. now apply Hleaf. }
  unfold measure_of. apply N; [reflexivity .. |].
  apply forallb_app_true.
  - destruct (m =? 1)%Z; [|reflexivity]. cbn [forallb]. apply andb_true_iff. split.
    + unfold attributes_of. apply N; [reflexivity .. |]. cbn [forallb].
      rewrite (L "divisions"), (N "key"), (N "time"), (N "clef"); try reflexivity;
        cbn [forallb]; rewrite ?L; reflexivity.
    + destruct (part_idx =? 0)%nat; [|reflexivity]. cbn [forallb]. rewrite andb_true_r.
      unfold direction_of. apply N; [reflexivity .. |]. cbn [forallb].
      rewrite (N "direction-type"), (N "sound"); try reflexivity.
      cbn [forallb]. rewrite (N "metronome"); try reflexivity.
      cbn [forallb]. rewrite !L; reflexivity.
  - apply forallb_repeat. unfold rest_note. apply N; [reflexivity .. |]. cbn [forallb].
    rewrite (N "rest"), !L; reflexivity.
Qed.

Lemma every_part_trees (P : element -> bool) (time_sig : Z * Z) (key_fifths tempo measures : Z)
  (parts : list part_def) (i : nat) :
  (forall t a cs, existsb (String.eqb t) part_tags = true ->
                  (text_carrier t = true -> cs = []) -> P (Etree.new t a cs) = true) ->
  (forall t a x, existsb (String.eqb t) part_tags = true -> P (Etree.leaf t a x) = true) ->
  forallb (every P) (part_trees time_sig key_fifths tempo measures i parts) = true.
Proof.
  intros Hnew Hleaf. revert i. induction parts as [|pd parts IH]; intros i; [reflexivity|].
  cbn [part_trees forallb]. rewrite IH, andb_true_r.
  apply every_new; [apply Hnew; [reflexivity | discriminate]|].
  apply forallb_map_true. intros m. now apply every_measure_of.
Qed.

Lemma every_score_part_children (P : element -> bool) (pd : part_def) :
  (forall t a cs, existsb (String.eqb t) score_part_tags = true ->
                  (text_carrier t = true -> cs = []) -> P (Etree.new t a cs) = true) ->
  (forall t a x, existsb (String.eqb t) score_part_tags = true ->
                 P (Etree.leaf t a x) = true) ->
  forallb (every P) (Etree.children (score_part_tree pd)) = true.
Proof.
  intros Hnew Hleaf.
  assert (N : forall t a cs, existsb (String.eqb t) score_part_tags = true ->
                text_carrier t = false -> forallb (every P) cs = true ->
                every P (Etree.new t a cs) = true).
  { intros t a cs Ht Hc Hcs. apply every_new; [|exact Hcs].
    apply Hnew; [exact Ht | congruence]. }
  assert (L : forall t a x, existsb (String.eqb t) score_part_tags = true ->
                every P (Etree.leaf t a x) = true).
  { intros t a x Ht. apply every_leaf. now apply Hleaf. }
  unfold score_part_tree. cbn [Etree.new Etree.children]. fold (Etree.new).
  cbn [app forallb]. rewrite (L "part-name") by reflexivity. cbn [andb].
  apply forallb_app_true.
  - destruct (truthy (pd_abbreviation pd)); [|reflexivity]. cbn [forallb].
    now rewrite (L "part-abbreviation").
  - cbn [forallb]. rewrite (N "score-instrument"), (N "midi-instrument"); try reflexivity;
      cbn [forallb]; rewrite ?L; reflexivity.
Qed.

Lemma existsb_none {A : Type} (p : A -> bool) (l : list A) :
  (forall x, In x l -> p x = false) -> existsb p l = false.
Proof.
  intros H. induction l as [|x l IH]; [reflexivity|]. cbn [existsb].
  rewrite (H x (or_introl eq_refl)), IH; [reflexivity|].
  intros y Hy. apply H. now right.
Qed.

Lemma filter_none_existsb {A : Type} (p : A -> bool) (l : list A) :
  existsb p l = false -> filter p l = [].
Proof.
  induction l as [|x l IH]; [reflexivity|]. cbn [existsb filter].
  destruct (p x); [discriminate | exact IH].
Qed.

(** Among trees whose tags lie in [tags] a test that fails on those tags
    finds nothing. *)
Lemma none_within (tags : list string) (p : element -> bool) (l : list element) :
  forallb (tags_within tags) l = true ->
  (forall d, existsb (String.eqb (Etree.tag d)) tags = true -> p d = false) ->
  existsb p (flat_map (fun c => c :: descendants c) l) = false.
Proof.
  intros Hl Hp. apply existsb_none. intros d Hd.
  apply in_flat_map in Hd as (c & Hc & Hd).
  rewrite forallb_forall in Hl. specialize (Hl c Hc).
  apply Hp.
  destruct Hd as [<- | Hd].
  - exact (every_here _ _ Hl).
  - exact (every_here _ _ (every_descendants _ _ _ Hl Hd)).
Qed.

Lemma other_tag (tags : list string) (t : string) (d : element) :
  existsb (String.eqb t) tags = false ->
  existsb (String.eqb (Etree.tag d)) tags = true -> Etree.has_tag t d = false.
Proof.
  intros Ht Hd. unfold Etree.has_tag. destruct (String.eqb_spec (Etree.tag d) t) as [E|];
    [|reflexivity]. rewrite E in Hd. congruence.
Qed.

Lemma no_composer (tags : list string) (d : element) :
  existsb (String.eqb "creator") tags = false ->
  existsb (String.eqb (Etree.tag d)) tags = true -> is_composer d = false.
Proof. intros Ht Hd. unfold is_composer. now rewrite (other_tag tags "creator" d Ht Hd). Qed.

Lemma part_trees_tags (time_sig : Z * Z) (key_fifths tempo measures : Z)
  (parts : list part_def) (i : nat) :
  forallb (tags_within part_tags) (part_trees time_sig key_fifths tempo measures i parts)
  = true.
Proof. apply every_part_trees; intros; cbn [Etree.new Etree.leaf Etree.tag]; assumption. Qed.

Lemma score_part_tags_below (pd : part_def) :
  forallb (tags_within score_part_tags) (Etree.children (score_part_tree pd)) = true.
Proof.
  apply every_score_part_children; intros; cbn [Etree.new Etree.leaf Etree.tag]; assumption.
Qed.

(** Nothing in the part list satisfies a test that fails on
    [score-part] and on the tags below it. *)
Lemma none_in_score_parts (p : element -> bool) (parts : list part_def) :
  (forall d, existsb (String.eqb (Etree.tag d)) ("score-part" :: score_part_tags) = true ->
             p d = false) ->
  existsb p (flat_map (fun c => c :: descendants c) (map score_part_tree parts)) = false.
Proof.
  intros Hp. apply existsb_none. intros d Hd.
  apply in_flat_map in Hd as (c & Hc & Hd). apply in_map_iff in Hc as (pd & <- & _).
  destruct Hd as [<- | Hd]; [now apply Hp|].
  rewrite descendants_children in Hd. apply in_flat_map in Hd as (k & Hk & Hd).
  pose proof (score_part_tags_below pd) as Hall. rewrite forallb_forall in Hall.
  specialize (Hall k Hk). apply Hp.
  assert (Ht : existsb (String.eqb (Etree.tag d)) score_part_tags = true).
  { destruct Hd as [<- | Hd]; [exact (every_here _ _ Hall)|].
    exact (every_here _ _ (every_descendants _ _ _ Hall Hd)). }
  cbn [existsb]. rewrite Ht. apply orb_true_r.
Qed.

Lemma score_parts_found (parts : list part_def) :
  filter (Etree.has_tag "score-part")
         (flat_map (fun c => c :: descendants c) (map score_part_tree parts))
  = map score_part_tree parts.
Proof.
  induction parts as [|pd parts IH]; [reflexivity|].
  cbn [map flat_map]. cbn [app filter].
  change (Etree.has_tag "score-part" (score_part_tree pd)) with true. cbv iota.
  rewrite filter_app, IH. f_equal.
  rewrite filter_none_existsb; [reflexivity|].
  rewrite descendants_children.
  apply (none_within score_part_tags); [apply score_part_tags_below|].
  intros d. now apply other_tag.
Qed.

Lemma range1_first (measures : Z) :
  (1 <= measures)%Z ->
  range1 measures = 1%Z :: map Z.of_nat (seq 2 (Z.to_nat measures - 1)).
Proof.
  intros H. unfold range1.
  replace (Z.to_nat measures) with (S (Z.to_nat measures - 1)) at 1 by lia.
  reflexivity.
Qed.

Lemma range1_none (measures : Z) : (measures < 1)%Z -> range1 measures = [].
Proof. intros H. unfold range1. now replace (Z.to_nat measures) with 0 by lia. Qed.

Lemma range1_length (measures : Z) : List.length (range1 measures) = Z.to_nat measures.
Proof. unfold range1. now rewrite length_map, length_seq. Qed.

Lemma no_measure_built (time_sig : Z * Z) (key_fifths tempo measures : Z)
  (parts : list part_def) (i : nat) :
  (measures < 1)%Z ->
  List.find (Etree.has_tag "measure")
    (flat_map (fun c => c :: descendants c)
              (part_trees time_sig key_fifths tempo measures i parts)) = None.
Proof.
  intros H. revert i. induction parts as [|pd parts IH]; intros i; [reflexivity|].
  cbn [part_trees flat_map]. rewrite (range1_none measures H).
  cbn [map Etree.new descendants flat_map app List.find].
  change (Etree.has_tag "measure" (Element "part" [("id", pd_id pd)] None [] None))
    with false. cbv iota. apply IH.
Qed.

Lemma of_int_nonempty (n : Z) : PyStr.of_int n <> "".
Proof. intros E. pose proof (to_int_of_int n) as H. rewrite E in H. discriminate H. Qed.

Lemma norm_of_int (n : Z) : norm_text (Some (PyStr.of_int n)) = Some (PyStr.of_int n).
Proof. pose proof (of_int_nonempty n). now destruct (PyStr.of_int n). Qed.

(** The information read from a built tree, through any way of reading
    texts. *)
Lemma score_info_built (rd : element -> option string) (title composer : string)
  (parts : list part_def) (time_sig : Z * Z) (key_fifths tempo measures : Z) :
  let t := rd (Etree.leaf "work-title" [] title) in
  let c := match composer with
           | EmptyString => None
           | String _ _ => rd (Etree.leaf "creator" [("type", "composer")] composer)
           end in
  let names := map (fun pd => (Some (pd_id pd), rd (Etree.leaf "part-name" [] (pd_name pd))))
                   parts in
  score_info_with rd (built_tree title composer parts time_sig key_fifths tempo measures)
  = match parts with
    | [] => Returns (ScoreInfo t c [] 0 None None)
    | _ :: _ =>
        if (measures <? 1)%Z
        then Returns (ScoreInfo t c names 0 None None)
        else key <- (n <- int_of_text (rd (Etree.leaf "fifths" [] (PyStr.of_int key_fifths))) ;;
                     k <- fifths_to_key n "major" ;;
                     Returns (Some k)) ;;
             Returns (ScoreInfo t c names (Z.to_nat measures) key
                        (Some (str_of_text (rd (Etree.leaf "beats" []
                                                  (PyStr.of_int (fst time_sig))))
                               ++ "/"
                               ++ str_of_text (rd (Etree.leaf "beat-type" []
                                                     (PyStr.of_int (snd time_sig)))))))
    end.
Proof.
  intros t c names.
  set (f := fun e : element => e :: descendants e).
  set (work := Etree.new "work" [] [Etree.leaf "work-title" [] title]).
  set (ident := match composer with
                | "" => []
                | String _ _ => [Etree.new "identification" []
                                   [Etree.leaf "creator" [("type", "composer")] composer]]
                end).
  set (sps := map score_part_tree parts).
  set (ps := part_trees time_sig key_fifths tempo measures 0 parts).
  assert (D : descendants (built_tree title composer parts time_sig key_fifths tempo measures)
              = (work :: Etree.leaf "work-title" [] title
                 :: flat_map f ident
                 ++ Etree.new "part-list" [] sps :: flat_map f sps ++ flat_map f ps)%list).
  { unfold built_tree. cbn [Etree.new descendants]. fold f.
    rewrite !flat_map_app. cbn [flat_map]. rewrite !app_nil_r.
    unfold f at 1 3. unfold work, sps, Etree.new, Etree.leaf.
    cbn [descendants flat_map app]. fold f. reflexivity. }
  assert (Hsps : forall p rest,
            (forall d, existsb (String.eqb (Etree.tag d)) ("score-part" :: score_part_tags)
                       = true -> p d = false) ->
            p (Etree.new "part-list" [] sps) = false ->
            List.find p (Etree.new "part-list" [] sps :: flat_map f sps ++ rest)%list
            = List.find p rest).
  { intros p rest Hp Hpl. cbn [List.find]. rewrite Hpl, find_app.
    rewrite find_none_existsb; [reflexivity|]. now apply none_in_score_parts. }
  assert (Hps : forall p,
            (forall d, existsb (String.eqb (Etree.tag d)) part_tags = true -> p d = false) ->
            existsb p (flat_map f ps) = false).
  { intros p Hp. apply (none_within part_tags); [apply part_trees_tags | exact Hp]. }
  assert (Htitle : find_path (Etree.has_tag "work-title")
                     (built_tree title composer parts time_sig key_fifths tempo measures)
                   = Some (Etree.leaf "work-title" [] title)).
  { unfold find_path. rewrite D. reflexivity. }
  assert (Hcomposer :
            match find_path is_composer
                    (built_tree title composer parts time_sig key_fifths tempo measures) with
            | Some creator => rd creator
            | None => None
            end = c).
  { unfold find_path. rewrite D. cbn [List.find].
    change (is_composer work) with false.
    change (is_composer (Etree.leaf "work-title" [] title)) with false. cbv iota.
    rewrite find_app. unfold ident, c. destruct composer as [|c0 composer].
    - change (List.find is_composer (flat_map f [])) with (@None element). cbv iota.
      rewrite Hsps; [|intros d; now apply no_composer | reflexivity].
      rewrite find_none_existsb; [reflexivity|].
      apply Hps. intros d. now apply no_composer.
    - reflexivity. }
  assert (Hparts :
            findall_path (Etree.has_tag "score-part")
              (built_tree title composer parts time_sig key_fifths tempo measures)
            = sps).
  { unfold findall_path. rewrite D. cbn [filter].
    change (Etree.has_tag "score-part" work) with false.
    change (Etree.has_tag "score-part" (Etree.leaf "work-title" [] title)) with false.
    cbv iota. rewrite filter_app.
    replace (filter (Etree.has_tag "score-part") (flat_map f ident)) with (@nil element)
      by (unfold ident; now destruct composer).
    cbn [filter app].
    change (Etree.has_tag "score-part" (Etree.new "part-list" [] sps)) with false.
    cbv iota. rewrite filter_app. unfold f, sps. rewrite score_parts_found.
    rewrite (filter_none_existsb _ (flat_map _ ps)); [apply app_nil_r|].
    apply Hps. intros d. now apply other_tag. }
  assert (Hbefore : forall t',
            existsb (String.eqb t') ("score-part" :: score_part_tags) = false ->
            existsb (String.eqb t') ["work"; "work-title"; "identification"; "creator";
                                     "part-list"] = false ->
            find_path (Etree.has_tag t')
              (built_tree title composer parts time_sig key_fifths tempo measures)
            = List.find (Etree.has_tag t') (flat_map f ps)).
  { intros t' H1 H2. unfold find_path. rewrite D.
    assert (T : forall t0 a cs,
              existsb (String.eqb t0) ["work"; "work-title"; "identification"; "creator";
                                       "part-list"] = true ->
              Etree.has_tag t' (Element t0 a None cs None) = false).
    { intros t0 a cs H0. unfold Etree.has_tag. cbn [Etree.tag].
      destruct (String.eqb_spec t0 t') as [->|]; [congruence | reflexivity]. }
    cbn [List.find]. unfold work, Etree.new at 1. rewrite T by reflexivity.
    unfold Etree.leaf at 1. unfold Etree.has_tag at 1. cbn [Etree.tag].
    replace (String.eqb "work-title" t') with false.
    2: { symmetry. destruct (String.eqb_spec "work-title" t') as [<-|]; [|reflexivity].
         discriminate H2. }
    rewrite find_app.
    replace (List.find (Etree.has_tag t') (flat_map f ident)) with (@None element).
    2: { symmetry. unfold ident. destruct composer; [reflexivity|].
         unfold f, Etree.new, Etree.leaf. cbn [flat_map descendants app List.find].
         unfold Etree.has_tag. cbn [Etree.tag].
         replace (String.eqb "identification" t') with false.
         2: { symmetry. destruct (String.eqb_spec "identification" t') as [<-|];
                [discriminate H2 | reflexivity]. }
         replace (String.eqb "creator" t') with false; [reflexivity|].
         symmetry. destruct (String.eqb_spec "creator" t') as [<-|];
           [discriminate H2 | reflexivity]. }
    rewrite Hsps; [reflexivity | |].
    - intros d. now apply other_tag.
    - unfold Etree.new. now apply T. }
  unfold score_info_with. rewrite Htitle, Hcomposer, Hparts.
  rewrite !Hbefore by reflexivity.
  assert (Hnames :
            map (fun score_part =>
                   (Etree.get score_part "id",
                    match Etree.find "part-name" score_part with
                    | Some part_name => rd part_name
                    | None => Some "Unnamed"
                    end)) sps = names).
  { unfold sps, names. rewrite map_map. apply map_ext. intros pd. reflexivity. }
  rewrite Hnames. fold t.
  unfold ps. destruct parts as [|pd parts']; [reflexivity|].
  destruct (Z.ltb_spec measures 1) as [Hm|Hm].
  - rewrite (no_measure_built _ _ _ _ _ _ Hm).
    cbn [part_trees flat_map f app List.find].
    change (Etree.has_tag "part" (Etree.new "part" _ _)) with true. cbv iota.
    unfold Etree.findall. cbn [Etree.new Etree.children].
    now rewrite (range1_none measures Hm).
  - cbn [part_trees flat_map f app List.find].
    change (Etree.has_tag "part" (Etree.new "part" _ _)) with true.
    change (Etree.has_tag "measure" (Etree.new "part" _ _)) with false. cbv iota.
    assert (Hcount : forall i cs cl,
              List.length
                (Etree.findall "measure"
                   (Etree.new "part" [("id", pd_id pd)]
                      (map (measure_of i cs cl time_sig key_fifths tempo) (range1 measures))))
              = Z.to_nat measures).
    { intros i cs cl. unfold Etree.findall. cbn [Etree.new Etree.children].
      rewrite filter_all by (now apply forallb_map_true).
      now rewrite length_map, range1_length. }
    rewrite Hcount. rewrite (range1_first measures Hm).
    cbn [map Etree.new descendants flat_map app List.find].
    unfold measure_of at 1. cbn [Z.eqb Pos.eqb].
    reflexivity.
Qed.

Lemma leafy_built (title composer : string) (parts : list part_def)
  (time_sig : Z * Z) (key_fifths tempo measures : Z) :
  leafy (built_tree title composer parts time_sig key_fifths tempo measures) = true.
Proof.
  unfold leafy.
  set (P := fun e => negb (text_carrier (Etree.tag e))
                     || match Etree.children e with [] => true | _ :: _ => false end).
  assert (Hnew : forall tags t a cs, existsb (String.eqb t) tags = true ->
                   (text_carrier t = true -> cs = []) -> P (Etree.new t a cs) = true).
  { intros tags t a cs _ H. unfold P. cbn [Etree.new Etree.tag Etree.children].
    destruct (text_carrier t); [now rewrite H | reflexivity]. }
  assert (Hleaf : forall tags t a x, existsb (String.eqb t) tags = true ->
                    P (Etree.leaf t a x) = true).
  { intros tags t a x _. unfold P. cbn [Etree.leaf Etree.children]. apply orb_true_r. }
  unfold built_tree. apply every_new; [reflexivity|].
  cbn [app forallb]. apply andb_true_iff. split; [reflexivity|].
  apply forallb_app_true; [now destruct composer|].
  cbn [forallb]. apply andb_true_iff. split.
  - apply every_new; [reflexivity|]. apply forallb_map_true. intros pd.
    pose proof (every_score_part_children P pd (Hnew score_part_tags) (Hleaf score_part_tags))
      as H.
    unfold score_part_tree in *. cbn [Etree.new Etree.children] in H.
    unfold Etree.new at 1. cbn [every]. now rewrite H.
  - apply every_part_trees; [apply Hnew | apply Hleaf].
Qed.

(** The information [parse_score_info] reads from a score that
    [create_empty_score] has built. *)
Theorem info_of_created_score (title composer : string) (parts : option (list part_def))
  (time_sig : Z * Z) (key_fifths tempo measures : Z) (doc : string)
  (Hdoc : Scenario.create title composer parts time_sig key_fifths tempo measures
          = Returns doc) :
  ScenarioInfo.info doc
  = built_info title composer (parts_or_default parts) time_sig key_fifths measures.
Proof.
  destruct (create_reads_back _ _ _ _ _ _ _ _ Hdoc) as (root & root' & E & Hparse & Hskel).
  apply empty_score_tree_built in E. subst root.
  unfold ScenarioInfo.info, parse_score_info. rewrite Hparse. cbn [bind].
  rewrite (score_info_read_back _ root' (fromstring_normal _ _ Hparse) Hskel
             (leafy_built _ _ _ _ _ _ _)).
  rewrite score_info_built. unfold built_info.
  cbn [Etree.leaf skeleton Etree.text].
  replace (match composer with "" => None | String _ _ => norm_text (Some composer) end)
    with (norm_text (Some composer)) by (now destruct composer).
  destruct (parts_or_default parts) as [|pd defs]; [reflexivity|].
  destruct (measures <? 1)%Z; [reflexivity|].
  rewrite !norm_of_int. unfold int_of_text. rewrite to_int_of_int. cbn [bind str_of_text].
  destruct (fifths_to_key key_fifths "major"); reflexivity.
Qed.

Lemma info_of_created_score_witness :
  exists doc,
    Scenario.create "" "Anon" None (3, 4)%Z (-7) 90 2 = Returns doc
    /\ ScenarioInfo.info doc = InfoError "list index out of range".
Proof.
  eexists. split; [vm_compute; reflexivity|].
  apply (info_of_created_score "" "Anon" None (3, 4)%Z (-7) 90 2).
  vm_compute. reflexivity.
Defined.

(** A built score in G major, with an empty title. *)
Example info_of_created_score_in_g :
  match Scenario.create "" "Anon" None (3, 4)%Z 1 90 2 with
  | Returns doc =>
      ScenarioInfo.info doc
      = Info (ScoreInfo None (Some "Anon") [(Some "P1", Some "Piano")] 2 (Some "G")
                        (Some "3/4"))
  | Raises _ => False
  end.
Proof. vm_compute. reflexivity. Qed.

(** ** An excerpt of an excerpt *)

Lemma update_update (k v : string) (a : list (string * string)) :
  Etree.update k v (Etree.update k v a) = Etree.update k v a.
Proof.
  induction a as [|[k' v'] a IH]; cbn [Etree.update].
  - now rewrite String.eqb_refl.
  - destruct (String.eqb k' k) eqn:E; cbn [Etree.update]; rewrite E; [reflexivity|].
    now rewrite IH.
Qed.

Lemma set_set (e : element) (k v : string) :
  Etree.set (Etree.set e k v) k v = Etree.set e k v.
Proof. destruct e. cbn [Etree.set]. now rewrite update_update. Qed.

Lemma renumber_renumber (i : Z) (cs : list element) :
  renumber i (renumber i cs) = renumber i cs.
Proof.
  revert i. induction cs as [|c cs IH]; intros i; [reflexivity|].
  cbn [renumber]. destruct (Etree.has_tag "measure" c) eqn:Hc; cbn [renumber].
  - now rewrite has_tag_set, Hc, set_set, IH.
  - now rewrite Hc, IH.
Qed.

Lemma in_range_numbered (c : element) (lo hi n : Z) :
  in_range lo hi (Etree.set c "number" (PyStr.of_int n)) = ((lo <=? n) && (n <=? hi))%Z.
Proof.
  unfold in_range, measure_number. now rewrite get_set_same, to_int_of_int.
Qed.

(** Measures numbered from [i + 1] on all lie in [1..m] when [m] is large
    enough for them. *)
Lemma keep_renumbered (m i : Z) (cs : list element) :
  (0 <= i)%Z ->
  (i + Z.of_nat (List.length (filter (Etree.has_tag "measure") cs)) <= m)%Z ->
  filter (fun c => negb (Etree.has_tag "measure" c) || in_range 1 m c) (renumber i cs)
  = renumber i cs.
Proof.
  revert i. induction cs as [|c cs IH]; intros i Hi Hm; [reflexivity|].
  cbn [renumber filter] in *. destruct (Etree.has_tag "measure" c) eqn:Hc.
  - cbn [List.length] in Hm. cbn [filter]. rewrite has_tag_set, Hc, in_range_numbered.
    cbn [negb orb].
    replace ((1 <=? i + 1) && (i + 1 <=? m))%Z with true
      by (symmetry; apply andb_true_iff; split; apply Z.leb_le; lia).
    rewrite IH; [reflexivity | lia | lia].
  - cbn [filter]. rewrite Hc. cbn [negb orb]. rewrite IH; [reflexivity | lia | lia].
Qed.

Lemma excerpt_of_excerpt (start end_ m : Z) (part : element) :
  (Z.of_nat (List.length (filter (in_range start end_) (Etree.findall "measure" part)))
   <= m)%Z ->
  excerpt_of 1 m (excerpt_of start end_ part) = excerpt_of start end_ part.
Proof.
  intros Hm. unfold excerpt_of at 1. unfold excerpt_of at 2.
  rewrite children_set_children.
  set (kept := filter (fun c => negb (Etree.has_tag "measure" c) || in_range start end_ c)
                      (Etree.children part)).
  assert (Hkept : filter (Etree.has_tag "measure") kept
                  = filter (in_range start end_) (Etree.findall "measure" part)).
  { unfold kept, Etree.findall. rewrite !filter_filter_and. apply filter_pointwise.
    intros c. now destruct (Etree.has_tag "measure" c), (in_range start end_ c). }
  rewrite keep_renumbered by (rewrite ?Hkept; lia).
  rewrite renumber_renumber. unfold excerpt_of. fold kept. now destruct part.
Qed.

Lemma excerpt_numbers (start end_ : Z) (root : element) :
  integer_numbers
    (Etree.set_children root
       (map (fun c => if Etree.has_tag "part" c then excerpt_of start end_ c else c)
            (Etree.children root))) = true.
Proof.
  unfold integer_numbers. rewrite excerpt_parts. apply forallb_map_true. intros part.
  destruct (excerpt_of_measures start end_ part) as [-> _].
  unfold numbered_from. apply forallb_map_true. intros im.
  unfold measure_number. now rewrite get_set_same, to_int_of_int.
Qed.

Section Reextract.

Variable fromstring : string -> py_result element.
Variable tostring : element -> string.

(** An excerpt is numbered from 1: when it reads back as the tree that
    was written, extracting from it a range [1..m] that has room for the
    measures of every part gives the same document again. *)
Theorem excerpt_is_stable (xml_string : string) (start end_ m : Z) (root : element)
  (Hparse : fromstring xml_string = Returns root)
  (Hnum : integer_numbers root = true)
  (Hroom : at_most start end_ m root = true) :
  let root' := Etree.set_children root
                 (map (fun c => if Etree.has_tag "part" c then excerpt_of start end_ c else c)
                      (Etree.children root)) in
  let excerpt := xml_declaration ++ tostring root' in
  extract_measures fromstring tostring xml_string start end_ = Returns excerpt
  /\ (fromstring excerpt = Returns root' ->
      extract_measures fromstring tostring excerpt 1 m = Returns excerpt).
Proof.
  intros root' excerpt. split.
  { unfold extract_measures. rewrite Hparse. cbn [bind].
    now rewrite (extract_tree_excerpt start end_ root Hnum). }
  intros Hback. unfold extract_measures. rewrite Hback. cbn [bind].
  rewrite (extract_tree_excerpt 1 m root' (excerpt_numbers start end_ root)).
  cbn [bind]. unfold excerpt. do 3 f_equal.
  unfold root' at 2. rewrite children_set_children, map_map.
  unfold root'. destruct root as [t a x cs l]. cbn [Etree.set_children Etree.children].
  f_equal. apply map_ext_in. intros c Hc. cbn beta.
  destruct (Etree.has_tag "part" c) eqn:Ec.
  - replace (Etree.has_tag "part" (excerpt_of start end_ c)) with true
      by (unfold excerpt_of; now rewrite has_tag_set_children).
    apply excerpt_of_excerpt. apply Z.leb_le.
    unfold at_most in Hroom. rewrite forallb_forall in Hroom.
    apply (Hroom c). unfold Etree.findall. cbn [Etree.children].
    apply filter_In. now split.
  - now rewrite Ec.
Qed.

End Reextract.

Lemma excerpt_is_stable_witness :
  exists excerpt,
    Scenario.excerpt laid_out_2 8 9 = Returns excerpt
    /\ Scenario.excerpt excerpt 1 1 = Returns excerpt.
Proof.
  eexists.
  edestruct (excerpt_is_stable Xml.fromstring Xml.tostring laid_out_2 8 9 1) as [H1 H2].
  - vm_compute. reflexivity.
  - vm_compute. reflexivity.
  - vm_compute. reflexivity.
  - split; [exact H1|]. apply H2. vm_compute. reflexivity.
Defined.
